(** * mexc-copytrader: trade replication engine

    A shallow embedding of the replication core of the repository
    (src/utils/helpers.ts, src/config/types.ts, src/config/storage.ts,
    src/mexc/client.ts, src/mexc/copyTrader.ts,
    src/telegram/handlers/signals.ts), of the inline keyboards
    (src/telegram/keyboards.ts) and of the callback triggers of src/bot.ts,
    with the properties the specification states about them and further
    properties of the code.

    Conventions of the embedding.
    - A JavaScript [number] is an exact rational ([Q]); rounding of binary64
      arithmetic, [NaN] and the infinities are outside the model, but for
      the volume of an order: its quotient has a divisor that can be zero,
      so a volume is a [Js.Num], a rational, an infinity or [NaN], and the
      division is JavaScript's ([Js.div]).  Zero is the positive zero.
      Where the source tests a number for truthiness ([x || d]) the value [0]
      is falsy.  An absent or non numeric value is [None].
    - A JavaScript string is a [string] of 8-bit characters; case mapping and
      the classes [\s], [\d], [A-Z0-9] are those of ASCII.
    - [Math.random()] reads the next element of a list of draws carried by the
      world; an exhausted list yields [0].
    - The exchange SDK ([mexc-futures-sdk]) is an oracle: its answer may
      depend on the number of requests issued so far, on the account and on
      the request, and it may throw.
    - [setTimeout] is an event that carries the callback, as data, and its
      delay; what the callback does when the timer fires is a function of its
      own.
    - [log] and [logError] are events that carry the logged values, not the
      wording; so are the chat messages of the signal handler.
    - [Date.now()] and the latency fields computed from it are left out, and
      so are the parts of the files that the properties do not touch
      ([getBalance], [getOpenOrders], [cancelOrder], [checkProxyIp],
      [handleAlignSignal], the chat handlers of the menus). *)

From Stdlib Require Import QArith Qround Qminmax ZArith Lia Lqa List Ascii String Bool.
From stdpp Require Import base option gmap strings.
Import ListNotations.

#[local] Open Scope Q_scope.
#[local] Open Scope string_scope.
#[local] Open Scope list_scope.

(** ** JavaScript numbers *)

Module Js.

(** [x || d] on a possibly absent number. *)
Definition or_else (x : option Q) (d : Q) : Q :=
  match x with
  | Some v => if Qeq_bool v 0 then d else v
  | None => d
  end.

(** [Math.floor], as a number again. *)
Definition floor (x : Q) : Q := inject_Z (Qfloor x).

(** [Math.round]: the nearest integer, ties towards plus infinity. *)
Definition round (x : Q) : Q := inject_Z (Qfloor (x + (1 # 2))).

Definition max (a b : Q) : Q := Qmax a b.
Definition min (a b : Q) : Q := Qmin a b.

(** [a < b] as a test. *)
Definition ltb (a b : Q) : bool := negb (Qle_bool b a).

(** [10^k]. *)
Definition pow10 (k : nat) : Q := inject_Z (10 ^ Z.of_nat k).

(** A number that need not be finite: the result of a division. *)
Inductive Num :=
| Finite (x : Q)
| PlusInfinity
| MinusInfinity
| NaN.

(** [x / y]: by zero a positive number gives [Infinity], a negative one
    [-Infinity], and zero gives [NaN]. *)
Definition div (x y : Q) : Num :=
  if Qeq_bool y 0 then
    if Qeq_bool x 0 then NaN
    else if Qle_bool 0 x then PlusInfinity else MinusInfinity
  else Finite (x / y).

(** [Math.floor] of such a number. *)
Definition floor_num (n : Num) : Num :=
  match n with
  | Finite x => Finite (floor x)
  | _ => n
  end.

(** [Math.max(a, n)]: [NaN] when [n] is. *)
Definition max_num (a : Q) (n : Num) : Num :=
  match n with
  | Finite x => Finite (max a x)
  | PlusInfinity => PlusInfinity
  | MinusInfinity => Finite a
  | NaN => NaN
  end.

(** [n < b] as a test: false when [n] is [NaN]. *)
Definition num_ltb (n : Num) (b : Q) : bool :=
  match n with
  | Finite x => ltb x b
  | MinusInfinity => true
  | PlusInfinity | NaN => false
  end.

(** [x.toFixed(k)] read back with [parseFloat]: rounding to [k] decimals,
    ties away from zero. *)
Definition to_fixed (x : Q) (k : nat) : Q :=
  if Qle_bool 0 x
  then inject_Z (Qfloor (x * pow10 k + (1 # 2))) / pow10 k
  else - (inject_Z (Qfloor ((- x) * pow10 k + (1 # 2))) / pow10 k).

End Js.

(** ** src/config/types.ts: the side of a position *)

Inductive Side := long | short.

Definition Side_eqb (a b : Side) : bool :=
  match a, b with
  | long, long | short, short => true
  | _, _ => false
  end.

Definition opposite (s : Side) : Side :=
  match s with long => short | short => long end.

(** ** src/utils/helpers.ts *)

(** [randomDelay(minMs, maxMs)], with [r] the value of [Math.random()]. *)
Definition randomDelay (r minMs maxMs : Q) : Q :=
  Js.floor (r * (maxMs - minMs + 1)) + minMs.

(** [applyPriceDeviation(basePrice, maxDeviationPercent, direction)]. *)
Definition applyPriceDeviation (r basePrice maxDeviationPercent : Q)
    (direction : Side) : Q :=
  let deviation := r * maxDeviationPercent in
  match direction with
  | long => basePrice * (1 + deviation / 100)
  | short => basePrice * (1 - deviation / 100)
  end.

(** [randomLeverage(min, max)]. *)
Definition randomLeverage (r min max : Q) : Q :=
  Js.floor (r * (max - min + 1)) + min.

(** A draw of [Math.random()]. *)
Definition unit_draw (r : Q) : Prop := 0 <= r /\ r < 1.

(** [roundToStep(value, step)].

    [decimals] is read off [step.toString()].  A number of at least [1e-6] is
    printed in positional notation, so the count is the number of decimal
    places of the step (zero when it is an integer, ten at most); a step
    without a finite expansion within seventeen places prints sixteen or
    seventeen digits, which the source caps at ten.  A smaller step is
    printed in exponent notation ([1e-7]): the text after the dot, when there
    is one, also holds the exponent. *)
Fixpoint decimal_places_from (fuel k : nat) (x : Q) : option nat :=
  if Qeq_bool (Js.floor (x * Js.pow10 k)) (x * Js.pow10 k) then Some k
  else match fuel with
       | O => None
       | S fuel' => decimal_places_from fuel' (S k) x
       end.

Definition decimal_places (x : Q) : option nat := decimal_places_from 17 0 x.

(** The exponent [n] of the scientific notation [m e-n], [1 <= m < 10], of a
    positive number below one. *)
Fixpoint sci_exponent_from (fuel n : nat) (x : Q) : nat :=
  if Qle_bool 1 (x * Js.pow10 n) then n
  else match fuel with
       | O => n
       | S fuel' => sci_exponent_from fuel' (S n) x
       end.

Definition nat_digits (n : nat) : nat :=
  if Nat.ltb n 10 then 1%nat else if Nat.ltb n 100 then 2%nat else 3%nat.

Definition step_decimals (step : Q) : nat :=
  if Qle_bool (1 # 1000000) step then
    match decimal_places step with
    | Some k => Nat.min 10 k
    | None => 10%nat
    end
  else
    let n := sci_exponent_from 400 0 step in
    match decimal_places (step * Js.pow10 n) with
    | Some O => 0%nat
    | Some j => Nat.min 10 (j + 2 + nat_digits n)
    | None => 10%nat
    end.

Definition roundToStep (value step : Q) : Q :=
  if Qle_bool step 0 then value
  else
    let decimals := step_decimals step in
    let rounded := Js.round (value / step) * step in
    Js.to_fixed rounded decimals.

(** ** Text: the fragments of ECMAScript regular expressions and of the
    string methods that the parsers use *)

Module Text.

#[local] Open Scope char_scope.

Definition code (c : ascii) : nat := nat_of_ascii c.

Definition is_digit (c : ascii) : bool :=
  Nat.leb 48 (code c) && Nat.leb (code c) 57.

Definition is_upper (c : ascii) : bool :=
  Nat.leb 65 (code c) && Nat.leb (code c) 90.

Definition is_lower (c : ascii) : bool :=
  Nat.leb 97 (code c) && Nat.leb (code c) 122.

(** [[A-Z0-9]] under the flag [i]. *)
Definition is_alnum (c : ascii) : bool :=
  is_upper c || is_lower c || is_digit c.

(** [\s], restricted to ASCII: tab, line feed, vertical tab, form feed,
    carriage return and space. *)
Definition is_space (c : ascii) : bool :=
  (Nat.leb 9 (code c) && Nat.leb (code c) 13) || Nat.eqb (code c) 32.

(** [[\d.]]. *)
Definition is_digit_or_dot (c : ascii) : bool :=
  is_digit c || Nat.eqb (code c) 46.

Definition upper_char (c : ascii) : ascii :=
  if is_lower c then ascii_of_nat (code c - 32) else c.

Definition lower_char (c : ascii) : ascii :=
  if is_upper c then ascii_of_nat (code c + 32) else c.

Definition eqb_ci (a b : ascii) : bool :=
  Ascii.eqb (upper_char a) (upper_char b).

#[local] Open Scope string_scope.

Fixpoint toUpperCase (s : string) : string :=
  match s with
  | EmptyString => EmptyString
  | String c s' => String (upper_char c) (toUpperCase s')
  end.

Fixpoint toLowerCase (s : string) : string :=
  match s with
  | EmptyString => EmptyString
  | String c s' => String (lower_char c) (toLowerCase s')
  end.

(** The rest of [s] after the literal [pat], compared exactly or without
    regard to case. *)
Fixpoint strip (ci : bool) (pat s : string) : option string :=
  match pat, s with
  | EmptyString, _ => Some s
  | String p pat', String c s' =>
      if (if ci then eqb_ci p c else Ascii.eqb p c)
      then strip ci pat' s' else None
  | String _ _, EmptyString => None
  end.

(** The longest prefix of [s] in the class [cls], and the rest: a greedy
    [cls*]. *)
Fixpoint span (cls : ascii -> bool) (s : string) : string * string :=
  match s with
  | EmptyString => (EmptyString, EmptyString)
  | String c s' =>
      if cls c
      then let '(run, rest) := span cls s' in (String c run, rest)
      else (EmptyString, s)
  end.

(** A greedy [cls+]. *)
Definition span1 (cls : ascii -> bool) (s : string) : option (string * string) :=
  match span cls s with
  | (EmptyString, _) => None
  | (run, rest) => Some (run, rest)
  end.

(** [text.match(re)] without the flag [g]: the match that starts leftmost,
    [at_start] being the regular expression anchored at the start. *)
Fixpoint search {A} (at_start : string -> option A) (s : string) : option A :=
  match at_start s with
  | Some a => Some a
  | None =>
      match s with
      | EmptyString => None
      | String _ s' => search at_start s'
      end
  end.

(** [hay.includes(needle)]. *)
Definition includes (hay needle : string) : bool :=
  match search (strip false needle) hay with
  | Some _ => true
  | None => false
  end.

(** The value of a string of decimal digits. *)
Fixpoint digits_value (acc : Z) (s : string) : Z :=
  match s with
  | EmptyString => acc
  | String c s' => digits_value (10 * acc + Z.of_nat (code c - 48)) s'
  end.

(** [parseFloat] on a text made of digits and dots, the only texts the
    parsers pass to it: the longest prefix [digits], [digits.digits],
    [digits.] or [.digits] is read, and a text with no such prefix is not a
    number ([NaN], here [None]). *)
Definition parseFloat (s : string) : option Q :=
  let '(ip, rest) := span is_digit s in
  let fp :=
    match rest with
    | String "."%char rest' => fst (span is_digit rest')
    | _ => EmptyString
    end in
  match ip, fp with
  | EmptyString, EmptyString => None
  | _, _ =>
      Some (inject_Z (digits_value 0 ip)
            + inject_Z (digits_value 0 fp) / Js.pow10 (String.length fp))
  end.

(** [s.trimStart()], [s.trimEnd()] and [s.trim()], for the white space of
    ASCII. *)
Fixpoint trimStart (s : string) : string :=
  match s with
  | EmptyString => EmptyString
  | String c rest => if is_space c then trimStart rest else s
  end.

Fixpoint trimEnd (s : string) : string :=
  match s with
  | EmptyString => EmptyString
  | String c rest =>
      match trimEnd rest with
      | EmptyString => if is_space c then EmptyString else String c EmptyString
      | kept => String c kept
      end
  end.

Definition trim (s : string) : string := trimEnd (trimStart s).

(** [s.split(sep)] for a separator of one character. *)
Fixpoint split (sep : ascii) (s : string) : list string :=
  match s with
  | EmptyString => [EmptyString]
  | String c rest =>
      if Ascii.eqb c sep then EmptyString :: split sep rest
      else match split sep rest with
           | piece :: pieces => String c piece :: pieces
           | [] => [String c EmptyString]
           end
  end.

(** [parts.join(sep)]. *)
Definition join (sep : string) (parts : list string) : string :=
  String.concat sep parts.

(** A natural number in a template literal: its decimal digits. *)
Fixpoint decimal_from (fuel n : nat) (acc : string) : string :=
  match fuel with
  | O => acc
  | S fuel' =>
      let acc' := String (ascii_of_nat (48 + n mod 10)) acc in
      if Nat.ltb n 10 then acc' else decimal_from fuel' (n / 10) acc'
  end.

Definition decimal (n : nat) : string := decimal_from (S n) n EmptyString.

End Text.

(** [/Price\s*MEXC\s*\$?\s*([0-9]*\.?[0-9]+)/i] anchored at the start; the
    result is the captured group.  After the greedy digits the dot is taken
    only when a digit follows it; otherwise the match gives the digits back. *)
Definition mexc_number_at (s : string) : option string :=
  match Text.strip true "Price" s with
  | None => None
  | Some s1 =>
    let s2 := snd (Text.span Text.is_space s1) in
    match Text.strip true "MEXC" s2 with
    | None => None
    | Some s3 =>
      let s4 := snd (Text.span Text.is_space s3) in
      let s5 := match s4 with String "$"%char r => r | _ => s4 end in
      let s6 := snd (Text.span Text.is_space s5) in
      let '(ip, rest) := Text.span Text.is_digit s6 in
      match rest with
      | String "."%char rest' =>
          match Text.span1 Text.is_digit rest' with
          | Some (fp, _) => Some (ip +:+ "." +:+ fp)
          | None => match ip with EmptyString => None | _ => Some ip end
          end
      | _ => match ip with EmptyString => None | _ => Some ip end
      end
    end
  end.

(** [numStr.indexOf('.')] as the text after the first dot. *)
Fixpoint after_dot (s : string) : option string :=
  match s with
  | EmptyString => None
  | String "."%char s' => Some s'
  | String _ s' => after_dot s'
  end.

(** [priceStepFromText(text, fallback = 0.00001)]. *)
Definition priceStepFromText (text : string) : Q :=
  let fallback := 1 # 100000 in
  match Text.search mexc_number_at text with
  | None => fallback
  | Some numStr =>
      match after_dot numStr with
      | None => 1
      | Some frac =>
          let decimals := String.length frac in
          if Nat.leb decimals 0 || Nat.ltb 10 decimals then fallback
          else 1 / Js.pow10 decimals
      end
  end.

(** ** src/utils/helpers.ts: codes, texts and sizes *)

(** What an order does to a position: ['open'] or ['close']. *)
Inductive Action := act_open | act_close.

(** [sideToMexcCode(side, action)]; the codes are whole numbers, as in the
    parameters of an order. *)
Definition sideToMexcCode (sd : Side) (action : Action) : Z :=
  match sd with
  | long => match action with act_open => 1%Z | act_close => 4%Z end
  | short => match action with act_open => 3%Z | act_close => 2%Z end
  end.

(** [mexcCodeToSide(code)]. *)
Definition mexcCodeToSide (code : Z) : Side * Action :=
  if Z.eqb code 1 then (long, act_open)
  else if Z.eqb code 2 then (short, act_close)
  else if Z.eqb code 3 then (short, act_open)
  else if Z.eqb code 4 then (long, act_close)
  else (long, act_open).

(** [ToIntegerOrInfinity] of a number: its integer part. *)
Definition to_integer (x : Q) : Z := Z.quot (Qnum x) (Z.pos (Qden x)).

(** [str.slice(0, end)]: a negative [end] counts from the end of the
    text. *)
Definition slice_to (str : string) (e : Q) : string :=
  let len := Z.of_nat (String.length str) in
  let stop := if Z.ltb (to_integer e) 0
              then Z.max (len + to_integer e) 0
              else Z.min (to_integer e) len in
  String.substring 0 (Z.to_nat stop) str.

(** [truncate(str, maxLength)]. *)
Definition truncate (str : string) (maxLength : Q) : string :=
  if Qle_bool (inject_Z (Z.of_nat (String.length str))) maxLength then str
  else slice_to str (maxLength - 3) +:+ "...".

(** The backslash. *)
Definition backslash : ascii := ascii_of_nat 92.

(** The class [[_*[\]()~`>#+\-=|{}.!\\]] of [escapeMarkdown]. *)
Definition is_markdown_special (c : ascii) : bool :=
  existsb (Ascii.eqb c)
    (backslash :: list_ascii_of_string "_*[]()~`>#+-=|{}.!").

(** [escapeMarkdown(text)]: every character of the class is replaced by a
    backslash and itself. *)
Fixpoint escapeMarkdown (text : string) : string :=
  match text with
  | EmptyString => EmptyString
  | String c rest =>
      if is_markdown_special c
      then String backslash (String c (escapeMarkdown rest))
      else String c (escapeMarkdown rest)
  end.

(** [calculatePositionSize(marginUsd, leverage, price, contractSize = 1)]:
    the pair of [positionUsd] and [contracts]; an absent [contractSize]
    takes the default. *)
Definition calculatePositionSize (marginUsd leverage price : Q)
    (contractSize : option Q) : Q * Q :=
  let contractSize := default 1 contractSize in
  let positionUsd := marginUsd * leverage in
  let contracts := Js.floor (positionUsd / (price * contractSize)) in
  (positionUsd, contracts).

(** [calculateMargin(positionUsd, leverage)]. *)
Definition calculateMargin (positionUsd leverage : Q) : Q :=
  positionUsd / leverage.

(** ** src/telegram/handlers/signals.ts: the parser *)

Record ParsedSignal := {
  sig_symbol : string;
  sig_fullSymbol : string;
  sig_entryPrice : Q;
  sig_takeProfit : Q;
  sig_side : Side
}.

(** [/#([A-Z0-9]+)_USDT/i] anchored at the start. *)
Definition ticker_at (s : string) : option string :=
  match s with
  | String "#"%char s1 =>
      match Text.span1 Text.is_alnum s1 with
      | Some (sym, s2) =>
          match Text.strip true "_USDT" s2 with
          | Some _ => Some sym
          | None => None
          end
      | None => None
      end
  | _ => None
  end.

(** [/Price\s+LABEL\s+\$([\d.]+)/i] anchored at the start. *)
Definition labelled_price_at (label : string) (s : string) : option string :=
  match Text.strip true "Price" s with
  | None => None
  | Some s1 =>
    match Text.span1 Text.is_space s1 with
    | None => None
    | Some (_, s2) =>
      match Text.strip true label s2 with
      | None => None
      | Some s3 =>
        match Text.span1 Text.is_space s3 with
        | None => None
        | Some (_, s4) =>
          match s4 with
          | String "$"%char s5 =>
              match Text.span1 Text.is_digit_or_dot s5 with
              | Some (num, _) => Some num
              | None => None
              end
          | _ => None
          end
        end
      end
    end
  end.

Definition parseTradeSignal (text : string) : option ParsedSignal :=
  match Text.search ticker_at text with
  | None => None
  | Some symbolMatch =>
    let symbol := Text.toUpperCase symbolMatch in
    match Text.search (labelled_price_at "DEX") text,
          Text.search (labelled_price_at "MEXC") text with
    | Some dexPriceMatch, Some mexcPriceMatch =>
        match Text.parseFloat dexPriceMatch, Text.parseFloat mexcPriceMatch with
        | Some priceDex, Some priceMexc =>
            let upperText := Text.toUpperCase text in
            let side :=
              if Text.includes upperText "DOUBLE LONG"
                 || Text.includes upperText "LONG" then long
              else if Text.includes upperText "DOUBLE SHORT"
                      || Text.includes upperText "SHORT" then short
              else short in
            Some {| sig_symbol := symbol;
                    sig_fullSymbol := symbol +:+ "_USDT";
                    sig_entryPrice := priceMexc;
                    sig_takeProfit := priceDex;
                    sig_side := side |}
        | _, _ => None
        end
    | _, _ => None
    end
  end.

(** ** src/telegram/handlers/signals.ts: the align parser *)

Record AlignSignal := {
  al_symbol : string;
  al_fullSymbol : string;
  al_mexcPrice : Q
}.

(** [/✅\s*#([A-Z0-9]+)/i] anchored at the start. *)
Definition align_ticker_at (s : string) : option string :=
  match Text.strip true "✅" s with
  | None => None
  | Some s1 =>
      match snd (Text.span Text.is_space s1) with
      | String "#"%char s2 =>
          match Text.span1 Text.is_alnum s2 with
          | Some (sym, _) => Some sym
          | None => None
          end
      | _ => None
      end
  end.

(** [parseAlignSignal(text)]. *)
Definition parseAlignSignal (text : string) : option AlignSignal :=
  match Text.search align_ticker_at text with
  | None => None
  | Some symbolMatch =>
      if negb (Text.includes (Text.toLowerCase text) "aligned") then None
      else
        let symbol := Text.toUpperCase symbolMatch in
        let fullSymbol := symbol +:+ "_USDT" in
        match Text.search mexc_number_at text with
        | None => None
        | Some priceMatch =>
            match Text.parseFloat priceMatch with
            | None => None
            | Some mexcPrice =>
                if Qle_bool mexcPrice 0 then None
                else Some {| al_symbol := symbol;
                             al_fullSymbol := fullSymbol;
                             al_mexcPrice := mexcPrice |}
            end
        end
  end.

(** ** src/config/types.ts: records *)

Record AccountConfig := {
  id : string;
  name : string;
  authToken : string;
  proxyUrl : option string;
  enabled : bool;
  isMaster : bool;
  maxPositionUsd : Q;
  leverageMin : Q;
  leverageMax : Q;
  lastBalance : option Q;
  lastUpdated : option string
}.

Record CopyTradingSettings := {
  delayMinMs : Q;
  delayMaxMs : Q;
  priceDeviationPercent : Q;
  leverageSpread : Q;
  copyOpenPositions : bool;
  copyClosePositions : bool;
  copyTpSl : bool;
  signalsEnabled : bool;
  signalEntryOffset : Q;
  signalTpOffset : Q;
  signalCancelTimeMin : Q;
  signalCancelTimeMax : Q
}.

Record BotConfig := {
  accounts : list AccountConfig;
  settings : CopyTradingSettings;
  contractLimits : gmap string Q
}.

Record Position := {
  symbol : string;
  side : Side;
  volume : Q;
  entryPrice : Q;
  leverage : Q;
  margin : Q;
  unrealizedPnl : Q;
  liquidationPrice : option Q
}.

Record TradeResult := {
  accountId : string;
  accountName : string;
  success : bool;
  message : string;
  orderId : option string;
  executedPrice : option Q;
  executedVolume : option Js.Num;
  resLeverage : option Q
}.

Record ContractInfo := {
  ci_symbol : string;
  contractSize : Q;
  maxVolume : Q;
  priceStep : Q;
  volumeStep : Q;
  minVolume : Q
}.

(** A failed result that carries only a message. *)
Definition failed (a : AccountConfig) (msg : string) : TradeResult :=
  {| accountId := id a; accountName := name a; success := false;
     message := msg; orderId := None; executedPrice := None;
     executedVolume := None; resLeverage := None |}.

(** ** src/config/storage.ts

    The roster operations of [ConfigStorage], as functions of the
    configuration held in memory.  [save()] writes the file and does not
    change the configuration. *)

Module ConfigStorage.

Definition set_accounts (l : list AccountConfig) (c : BotConfig) : BotConfig :=
  {| accounts := l; settings := settings c;
     contractLimits := contractLimits c |}.

Definition set_isMaster (b : bool) (a : AccountConfig) : AccountConfig :=
  {| id := id a; name := name a; authToken := authToken a;
     proxyUrl := proxyUrl a; enabled := enabled a; isMaster := b;
     maxPositionUsd := maxPositionUsd a; leverageMin := leverageMin a;
     leverageMax := leverageMax a; lastBalance := lastBalance a;
     lastUpdated := lastUpdated a |}.

Definition set_enabled (b : bool) (a : AccountConfig) : AccountConfig :=
  {| id := id a; name := name a; authToken := authToken a;
     proxyUrl := proxyUrl a; enabled := b; isMaster := isMaster a;
     maxPositionUsd := maxPositionUsd a; leverageMin := leverageMin a;
     leverageMax := leverageMax a; lastBalance := lastBalance a;
     lastUpdated := lastUpdated a |}.

Definition set_id (i : string) (a : AccountConfig) : AccountConfig :=
  {| id := i; name := name a; authToken := authToken a;
     proxyUrl := proxyUrl a; enabled := enabled a; isMaster := isMaster a;
     maxPositionUsd := maxPositionUsd a; leverageMin := leverageMin a;
     leverageMax := leverageMax a; lastBalance := lastBalance a;
     lastUpdated := lastUpdated a |}.

Definition getAccounts (c : BotConfig) : list AccountConfig := accounts c.

Definition getEnabledAccounts (c : BotConfig) : list AccountConfig :=
  List.filter enabled (accounts c).

Definition getMasterAccount (c : BotConfig) : option AccountConfig :=
  List.find (fun a => isMaster a && enabled a) (accounts c).

Definition getSlaveAccounts (c : BotConfig) : list AccountConfig :=
  List.filter (fun a => negb (isMaster a) && enabled a) (accounts c).

Definition getAccountById (i : string) (c : BotConfig) : option AccountConfig :=
  List.find (fun a => String.eqb (id a) i) (accounts c).

(** [accounts.findIndex(a => a.id === id)]; [None] stands for [-1]. *)
Fixpoint findIndex (i : string) (l : list AccountConfig) : option nat :=
  match l with
  | [] => None
  | a :: l' =>
      if String.eqb (id a) i then Some O
      else match findIndex i l' with
           | Some k => Some (S k)
           | None => None
           end
  end.

(** [addAccount(account)]: [uuid] is the identifier drawn by [uuidv4()],
    [account] the argument, whose own [id] field is not read. *)
Definition addAccount (uuid : string) (account : AccountConfig)
    (c : BotConfig) : BotConfig * AccountConfig :=
  let newAccount := set_id uuid account in
  let newAccount :=
    if Nat.eqb (List.length (accounts c)) 0
    then set_isMaster true newAccount else newAccount in
  (set_accounts (accounts c ++ [newAccount]) c, newAccount).

(** [Partial<AccountConfig>]: a field is [Some] when the key is present. *)
Record AccountUpdates := {
  u_id : option string;
  u_name : option string;
  u_authToken : option string;
  u_proxyUrl : option (option string);
  u_enabled : option bool;
  u_isMaster : option bool;
  u_maxPositionUsd : option Q;
  u_leverageMin : option Q;
  u_leverageMax : option Q;
  u_lastBalance : option (option Q);
  u_lastUpdated : option (option string)
}.

(** [{...a, ...updates}]. *)
Definition merge (a : AccountConfig) (u : AccountUpdates) : AccountConfig :=
  {| id := default (id a) (u_id u);
     name := default (name a) (u_name u);
     authToken := default (authToken a) (u_authToken u);
     proxyUrl := default (proxyUrl a) (u_proxyUrl u);
     enabled := default (enabled a) (u_enabled u);
     isMaster := default (isMaster a) (u_isMaster u);
     maxPositionUsd := default (maxPositionUsd a) (u_maxPositionUsd u);
     leverageMin := default (leverageMin a) (u_leverageMin u);
     leverageMax := default (leverageMax a) (u_leverageMax u);
     lastBalance := default (lastBalance a) (u_lastBalance u);
     lastUpdated := default (lastUpdated a) (u_lastUpdated u) |}.

(** [updateAccount(id, updates)]; [None] stands for [null]. *)
Definition updateAccount (i : string) (updates : AccountUpdates)
    (c : BotConfig) : BotConfig * option AccountConfig :=
  match findIndex i (accounts c) with
  | None => (c, None)
  | Some index =>
      let l1 :=
        match u_isMaster updates with
        | Some true =>
            List.map (fun a => if negb (String.eqb (id a) i)
                               then set_isMaster false a else a)
                     (accounts c)
        | _ => accounts c
        end in
      match l1 !! index with
      | None => (c, None)
      | Some a =>
          let a' := merge a updates in
          (set_accounts (<[index := a']> l1) c, Some a')
      end
  end.

(** [accounts.splice(index, 1)]. *)
Definition splice1 (index : nat) (l : list AccountConfig) : list AccountConfig :=
  List.firstn index l ++ List.skipn (S index) l.

(** [deleteAccount(id)]. *)
Definition deleteAccount (i : string) (c : BotConfig) : BotConfig * bool :=
  match findIndex i (accounts c) with
  | None => (c, false)
  | Some index =>
      let wasMaster :=
        match accounts c !! index with
        | Some a => isMaster a
        | None => false
        end in
      let l1 := splice1 index (accounts c) in
      let l2 :=
        if wasMaster && Nat.ltb 0 (List.length l1)
        then match l1 with
             | a0 :: rest => set_isMaster true a0 :: rest
             | [] => l1
             end
        else l1 in
      (set_accounts l2 c, true)
  end.

(** [setMasterAccount(id)]. *)
Definition setMasterAccount (i : string) (c : BotConfig) : BotConfig * bool :=
  match getAccountById i c with
  | None => (c, false)
  | Some _ =>
      (set_accounts
         (List.map (fun a => set_isMaster (String.eqb (id a) i) a) (accounts c)) c,
       true)
  end.

(** [toggleAccount(id, enabled)]: the first account with that id is
    changed in place. *)
Definition toggleAccount (i : string) (b : bool) (c : BotConfig) : BotConfig * bool :=
  match findIndex i (accounts c) with
  | None => (c, false)
  | Some index =>
      (set_accounts (alter (set_enabled b) index (accounts c)) c, true)
  end.

(** The number of accounts that carry the master flag. *)
Definition masters (l : list AccountConfig) : nat :=
  List.length (List.filter isMaster l).

(** The roster invariant of the specification. *)
Definition single_master (l : list AccountConfig) : Prop :=
  (masters l <= 1)%nat.

(** The argument that [handleLeverageMax] (telegram/handlers/accounts.ts)
    passes to [addAccount]: the master flag is
    [configStorage.getAccounts().length === 1]. *)
Definition handler_new_account (nm token : string) (proxy : option string)
    (maxPos levMin levMax : Q) (c : BotConfig) : AccountConfig :=
  {| id := ""; name := nm; authToken := token; proxyUrl := proxy;
     enabled := true;
     isMaster := Nat.eqb (List.length (getAccounts c)) 1;
     maxPositionUsd := maxPos; leverageMin := levMin; leverageMax := levMax;
     lastBalance := None; lastUpdated := None |}.

(** [getContractLimit(symbol)], [setContractLimit(symbol, limit)] and
    [getContractLimits()]. *)
Definition getContractLimit (sym : string) (c : BotConfig) : option Q :=
  contractLimits c !! sym.

Definition setContractLimit (sym : string) (limit : Q) (c : BotConfig) : BotConfig :=
  {| accounts := accounts c; settings := settings c;
     contractLimits := <[sym := limit]> (contractLimits c) |}.

Definition getContractLimits (c : BotConfig) : gmap string Q := contractLimits c.

(** One entry of [MEXC_TOKENS] in [importFromEnvFormat]: the configuration
    after the entry, or [None] when the entry is passed over.  [parseFloat]
    is JavaScript's, [None] standing for [NaN]; [uuid] is the identifier
    that [addAccount] draws. *)
Definition import_part (parseFloat : string -> option Q) (uuid : string)
    (part : string) (c : BotConfig) : option BotConfig :=
  let fields := List.map Text.trim (Text.split ":" part) in
  if Nat.ltb (List.length fields) 7 then None
  else
    let seven := Nat.eqb (List.length fields) 7 in
    let authToken := List.nth 0 fields "" in
    let maxCapStr := if seven then None else List.nth_error fields 5 in
    let proxyParts := if seven then [] else List.skipn 8 fields in
    let proxyUrl :=
      match proxyParts with
      | [] => None
      | _ => Some (Text.trim (Text.join ":" proxyParts))
      end in
    let maxPositionUsd :=
      match maxCapStr with
      | Some text => if String.eqb text "" then Some 100 else parseFloat text
      | None => Some 100
      end in
    Some (fst (addAccount uuid
                 {| id := "";
                    name := "Аккаунт " +:+ Text.decimal (List.length (accounts c) + 1);
                    authToken := authToken;
                    proxyUrl := match proxyUrl with
                                | Some url => if String.eqb url "" then None else Some url
                                | None => None
                                end;
                    enabled := true;
                    isMaster := Nat.eqb (List.length (accounts c)) 0;
                    maxPositionUsd := default 100 maxPositionUsd;
                    leverageMin := 10; leverageMax := 20;
                    lastBalance := None; lastUpdated := None |} c)).

(** The loop of [importFromEnvFormat]: [imported] counts the accounts added
    so far, and the identifier of the next one is [uuids imported]. *)
Fixpoint import_parts (parseFloat : string -> option Q) (uuids : nat -> string)
    (parts : list string) (imported : nat) (c : BotConfig) : BotConfig * nat :=
  match parts with
  | [] => (c, imported)
  | part :: rest =>
      match import_part parseFloat (uuids imported) part c with
      | Some c' => import_parts parseFloat uuids rest (S imported) c'
      | None => import_parts parseFloat uuids rest imported c
      end
  end.

(** [importFromEnvFormat(mexcTokensRaw)]. *)
Definition importFromEnvFormat (parseFloat : string -> option Q)
    (uuids : nat -> string) (mexcTokensRaw : string) (c : BotConfig)
    : BotConfig * nat :=
  let parts :=
    List.filter (fun part => negb (String.eqb part ""))
      (List.map Text.trim (Text.split "," mexcTokensRaw)) in
  import_parts parseFloat uuids parts 0 c.

End ConfigStorage.

(** ** The exchange SDK

    [MexcFuturesClient] is not part of the repository.  Its answers are the
    fields that client.ts reads from them; a numeric field that is absent or
    does not parse is [None]. *)

Record RawPosition := {
  raw_symbol : string;
  positionType : Z;
  holdVol : option Q;
  openAvgPrice : option Q;
  avgPrice : option Q;
  raw_leverage : option Q;
  im : option Q;
  unrealisedPnl : option Q;
  liquidatePrice : option Q
}.

Record SubmitParams := {
  o_symbol : string;
  o_price : Q;
  o_vol : Js.Num;
  o_side : Z;
  o_type : Z;
  o_openType : Z;
  o_leverage : Q;
  o_takeProfitPrice : option Q;
  o_stopLossPrice : option Q
}.

Record RawOrderReply := {
  r_success : option bool;
  r_message : option string;
  r_data_orderId : option string;
  r_orderId : option string
}.

Record RawContract := {
  rc_contractSize : option Q;
  rc_priceUnit : option Q;
  rc_volUnit : option Q;
  rc_minVol : option Q;
  (** [maxVolume], [maxVol], [maxOrderVolume], [maxOpenVol], [maxOpenVolume] *)
  rc_maxCandidates : list (option Q)
}.

Inductive RawTicker :=
| TickerObject (lastPrice : option Q)
| TickerArray (l : list (string * option Q)).

Record TpSlParams := {
  t_symbol : string;
  t_takeProfitPrice : option Q;
  t_stopLossPrice : option Q
}.

Inductive SdkRequest :=
| GetOpenPositions (sym : option string)
| SubmitOrder (p : SubmitParams)
| CancelAllOrders (sym : string)
| GetContractDetail (sym : string)
| GetTicker (sym : string)
| ChangePositionTpSl (p : TpSlParams).

(** What a request comes back with: a value, or an exception whose text is
    the one client.ts derives from it ([getUserFriendlyMessage()] or
    [String(err?.message || err)]). *)
Inductive Reply (A : Type) :=
| Answer (a : A)
| Raise (msg : string).
Arguments Answer {A} a.
Arguments Raise {A} msg.

(** The first argument counts the requests issued before this one, the second
    is the account whose client issues it. *)
Record Exchange := {
  sdk_getOpenPositions : nat -> string -> option string -> Reply (option (list RawPosition));
  sdk_submitOrder : nat -> string -> SubmitParams -> Reply (option RawOrderReply);
  sdk_cancelAllOrders : nat -> string -> string -> Reply unit;
  sdk_getContractDetail : nat -> string -> string -> Reply (option RawContract);
  sdk_getTicker : nat -> string -> string -> Reply (option RawTicker);
  sdk_changePositionTpSl : nat -> string -> TpSlParams -> Reply (option RawOrderReply)
}.

(** ** Effects *)

(** The lines written by [log] and [logError], with the values they
    interpolate. *)
Inductive LogLine :=
| PositionsError (err : string)
| ContractInfoError (sym err : string)
| OrdersCancelled (sym : string)
| OrdersCancelError (sym err : string)
| OrderPlaced (oid : option string)
| RateLimitRetry (backoff : Q)
| OrderError (err : string)
| TpSlSet (sym : string)
| TpSlError (err : string)
| PriceError (sym err : string)
| NewPositionDetected (sym : string) (s : Side)
| PositionClosedDetected (sym : string) (s : Side)
| MasterCheckError (err : string)
| CopyingOpen (sym : string) (n : nat)
| VolumeTooSmall
| PositionOpened (sym : string) (s : Side) (vol : Js.Num) (lev : Q)
| OpenFailed (err : option string)
| CopyOpenError (err : string)
| CopyingClose (sym : string) (n : nat)
| PositionNotFound (sym : string)
| PositionClosed (sym : string)
| CloseFailed (err : option string)
| CopyCloseError (err : string)
| ManualOpen (sym : string) (s : Side) (n : nat)
| ManualClose (sym : string) (n : nat)
| SettingTpSl (sym : string) (n : nat)
| SignalDetected (sym : string) (s : Side)
| TimerCancelling (sym : string)
| TimerError (err : string).

(** A [MexcClientWrapper]: the fields it copies from the account. *)
Record Client := {
  c_accountId : string;
  c_accountName : string
}.

(** The callback handed to [setTimeout] by [handleTradeSignal]: the client
    and the account name it closes over, and the signal's symbol. *)
Record CancelTimer := {
  tm_client : Client;
  tm_accountName : string;
  tm_symbol : string
}.

Inductive Event :=
| Request (account : string) (r : SdkRequest)
| Sleep (ms : Q)
| Log (prefix : string) (l : LogLine)
| LogError (prefix : string) (l : LogLine)
| SetTimeout (cb : CancelTimer) (delay : Q)
| ChatNoAccounts
| ChatSignalStart (s : ParsedSignal) (n : nat)
| ChatSignalReport (s : ParsedSignal) (results : list TradeResult).

Record World := {
  config : BotConfig;
  (** [ClientManager.clients] *)
  clients : gmap string Client;
  (** [CopyTradingEngine.lastKnownPositions] *)
  lastKnownPositions : gmap string (list Position);
  exchange : Exchange;
  (** the number of requests sent to the exchange so far *)
  requests : nat;
  (** the coming values of [Math.random()] *)
  draws : list Q
}.

Definition set_lastKnownPositions (m : gmap string (list Position)) (w : World) : World :=
  {| config := config w; clients := clients w; lastKnownPositions := m;
     exchange := exchange w; requests := requests w; draws := draws w |}.

Definition set_requests (n : nat) (w : World) : World :=
  {| config := config w; clients := clients w;
     lastKnownPositions := lastKnownPositions w;
     exchange := exchange w; requests := n; draws := draws w |}.

Definition set_draws (l : list Q) (w : World) : World :=
  {| config := config w; clients := clients w;
     lastKnownPositions := lastKnownPositions w;
     exchange := exchange w; requests := requests w; draws := l |}.

(** The outcome of a computation: a value or a thrown exception. *)
Inductive Res (A : Type) :=
| Ret (a : A)
| Throw (msg : string).
Arguments Ret {A} a.
Arguments Throw {A} msg.

(** A computation: from a world to an outcome, the world it leaves and the
    events it emitted, oldest first. *)
Definition M (A : Type) : Type := World -> Res A * World * list Event.

Definition ret {A} (a : A) : M A := fun w => (Ret a, w, []).

Definition throw {A} (msg : string) : M A := fun w => (Throw msg, w, []).

Definition bind {A B} (m : M A) (f : A -> M B) : M B :=
  fun w =>
    match m w with
    | (Ret a, w1, t1) =>
        let '(r, w2, t2) := f a w1 in (r, w2, t1 ++ t2)
    | (Throw e, w1, t1) => (Throw e, w1, t1)
    end.

(** [try { m } catch (err) { h err }]. *)
Definition try_catch {A} (m : M A) (h : string -> M A) : M A :=
  fun w =>
    match m w with
    | (Ret a, w1, t1) => (Ret a, w1, t1)
    | (Throw e, w1, t1) =>
        let '(r, w2, t2) := h e w1 in (r, w2, t1 ++ t2)
    end.

#[export] Instance M_ret : MRet M := @ret.
#[export] Instance M_bind : MBind M := fun A B f m => bind m f.

Definition emit (e : Event) : M unit := fun w => (Ret tt, w, [e]).

Definition get {A} (f : World -> A) : M A := fun w => (Ret (f w), w, []).

Definition modify (f : World -> World) : M unit := fun w => (Ret tt, f w, []).

(** [Math.random()]. *)
Definition random : M Q :=
  fun w => (Ret (hd 0 (draws w)), set_draws (tl (draws w)) w, []).

Definition sleep (ms : Q) : M unit := emit (Sleep ms).

Definition bracket (s : string) : string := "[" +:+ s +:+ "]".

Definition log (prefix : string) (l : LogLine) : M unit := emit (Log prefix l).

Definition logError (prefix : string) (l : LogLine) : M unit :=
  emit (LogError prefix l).

(** A request to the exchange on behalf of an account. *)
Definition request {A} (account : string) (r : SdkRequest)
    (answer : Exchange -> nat -> Reply A) : M A :=
  fun w =>
    let w' := set_requests (S (requests w)) w in
    match answer (exchange w) (requests w) with
    | Answer a => (Ret a, w', [Request account r])
    | Raise msg => (Throw msg, w', [Request account r])
    end.

(** The results pushed by a loop over [xs] whose body pushes [body x] and
    may throw: the loop stops at the first exception, which is returned next
    to what was pushed before it. *)
Fixpoint push_each {X R} (body : X -> M R) (xs : list X)
    : M (list R * option string) :=
  match xs with
  | [] => ret ([], None)
  | x :: xs' =>
      fun w =>
        match body x w with
        | (Ret r, w1, t1) =>
            let '(res, w2, t2) := push_each body xs' w1 in
            match res with
            | Ret (rs, exn) => (Ret (r :: rs, exn), w2, t1 ++ t2)
            | Throw e => (Ret ([r], Some e), w2, t1 ++ t2)
            end
        | (Throw e, w1, t1) => (Ret ([], Some e), w1, t1)
        end
  end.

(** [for (let i = 0; i < xs.length; i++)] with a body that pushes the
    results it returns; [i] counts from [start]. *)
Fixpoint for_each_from {X R} (start : nat) (body : nat -> X -> M (list R))
    (xs : list X) : M (list R) :=
  match xs with
  | [] => ret []
  | x :: xs' =>
      rs ← body start x;
      rest ← for_each_from (S start) body xs';
      ret (rs ++ rest)
  end.

(** Accessors of an outcome. *)
Definition result {A} (o : Res A * World * list Event) : Res A := fst (fst o).
Definition world {A} (o : Res A * World * list Event) : World := snd (fst o).
Definition events {A} (o : Res A * World * list Event) : list Event := snd o.

(** ** src/mexc/client.ts: [MexcClientWrapper] *)

Record OrderResult := {
  ok : bool;
  ord_id : option string;
  msg : option string
}.

Record OpenParams := {
  op_symbol : string;
  op_side : Side;
  op_price : Q;
  op_volume : Js.Num;
  op_leverage : Q;
  op_isMarket : bool;
  op_takeProfit : option Q;
  op_stopLoss : option Q
}.

Record CloseParams := {
  cl_symbol : string;
  cl_side : Side;
  cl_price : Q;
  cl_volume : Q;
  cl_isMarket : bool
}.

Module MexcClientWrapper.

(** [s || d] on a possibly absent string: the empty string is falsy. *)
Definition str_or (s : option string) (d : option string) : option string :=
  match s with
  | Some v => if String.eqb v "" then d else Some v
  | None => d
  end.

(** [symbol ? { symbol } : {}]. *)
Definition symbol_param (sym : option string) : option string :=
  str_or sym None.

(** [parseInt(text, 10)] of a number: its integer part. *)
Definition parseInt (x : Q) : Q := inject_Z (Z.quot (Qnum x) (Z.pos (Qden x))).

(** [parseFloat(p.holdVol) > 0]. *)
Definition holds (p : RawPosition) : bool :=
  match holdVol p with
  | Some v => Js.ltb 0 v
  | None => false
  end.

Definition truthy (x : option Q) : option Q :=
  match x with
  | Some v => if Qeq_bool v 0 then None else Some v
  | None => None
  end.

Definition to_position (p : RawPosition) : Position :=
  {| symbol := raw_symbol p;
     side := if Z.eqb (positionType p) 1 then long else short;
     volume := default 0 (holdVol p);
     entryPrice := Js.or_else (openAvgPrice p) (Js.or_else (avgPrice p) 0);
     leverage := parseInt (Js.or_else (raw_leverage p) 1);
     margin := Js.or_else (im p) 0;
     unrealizedPnl := Js.or_else (unrealisedPnl p) 0;
     liquidationPrice := truthy (liquidatePrice p) |}.

(** [getOpenPositions(symbol?)]. *)
Definition getOpenPositions (c : Client) (sym : option string) : M (list Position) :=
  try_catch
    (let params := symbol_param sym in
     res ← request (c_accountId c) (GetOpenPositions params)
             (fun ex n => sdk_getOpenPositions ex n (c_accountId c) params);
     let list := default [] res in
     ret (List.map to_position (List.filter holds list)))
    (fun err =>
       logError (bracket (c_accountName c)) (PositionsError err);;
       ret []).

(** [hasOpenPosition(symbol)]. *)
Definition hasOpenPosition (c : Client) (sym : string) : M bool :=
  positions ← getOpenPositions c (Some sym);
  ret (Nat.ltb 0 (List.length positions)).

Fixpoint first_number (l : list (option Q)) : Q :=
  match l with
  | [] => 0
  | Some v :: _ => v
  | None :: l' => first_number l'
  end.

Definition to_contract (sym : string) (detail : RawContract) : ContractInfo :=
  {| ci_symbol := sym;
     contractSize := Js.or_else (rc_contractSize detail) 1;
     maxVolume := first_number (rc_maxCandidates detail);
     priceStep := Js.or_else (rc_priceUnit detail) (1 # 100000);
     volumeStep := Js.or_else (rc_volUnit detail) 1;
     minVolume := Js.or_else (rc_minVol detail) 1 |}.

(** [getContractInfo(symbol)]. *)
Definition getContractInfo (c : Client) (sym : string) : M (option ContractInfo) :=
  try_catch
    (res ← request (c_accountId c) (GetContractDetail sym)
             (fun ex n => sdk_getContractDetail ex n (c_accountId c) sym);
     match res with
     | None => ret None
     | Some detail => ret (Some (to_contract sym detail))
     end)
    (fun err =>
       logError (bracket (c_accountName c)) (ContractInfoError sym err);;
       ret None).

(** [cancelAllOrders(symbol)]. *)
Definition cancelAllOrders (c : Client) (sym : string) : M bool :=
  try_catch
    (request (c_accountId c) (CancelAllOrders sym)
             (fun ex n => sdk_cancelAllOrders ex n (c_accountId c) sym);;
     log (bracket (c_accountName c)) (OrdersCancelled sym);;
     ret true)
    (fun err =>
       logError (bracket (c_accountName c)) (OrdersCancelError sym err);;
       ret false).

(** [msg.toLowerCase().includes('too frequent') ||
    msg.toLowerCase().includes('rate limit')]. *)
Definition isRateLimit (m : string) : bool :=
  Text.includes (Text.toLowerCase m) "too frequent"
  || Text.includes (Text.toLowerCase m) "rate limit".

(** The text of the exception that stands for a [while (true)] that was cut
    short; [total_submitOrder] shows that it is never thrown. *)
Definition out_of_fuel : string := "while(true): out of fuel".

(** The [while (true)] of [submitOrder], entered with the given value of
    [attempt]. *)
Fixpoint submitOrder_loop (fuel : nat) (c : Client) (params : SubmitParams)
    (attempt : nat) : M OrderResult :=
  match fuel with
  | O => throw out_of_fuel
  | S fuel' =>
      try_catch
        (res ← request (c_accountId c) (SubmitOrder params)
                 (fun ex n => sdk_submitOrder ex n (c_accountId c) params);
         match res with
         | Some {| r_success := Some false; r_message := m |} =>
             ret {| ok := false; ord_id := None;
                    msg := str_or m (Some "Unknown error") |}
         | _ =>
             let orderId :=
               match res with
               | Some r => str_or (r_data_orderId r) (r_orderId r)
               | None => None
               end in
             log (bracket (c_accountName c)) (OrderPlaced orderId);;
             ret {| ok := true; ord_id := orderId; msg := None |}
         end)
        (fun m =>
           if isRateLimit m && Nat.eqb attempt 0 then
             r ← random;
             let backoff := 500 + r * 700 in
             log (bracket (c_accountName c)) (RateLimitRetry (Js.round backoff));;
             sleep backoff;;
             submitOrder_loop fuel' c params (S attempt)
           else
             logError (bracket (c_accountName c)) (OrderError m);;
             ret {| ok := false; ord_id := None; msg := Some m |})
  end.

(** [submitOrder(params)]: [attempt] starts at 0 and the loop is entered
    twice at most. *)
Definition submitOrder (c : Client) (params : SubmitParams) : M OrderResult :=
  submitOrder_loop 2 c params 0.

(** [openPosition(params)]. *)
Definition openPosition (c : Client) (p : OpenParams) : M OrderResult :=
  let sideCode := match op_side p with long => 1%Z | short => 3%Z end in
  let orderType := if op_isMarket p then 5%Z else 1%Z in
  submitOrder c
    {| o_symbol := op_symbol p; o_price := op_price p; o_vol := op_volume p;
       o_side := sideCode; o_type := orderType; o_openType := 1%Z;
       o_leverage := op_leverage p;
       o_takeProfitPrice := op_takeProfit p;
       o_stopLossPrice := op_stopLoss p |}.

(** [closePosition(params)]. *)
Definition closePosition (c : Client) (p : CloseParams) : M OrderResult :=
  let sideCode := match cl_side p with long => 4%Z | short => 2%Z end in
  let orderType := if cl_isMarket p then 5%Z else 1%Z in
  submitOrder c
    {| o_symbol := cl_symbol p; o_price := cl_price p; o_vol := Js.Finite (cl_volume p);
       o_side := sideCode; o_type := orderType; o_openType := 1%Z;
       o_leverage := 1;
       o_takeProfitPrice := None; o_stopLossPrice := None |}.

(** [setTpSl(params)]. *)
Definition setTpSl (c : Client) (sym : string) (sd : Side)
    (takeProfit stopLoss : option Q) : M OrderResult :=
  try_catch
    (positions ← getOpenPositions c (Some sym);
     match List.find (fun p => Side_eqb (side p) sd) positions with
     | None =>
         ret {| ok := false; ord_id := None;
                msg := Some "Позиция не найдена" |}
     | Some _ =>
         let p := {| t_symbol := sym; t_takeProfitPrice := takeProfit;
                     t_stopLossPrice := stopLoss |} in
         res ← request (c_accountId c) (ChangePositionTpSl p)
                 (fun ex n => sdk_changePositionTpSl ex n (c_accountId c) p);
         match res with
         | Some {| r_success := Some false; r_message := m |} =>
             ret {| ok := false; ord_id := None; msg := m |}
         | _ =>
             log (bracket (c_accountName c)) (TpSlSet sym);;
             ret {| ok := true; ord_id := None; msg := None |}
         end
     end)
    (fun m =>
       logError (bracket (c_accountName c)) (TpSlError m);;
       ret {| ok := false; ord_id := None; msg := Some m |}).

Fixpoint find_ticker (sym : string) (l : list (string * option Q)) : option (option Q) :=
  match l with
  | [] => None
  | (s, p) :: l' => if String.eqb s sym then Some p else find_ticker sym l'
  end.

(** [getCurrentPrice(symbol)]. *)
Definition getCurrentPrice (c : Client) (sym : string) : M (option Q) :=
  try_catch
    (res ← request (c_accountId c) (GetTicker sym)
             (fun ex n => sdk_getTicker ex n (c_accountId c) sym);
     match res with
     | Some (TickerObject lp) => ret (truthy lp)
     | Some (TickerArray l) =>
         match find_ticker sym l with
         | Some lp => ret (truthy lp)
         | None => ret None
         end
     | None => ret None
     end)
    (fun err =>
       logError (bracket (c_accountName c)) (PriceError sym err);;
       ret None).

End MexcClientWrapper.

(** [ClientManager.getClient(accountId)]. *)
Definition getClient (accountId : string) : M (option Client) :=
  get (fun w => clients w !! accountId).

(** ** src/mexc/copyTrader.ts: [CopyTradingEngine] *)

Record OpenRequest := {
  mo_symbol : string;
  mo_side : Side;
  mo_price : Q;
  mo_positionSizeUsd : Q;
  mo_leverage : Q;
  mo_priceStep : option Q
}.

Record CopyTradeResult := {
  slaveResults : list TradeResult;
  ctr_symbol : string;
  ctr_side : Side;
  basePrice : Q;
  baseLeverage : Q
}.

(** A loop whose body pushes nothing. *)
Fixpoint iter {X} (body : X -> M unit) (xs : list X) : M unit :=
  match xs with
  | [] => ret tt
  | x :: xs' => body x;; iter body xs'
  end.

(** [result.message || 'OK']. *)
Definition message_or_ok (m : option string) : string :=
  default "OK" (MexcClientWrapper.str_or m (Some "OK")).

Module CopyTradingEngine.

Import MexcClientWrapper.

(** [p.symbol === q.symbol && p.side === q.side]. *)
Definition same_key (p q : Position) : bool :=
  String.eqb (symbol p) (symbol q) && Side_eqb (side p) (side q).

(** One slave account of [copyOpenPosition]. *)
Definition copyOpen_account (settings : CopyTradingSettings)
    (masterPosition : Position) (account : AccountConfig) : M unit :=
  r ← random;
  let delay := randomDelay r (delayMinMs settings) (delayMaxMs settings) in
  sleep delay;;
  oc ← getClient (id account);
  match oc with
  | None => ret tt
  | Some client =>
      try_catch
        (r1 ← random;
         let price := applyPriceDeviation r1 (entryPrice masterPosition)
                        (priceDeviationPercent settings) (side masterPosition) in
         r2 ← random;
         let lev := randomLeverage r2
                      (Js.max 1 (leverageMin account))
                      (Js.min (leverageMax account) (leverage masterPosition)) in
         let positionUsd := Js.min (maxPositionUsd account)
                              (margin masterPosition * leverage masterPosition) in
         contractInfo ← getContractInfo client (symbol masterPosition);
         let cSize := Js.or_else (contractSize <$> contractInfo) 1 in
         let vol := Js.floor_num (Js.div positionUsd (price * cSize)) in
         if Js.num_ltb vol 1 then
           logError (bracket (name account)) VolumeTooSmall
         else
           res ← openPosition client
                   {| op_symbol := symbol masterPosition;
                      op_side := side masterPosition;
                      op_price := roundToStep price
                                    (Js.or_else (priceStep <$> contractInfo) (1 # 100000));
                      op_volume := vol;
                      op_leverage := lev;
                      op_isMarket := false;
                      op_takeProfit := None;
                      op_stopLoss := None |};
           if ok res then
             log (bracket (name account))
                 (PositionOpened (symbol masterPosition) (side masterPosition) vol lev)
           else
             logError (bracket (name account)) (OpenFailed (msg res)))
        (fun err => logError (bracket (name account)) (CopyOpenError err))
  end.

(** [copyOpenPosition(masterPosition)]. *)
Definition copyOpenPosition (masterPosition : Position) : M unit :=
  settings ← get (fun w => settings (config w));
  if negb (copyOpenPositions settings) then ret tt
  else
    slaveAccounts ← get (fun w => ConfigStorage.getSlaveAccounts (config w));
    if Nat.eqb (List.length slaveAccounts) 0 then ret tt
    else
      log "[CopyTrader]"
          (CopyingOpen (symbol masterPosition) (List.length slaveAccounts));;
      iter (copyOpen_account settings masterPosition) slaveAccounts.

(** One slave account of [copyClosePosition]. *)
Definition copyClose_account (settings : CopyTradingSettings)
    (masterPosition : Position) (account : AccountConfig) : M unit :=
  r ← random;
  let delay := randomDelay r (delayMinMs settings) (delayMaxMs settings) in
  sleep delay;;
  oc ← getClient (id account);
  match oc with
  | None => ret tt
  | Some client =>
      try_catch
        (positions ← getOpenPositions client (Some (symbol masterPosition));
         match List.find (fun p => Side_eqb (side p) (side masterPosition)) positions with
         | None =>
             log (bracket (name account)) (PositionNotFound (symbol masterPosition))
         | Some position =>
             currentPrice ← getCurrentPrice client (symbol masterPosition);
             match truthy currentPrice with
             | None => ret tt
             | Some currentPrice =>
                 r1 ← random;
                 let closePrice :=
                   applyPriceDeviation r1 currentPrice
                     (priceDeviationPercent settings)
                     (opposite (side masterPosition)) in
                 res ← closePosition client
                         {| cl_symbol := symbol masterPosition;
                            cl_side := side position;
                            cl_price := closePrice;
                            cl_volume := volume position;
                            cl_isMarket := false |};
                 if ok res then
                   log (bracket (name account)) (PositionClosed (symbol masterPosition))
                 else
                   logError (bracket (name account)) (CloseFailed (msg res))
             end
         end)
        (fun err => logError (bracket (name account)) (CopyCloseError err))
  end.

(** [copyClosePosition(masterPosition)]. *)
Definition copyClosePosition (masterPosition : Position) : M unit :=
  settings ← get (fun w => settings (config w));
  if negb (copyClosePositions settings) then ret tt
  else
    slaveAccounts ← get (fun w => ConfigStorage.getSlaveAccounts (config w));
    log "[CopyTrader]"
        (CopyingClose (symbol masterPosition) (List.length slaveAccounts));;
    iter (copyClose_account settings masterPosition) slaveAccounts.

(** [previousPositions.find(p => p.symbol === pos.symbol && p.side === pos.side)]
    as a test. *)
Definition found (pos : Position) (l : list Position) : bool :=
  match List.find (fun p => same_key p pos) l with
  | Some _ => true
  | None => false
  end.

(** The body of the first loop of [checkMasterChanges]. *)
Definition replicate_opened (previous : list Position) (pos : Position) : M unit :=
  if negb (found pos previous) then
    log "[CopyTrader]" (NewPositionDetected (symbol pos) (side pos));;
    copyOpenPosition pos
  else ret tt.

(** The body of the second loop. *)
Definition replicate_closed (current : list Position) (prev : Position) : M unit :=
  if negb (found prev current) then
    log "[CopyTrader]" (PositionClosedDetected (symbol prev) (side prev));;
    copyClosePosition prev
  else ret tt.

(** [checkMasterChanges()]. *)
Definition checkMasterChanges : M unit :=
  om ← get (fun w => ConfigStorage.getMasterAccount (config w));
  match om with
  | None => ret tt
  | Some masterAccount =>
      oc ← getClient (id masterAccount);
      match oc with
      | None => ret tt
      | Some masterClient =>
          try_catch
            (currentPositions ← getOpenPositions masterClient None;
             previousPositions ←
               get (fun w => default [] (lastKnownPositions w !! id masterAccount));
             iter (replicate_opened previousPositions) currentPositions;;
             iter (replicate_closed currentPositions) previousPositions;;
             modify (fun w =>
                       set_lastKnownPositions
                         (<[id masterAccount := currentPositions]> (lastKnownPositions w)) w))
            (fun err => logError "[CopyTrader]" (MasterCheckError err))
      end
  end.

(** One account of [manualOpenPosition]; [i] is its index in the batch. *)
Definition manualOpen_account (settings : CopyTradingSettings)
    (params : OpenRequest) (cSize pStep : Q) (i : nat)
    (account : AccountConfig) : M (list TradeResult) :=
  oc ← getClient (id account);
  match oc with
  | None => ret [failed account "Клиент не инициализирован"]
  | Some client =>
      (if negb (isMaster account) && Nat.ltb 0 i then
         r ← random;
         sleep (randomDelay r (delayMinMs settings) (delayMaxMs settings))
       else ret tt);;
      try_catch
        (pl ← (if negb (isMaster account) then
                 r1 ← random;
                 let entry := applyPriceDeviation r1 (mo_price params)
                                (priceDeviationPercent settings) (mo_side params) in
                 let minLev := Js.max 1 (mo_leverage params - leverageSpread settings) in
                 let maxLev := Js.min (mo_leverage params) (leverageMax account) in
                 r2 ← random;
                 ret (entry, randomLeverage r2 minLev maxLev)
               else ret (mo_price params, mo_leverage params));
         let '(entry, lev) := pl in
         let maxPosUsd := Js.min (mo_positionSizeUsd params) (maxPositionUsd account) in
         let vol := Js.max_num 1 (Js.floor_num (Js.div maxPosUsd (entry * cSize))) in
         res ← openPosition client
                 {| op_symbol := mo_symbol params;
                    op_side := mo_side params;
                    op_price := roundToStep entry pStep;
                    op_volume := vol;
                    op_leverage := lev;
                    op_isMarket := false;
                    op_takeProfit := None;
                    op_stopLoss := None |};
         ret [{| accountId := id account; accountName := name account;
                 success := ok res; message := message_or_ok (msg res);
                 orderId := ord_id res; executedPrice := Some entry;
                 executedVolume := Some vol; resLeverage := Some lev |}])
        (fun err => ret [failed account err])
  end.

(** [manualOpenPosition(params)]. *)
Definition manualOpenPosition (params : OpenRequest) : M CopyTradeResult :=
  settings ← get (fun w => settings (config w));
  accounts ← get (fun w => ConfigStorage.getEnabledAccounts (config w));
  log "[CopyTrader]"
      (ManualOpen (mo_symbol params) (mo_side params) (List.length accounts));;
  masterClient ← getClient (match accounts with a :: _ => id a | [] => "" end);
  contractInfo ← match masterClient with
                 | Some c => getContractInfo c (mo_symbol params)
                 | None => ret None
                 end;
  let cSize := Js.or_else (contractSize <$> contractInfo) 1 in
  let pStep := Js.or_else (mo_priceStep params)
                 (Js.or_else (priceStep <$> contractInfo) (1 # 100000)) in
  results ← for_each_from 0 (manualOpen_account settings params cSize pStep) accounts;
  ret {| slaveResults := results; ctr_symbol := mo_symbol params;
         ctr_side := mo_side params; basePrice := mo_price params;
         baseLeverage := mo_leverage params |}.

(** One position of one account of [manualClosePosition]. *)
Definition manualClose_position (settings : CopyTradingSettings)
    (sym : string) (price : option Q) (client : Client)
    (account : AccountConfig) (position : Position) : M TradeResult :=
  closePrice ← match truthy price with
               | Some p => ret p
               | None =>
                   currentPrice ← getCurrentPrice client sym;
                   ret (Js.or_else currentPrice (entryPrice position))
               end;
  closePrice ← (if negb (isMaster account) then
                  r ← random;
                  ret (applyPriceDeviation r closePrice
                         (priceDeviationPercent settings)
                         (opposite (side position)))
                else ret closePrice);
  res ← closePosition client
          {| cl_symbol := sym; cl_side := side position;
             cl_price := closePrice; cl_volume := volume position;
             cl_isMarket := false |};
  ret {| accountId := id account; accountName := name account;
         success := ok res; message := message_or_ok (msg res);
         orderId := ord_id res; executedPrice := Some closePrice;
         executedVolume := Some (Js.Finite (volume position));
         resLeverage := None |}.

(** One account of [manualClosePosition]. *)
Definition manualClose_account (settings : CopyTradingSettings)
    (sym : string) (price : option Q) (i : nat)
    (account : AccountConfig) : M (list TradeResult) :=
  oc ← getClient (id account);
  match oc with
  | None => ret []
  | Some client =>
      (if Nat.ltb 0 i then
         r ← random;
         sleep (randomDelay r (delayMinMs settings) (delayMaxMs settings))
       else ret tt);;
      try_catch
        (positions ← getOpenPositions client (Some sym);
         if Nat.eqb (List.length positions) 0 then
           ret [failed account "Позиция не найдена"]
         else
           pushed ← push_each
                      (manualClose_position settings sym price client account)
                      positions;
           match pushed with
           | (rs, None) => ret rs
           | (rs, Some err) => ret (rs ++ [failed account err])
           end)
        (fun err => ret [failed account err])
  end.

(** [manualClosePosition(params)]. *)
Definition manualClosePosition (sym : string) (price : option Q)
    : M (list TradeResult) :=
  settings ← get (fun w => settings (config w));
  accounts ← get (fun w => ConfigStorage.getEnabledAccounts (config w));
  log "[CopyTrader]" (ManualClose sym (List.length accounts));;
  for_each_from 0 (manualClose_account settings sym price) accounts.

(** One account of [setTpSlOnAll]. *)
Definition setTpSl_account (settings : CopyTradingSettings)
    (sym : string) (sd : Side) (takeProfit stopLoss : option Q) (i : nat)
    (account : AccountConfig) : M (list TradeResult) :=
  oc ← getClient (id account);
  match oc with
  | None => ret []
  | Some client =>
      (if Nat.ltb 0 i then
         r ← random;
         sleep (randomDelay r (delayMinMs settings) (delayMaxMs settings))
       else ret tt);;
      try_catch
        (tp ← (if negb (isMaster account) then
                 match truthy takeProfit with
                 | Some v =>
                     r ← random;
                     ret (Some (applyPriceDeviation r v
                                  (priceDeviationPercent settings) (opposite sd)))
                 | None => ret takeProfit
                 end
               else ret takeProfit);
         sl ← (if negb (isMaster account) then
                 match truthy stopLoss with
                 | Some v =>
                     r ← random;
                     ret (Some (applyPriceDeviation r v
                                  (priceDeviationPercent settings) sd))
                 | None => ret stopLoss
                 end
               else ret stopLoss);
         res ← setTpSl client sym sd tp sl;
         ret [{| accountId := id account; accountName := name account;
                 success := ok res; message := message_or_ok (msg res);
                 orderId := None; executedPrice := None;
                 executedVolume := None; resLeverage := None |}])
        (fun err => ret [failed account err])
  end.

(** [setTpSlOnAll(params)]. *)
Definition setTpSlOnAll (sym : string) (sd : Side)
    (takeProfit stopLoss : option Q) : M (list TradeResult) :=
  settings ← get (fun w => settings (config w));
  accounts ← get (fun w => ConfigStorage.getEnabledAccounts (config w));
  log "[CopyTrader]" (SettingTpSl sym (List.length accounts));;
  for_each_from 0 (setTpSl_account settings sym sd takeProfit stopLoss) accounts.

(** One account of [cancelAllOrdersOnAll]. *)
Definition cancelAll_account (sym : string) (account : AccountConfig)
    : M (list TradeResult) :=
  oc ← getClient (id account);
  match oc with
  | None => ret []
  | Some client =>
      cancelled ← cancelAllOrders client sym;
      ret [{| accountId := id account; accountName := name account;
              success := cancelled;
              message := if (cancelled : bool)
                         then "Ордера отменены" else "Ошибка отмены";
              orderId := None; executedPrice := None;
              executedVolume := None; resLeverage := None |}]
  end.

(** [cancelAllOrdersOnAll(symbol)]. *)
Definition cancelAllOrdersOnAll (sym : string) : M (list TradeResult) :=
  accounts ← get (fun w => ConfigStorage.getEnabledAccounts (config w));
  for_each_from 0 (fun _ => cancelAll_account sym) accounts.

(** The fields [isRunning] and [pollInterval] of the engine, with the
    timers of the runtime: the handles of the intervals that are set, each
    with its period, and the next handle that [setInterval] returns. *)
Record Monitor := {
  isRunning : bool;
  pollInterval : option nat;
  intervals : list (nat * Q);
  next_handle : nat
}.

(** The lines that [startMonitoring] and [stopMonitoring] log. *)
Inductive MonitorLine :=
| AlreadyMonitoring
| MonitoringStarted (intervalMs : Q)
| MonitoringStopped.

(** The engine as it is constructed. *)
Definition new_monitor : Monitor :=
  {| isRunning := false; pollInterval := None; intervals := []; next_handle := 0 |}.

(** [startMonitoring(intervalMs = 2000)]. *)
Definition startMonitoring (intervalMs : option Q) (m : Monitor)
    : Monitor * list MonitorLine :=
  let intervalMs := default 2000 intervalMs in
  if isRunning m then (m, [AlreadyMonitoring])
  else
    ({| isRunning := true;
        pollInterval := Some (next_handle m);
        intervals := (next_handle m, intervalMs) :: intervals m;
        next_handle := S (next_handle m) |},
     [MonitoringStarted intervalMs]).

(** [clearInterval(handle)]. *)
Definition clearInterval (handle : nat) (l : list (nat * Q)) : list (nat * Q) :=
  List.filter (fun t => negb (Nat.eqb (fst t) handle)) l.

(** [stopMonitoring()]. *)
Definition stopMonitoring (m : Monitor) : Monitor * list MonitorLine :=
  ({| isRunning := false;
      pollInterval := None;
      intervals := match pollInterval m with
                   | Some handle => clearInterval handle (intervals m)
                   | None => intervals m
                   end;
      next_handle := next_handle m |},
   [MonitoringStopped]).

End CopyTradingEngine.

(** ** src/telegram/handlers/signals.ts: [handleTradeSignal]

    The chat messages are events that carry the data shown; their wording
    is not modelled. *)

Module Signals.

Import MexcClientWrapper.

(** The callback armed by [handleTradeSignal] with [setTimeout], as it runs
    when the timer fires. *)
Definition cancel_timer_fires (cb : CancelTimer) : M unit :=
  try_catch
    (hasPos ← hasOpenPosition (tm_client cb) (tm_symbol cb);
     if negb hasPos then
       log (bracket (tm_accountName cb)) (TimerCancelling (tm_symbol cb));;
       cancelAllOrders (tm_client cb) (tm_symbol cb);;
       ret tt
     else ret tt)
    (fun err => logError (bracket (tm_accountName cb)) (TimerError err)).

(** One account of the loop of [handleTradeSignal]. *)
Definition signal_account (settings : CopyTradingSettings)
    (signal : ParsedSignal) (pStep cSize maxContracts : Q) (i : nat)
    (account : AccountConfig) : M (list TradeResult) :=
  oc ← getClient (id account);
  match oc with
  | None => ret [failed account "Клиент не инициализирован"]
  | Some client =>
      (if Nat.ltb 0 i then
         r ← random;
         sleep (randomDelay r (delayMinMs settings) (delayMaxMs settings))
       else ret tt);;
      try_catch
        (hasPosition ← hasOpenPosition client (sig_fullSymbol signal);
         if (hasPosition : bool) then ret [failed account "Уже в позиции"]
         else
           cancelAllOrders client (sig_fullSymbol signal);;
           let entry0 := sig_entryPrice signal * (1 + signalEntryOffset settings / 100) in
           let tp0 := sig_takeProfit signal * (1 + signalTpOffset settings / 100) in
           prices ← (if negb (isMaster account) then
                       r1 ← random;
                       r2 ← random;
                       ret (applyPriceDeviation r1 entry0
                              (priceDeviationPercent settings) (sig_side signal),
                            applyPriceDeviation r2 tp0
                              (priceDeviationPercent settings)
                              (opposite (sig_side signal)))
                     else ret (entry0, tp0));
           let '(entry, takeProfit) := prices in
           r3 ← random;
           let lev := randomLeverage r3 (leverageMin account) (leverageMax account) in
           let positionUsd :=
             if Js.ltb 0 maxContracts
             then Js.min (maxPositionUsd account) (maxContracts * cSize * entry)
             else maxPositionUsd account in
           let vol := Js.max_num 1 (Js.floor_num (Js.div positionUsd (entry * cSize))) in
           res ← openPosition client
                   {| op_symbol := sig_fullSymbol signal;
                      op_side := sig_side signal;
                      op_price := roundToStep entry pStep;
                      op_volume := vol;
                      op_leverage := lev;
                      op_isMarket := false;
                      op_takeProfit := Some (roundToStep takeProfit pStep);
                      op_stopLoss := None |};
           (if ok res then
              r4 ← random;
              let cancelDelay :=
                randomDelay r4 (signalCancelTimeMin settings * 1000)
                  (signalCancelTimeMax settings * 1000) in
              emit (SetTimeout {| tm_client := client;
                                  tm_accountName := name account;
                                  tm_symbol := sig_fullSymbol signal |}
                               cancelDelay)
            else ret tt);;
           ret [{| accountId := id account; accountName := name account;
                   success := ok res; message := message_or_ok (msg res);
                   orderId := ord_id res; executedPrice := Some entry;
                   executedVolume := Some vol; resLeverage := Some lev |}])
        (fun err => ret [failed account err])
  end.

(** [handleTradeSignal(ctx, text)]. *)
Definition handleTradeSignal (text : string) : M bool :=
  settings ← get (fun w => settings (config w));
  if negb (signalsEnabled settings) then ret false
  else
    match parseTradeSignal text with
    | None => ret false
    | Some signal =>
        log "[Signals]" (SignalDetected (sig_fullSymbol signal) (sig_side signal));;
        accounts ← get (fun w => ConfigStorage.getEnabledAccounts (config w));
        match accounts with
        | [] => emit ChatNoAccounts;; ret true
        | first :: _ =>
            let pStep := priceStepFromText text in
            firstClient ← getClient (id first);
            contractInfo ← match firstClient with
                           | Some c => getContractInfo c (sig_fullSymbol signal)
                           | None => ret None
                           end;
            let cSize := Js.or_else (contractSize <$> contractInfo) 1 in
            limits ← get (fun w => contractLimits (config w));
            let maxContracts := Js.or_else (limits !! sig_fullSymbol signal) 0 in
            emit (ChatSignalStart signal (List.length accounts));;
            results ← for_each_from 0
                        (signal_account settings signal pStep cSize maxContracts)
                        accounts;
            emit (ChatSignalReport signal results);;
            ret true
        end
    end.

End Signals.

(** ** src/telegram/keyboards.ts: the keyboards of positions and accounts

    A keyboard is its rows of buttons, a button its label and its callback
    data. *)

(** ['long'] and ['short']. *)
Definition side_text (sd : Side) : string :=
  match sd with long => "long" | short => "short" end.

Module Keyboards.

Definition Button : Type := string * string.

(** [positionOpenedKeyboard(symbol, side)]. *)
Definition positionOpenedKeyboard (symbol side : string) : list (list Button) :=
  [ [("🎯 Задать TP и SL", "set_tpsl_" +:+ symbol +:+ "_" +:+ side)];
    [("❌ Закрыть позицию", "close_pos_" +:+ symbol)];
    [("📋 Детали", "pos_details_" +:+ symbol)] ].

(** [tpSlSelectionKeyboard(symbol, side)]. *)
Definition tpSlSelectionKeyboard (symbol side : string) : list (list Button) :=
  [ [("🎯 Установить TP", "input_tp_" +:+ symbol +:+ "_" +:+ side)];
    [("🛑 Установить SL", "input_sl_" +:+ symbol +:+ "_" +:+ side)];
    [("✅ Установить оба", "input_both_" +:+ symbol +:+ "_" +:+ side)];
    [("⏭ Пропустить", "menu_main")] ].

(** [positionManageKeyboard(symbol, side)]. *)
Definition positionManageKeyboard (symbol side : string) : list (list Button) :=
  [ [("🎯 TP/SL", "set_tpsl_" +:+ symbol +:+ "_" +:+ side)];
    [("❌ Закрыть", "close_pos_" +:+ symbol);
     ("📝 Добавить", "add_to_pos_" +:+ symbol +:+ "_" +:+ side)];
    [("🔙 К позициям", "menu_positions")] ].

(** [positionsListKeyboard(positions)], a position being its symbol and its
    side. *)
Definition positionsListKeyboard (positions : list (string * string))
    : list (list Button) :=
  List.map (fun pos =>
              [((if String.eqb (snd pos) "long" then "🟢" else "🔴")
                  +:+ " " +:+ fst pos,
                "pos_manage_" +:+ fst pos +:+ "_" +:+ snd pos)])
           positions
  ++ [ [("❌ Закрыть все", "close_all_positions")];
       [("🔙 Назад", "menu_main")] ].

(** [accountViewKeyboard(account)]. *)
Definition accountViewKeyboard (account : AccountConfig) : list (list Button) :=
  let enableBtn :=
    if enabled account
    then ("❌ Отключить", "acc_disable_" +:+ id account)
    else ("✅ Включить", "acc_enable_" +:+ id account) in
  let masterBtn :=
    if isMaster account
    then ("👑 Главный", "acc_master_" +:+ id account)
    else ("⭐ Сделать главным", "acc_setmaster_" +:+ id account) in
  [ [enableBtn; masterBtn];
    [("✏️ Редактировать", "acc_edit_" +:+ id account);
     ("🌐 Прокси", "acc_proxy_" +:+ id account)];
    [("💰 Баланс", "acc_balance_" +:+ id account);
     ("📈 Позиции", "acc_positions_" +:+ id account)];
    [("🗑 Удалить", "acc_delete_" +:+ id account)];
    [("🔙 К списку", "menu_accounts")] ].

(** [confirmDeleteKeyboard(accountId)]. *)
Definition confirmDeleteKeyboard (accountId : string) : list (list Button) :=
  [ [("✅ Да, удалить", "acc_confirm_delete_" +:+ accountId);
     ("❌ Отмена", "acc_view_" +:+ accountId)] ].

(** The callback data of a keyboard, row by row. *)
Definition callbacks (keyboard : list (list Button)) : list string :=
  List.map snd (List.concat keyboard).

End Keyboards.

(** ** src/bot.ts: the triggers of the callback queries

    [bot.action(trigger, handler)] registers a handler for the callback
    data that the trigger matches: a string matches itself, a regular
    expression by [exec].  The handlers of bot.ts do not call [next], so a
    callback query runs the first registered action whose trigger
    matches. *)

Module Bot.

Inductive Trigger :=
| Exactly (data : string)      (** ['data'] *)
| OneGroup (prefix : string)   (** [/^prefix(.+)$/] *)
| TwoGroups (prefix : string). (** [/^prefix(.+)_(.+)$/] *)

(** The triggers of bot.ts, in the order of their registration. *)
Definition triggers : list Trigger :=
  [ Exactly "menu_main"; Exactly "menu_accounts"; Exactly "menu_settings";
    Exactly "menu_positions"; Exactly "menu_orders"; Exactly "menu_balance";
    Exactly "menu_stats"; Exactly "menu_help";
    Exactly "acc_add";
    OneGroup "acc_view_"; OneGroup "acc_enable_"; OneGroup "acc_disable_";
    OneGroup "acc_setmaster_"; OneGroup "acc_master_"; OneGroup "acc_delete_";
    OneGroup "acc_confirm_delete_"; OneGroup "acc_balance_";
    OneGroup "acc_positions_"; OneGroup "acc_edit_"; OneGroup "acc_proxy_";
    Exactly "settings_delays"; Exactly "settings_price";
    Exactly "settings_leverage"; Exactly "settings_modes";
    Exactly "settings_signals";
    Exactly "toggle_copy_open"; Exactly "toggle_copy_close";
    Exactly "toggle_copy_tpsl"; Exactly "toggle_signals";
    OneGroup "set_delay_min_"; OneGroup "set_delay_max_";
    OneGroup "set_price_dev_"; OneGroup "set_lev_spread_";
    TwoGroups "set_tpsl_"; TwoGroups "input_tp_"; TwoGroups "input_sl_";
    TwoGroups "input_both_";
    OneGroup "close_pos_"; Exactly "close_all_positions";
    TwoGroups "pos_manage_";
    Exactly "help_commands"; Exactly "help_setup"; Exactly "help_examples" ].

(** The character class [.]: anything but a line break (of ASCII). *)
Definition is_dot (c : ascii) : bool :=
  negb (Nat.eqb (Text.code c) 10 || Nat.eqb (Text.code c) 13).

Fixpoint all_dots (s : string) : bool :=
  match s with
  | EmptyString => true
  | String c rest => is_dot c && all_dots rest
  end.

(** [(.+)_(.+)$] on a text without line break: the first group is greedy,
    so the text is cut at its last underscore that has something after
    it. *)
Fixpoint last_cut (s : string) : option (string * string) :=
  match s with
  | EmptyString => None
  | String c rest =>
      match last_cut rest with
      | Some (g1, g2) => Some (String c g1, g2)
      | None =>
          if Ascii.eqb c "_" && negb (String.eqb rest "")
          then Some (EmptyString, rest)
          else None
      end
  end.

(** [trigger.exec(data)], or [data === trigger]: the groups of the match. *)
Definition matches (t : Trigger) (data : string) : option (list string) :=
  match t with
  | Exactly d => if String.eqb d data then Some [] else None
  | OneGroup prefix =>
      match Text.strip false prefix data with
      | Some rest =>
          if negb (String.eqb rest "") && all_dots rest then Some [rest] else None
      | None => None
      end
  | TwoGroups prefix =>
      match Text.strip false prefix data with
      | Some rest =>
          if all_dots rest then
            match last_cut rest with
            | Some (g1, g2) =>
                if String.eqb g1 "" then None else Some [g1; g2]
            | None => None
            end
          else None
      | None => None
      end
  end.

(** The action that a callback query with the given data runs: its trigger
    and [ctx.match[1]], [ctx.match[2]]. *)
Fixpoint first_match (table : list Trigger) (data : string)
    : option (Trigger * list string) :=
  match table with
  | [] => None
  | t :: table' =>
      match matches t data with
      | Some groups => Some (t, groups)
      | None => first_match table' data
      end
  end.

Definition route (data : string) : option (Trigger * list string) :=
  first_match triggers data.

End Bot.

(** ** Sample data: the default settings of storage.ts, two accounts and a
    few exchanges *)

Module Sample.

(** [DEFAULT_SETTINGS]. *)
Definition default_settings : CopyTradingSettings :=
  {| delayMinMs := 0; delayMaxMs := 1000; priceDeviationPercent := 1;
     leverageSpread := 10; copyOpenPositions := true;
     copyClosePositions := true; copyTpSl := true; signalsEnabled := true;
     signalEntryOffset := - (1 # 2); signalTpOffset := 1;
     signalCancelTimeMin := 60; signalCancelTimeMax := 180 |}.

Definition account (i nm : string) (master : bool) : AccountConfig :=
  {| id := i; name := nm; authToken := "WEB-token"; proxyUrl := None;
     enabled := true; isMaster := master; maxPositionUsd := 100;
     leverageMin := 10; leverageMax := 20; lastBalance := None;
     lastUpdated := None |}.

Definition alice : AccountConfig := account "a1" "Alice" true.
Definition bob : AccountConfig := account "b2" "Bob" false.
Definition carol : AccountConfig := account "c3" "Carol" false.

Definition client_of (a : AccountConfig) : Client :=
  {| c_accountId := id a; c_accountName := name a |}.

Definition roster (l : list AccountConfig) : BotConfig :=
  {| accounts := l; settings := default_settings; contractLimits := ∅ |}.

Definition accepted : RawOrderReply :=
  {| r_success := Some true; r_message := None;
     r_data_orderId := Some "42"; r_orderId := None |}.

Definition btc_long : RawPosition :=
  {| raw_symbol := "BTC_USDT"; positionType := 1; holdVol := Some 3;
     openAvgPrice := Some 100; avgPrice := None; raw_leverage := Some 20;
     im := Some 15; unrealisedPnl := None; liquidatePrice := None |}.

(** An exchange on which no account holds a position and every order is
    accepted. *)
Definition flat : Exchange :=
  {| sdk_getOpenPositions := fun _ _ _ => Answer (Some []);
     sdk_submitOrder := fun _ _ _ => Answer (Some accepted);
     sdk_cancelAllOrders := fun _ _ _ => Answer tt;
     sdk_getContractDetail := fun _ _ _ => Answer None;
     sdk_getTicker := fun _ _ _ => Answer (Some (TickerObject (Some 100)));
     sdk_changePositionTpSl := fun _ _ _ => Answer (Some accepted) |}.

(** The same exchange with a long BTC_USDT position on every account. *)
Definition holding : Exchange :=
  {| sdk_getOpenPositions := fun _ _ _ => Answer (Some [btc_long]);
     sdk_submitOrder := sdk_submitOrder flat;
     sdk_cancelAllOrders := sdk_cancelAllOrders flat;
     sdk_getContractDetail := sdk_getContractDetail flat;
     sdk_getTicker := sdk_getTicker flat;
     sdk_changePositionTpSl := sdk_changePositionTpSl flat |}.

Definition eth_short : RawPosition :=
  {| raw_symbol := "ETH_USDT"; positionType := 2; holdVol := Some 5;
     openAvgPrice := Some 2000; avgPrice := None; raw_leverage := Some 10;
     im := Some 100; unrealisedPnl := None; liquidatePrice := None |}.

(** The flat exchange with a short ETH_USDT position on the account [a1]. *)
Definition master_short : Exchange :=
  {| sdk_getOpenPositions := fun _ a _ =>
       if String.eqb a "a1" then Answer (Some [eth_short]) else Answer (Some []);
     sdk_submitOrder := sdk_submitOrder flat;
     sdk_cancelAllOrders := sdk_cancelAllOrders flat;
     sdk_getContractDetail := sdk_getContractDetail flat;
     sdk_getTicker := sdk_getTicker flat;
     sdk_changePositionTpSl := sdk_changePositionTpSl flat |}.

(** An exchange whose position query fails. *)
Definition unreachable : Exchange :=
  {| sdk_getOpenPositions := fun _ _ _ => Raise "socket hang up";
     sdk_submitOrder := sdk_submitOrder flat;
     sdk_cancelAllOrders := sdk_cancelAllOrders flat;
     sdk_getContractDetail := sdk_getContractDetail flat;
     sdk_getTicker := sdk_getTicker flat;
     sdk_changePositionTpSl := sdk_changePositionTpSl flat |}.

(** An exchange that rejects the first order for rate limiting and accepts
    the following ones. *)
Definition throttled : Exchange :=
  {| sdk_getOpenPositions := sdk_getOpenPositions flat;
     sdk_submitOrder := fun n _ _ =>
       match n with
       | O => Raise "Requests too frequent"
       | _ => Answer (Some accepted)
       end;
     sdk_cancelAllOrders := sdk_cancelAllOrders flat;
     sdk_getContractDetail := sdk_getContractDetail flat;
     sdk_getTicker := sdk_getTicker flat;
     sdk_changePositionTpSl := sdk_changePositionTpSl flat |}.

(** An exchange that throws at every order of the account [b2]. *)
Definition rejecting_bob : Exchange :=
  {| sdk_getOpenPositions := sdk_getOpenPositions flat;
     sdk_submitOrder := fun _ a _ =>
       if String.eqb a "b2" then Raise "Insufficient balance"
       else Answer (Some accepted);
     sdk_cancelAllOrders := sdk_cancelAllOrders flat;
     sdk_getContractDetail := sdk_getContractDetail flat;
     sdk_getTicker := sdk_getTicker flat;
     sdk_changePositionTpSl := sdk_changePositionTpSl flat |}.

Definition world_of (cfg : BotConfig) (with_client : list AccountConfig)
    (ex : Exchange) (rs : list Q) : World :=
  {| config := cfg;
     clients := list_to_map (List.map (fun a => (id a, client_of a)) with_client);
     lastKnownPositions := ∅;
     exchange := ex; requests := 0; draws := rs |}.

(** The world of a watcher that saw a long BTC_USDT position on the master
    at the previous tick. *)
Definition watching (ex : Exchange) : World :=
  {| config := roster [alice; bob];
     clients := list_to_map [(id alice, client_of alice); (id bob, client_of bob)];
     lastKnownPositions :=
       {[ id alice := [MexcClientWrapper.to_position btc_long] ]};
     exchange := ex; requests := 0; draws := [] |}.

Definition timer : CancelTimer :=
  {| tm_client := client_of alice; tm_accountName := name alice;
     tm_symbol := "BTC_USDT" |}.

(** What [parseTradeSignal] makes of [signal_text] below. *)
Definition btc_signal : ParsedSignal :=
  {| sig_symbol := "BTC"; sig_fullSymbol := "BTC_USDT";
     sig_entryPrice := 101; sig_takeProfit := 100; sig_side := long |}.

Definition open_btc (usd : Q) : OpenRequest :=
  {| mo_symbol := "BTC_USDT"; mo_side := long; mo_price := 100;
     mo_positionSizeUsd := usd; mo_leverage := 20; mo_priceStep := None |}.

Definition order : SubmitParams :=
  {| o_symbol := "BTC_USDT"; o_price := 100; o_vol := Js.Finite 1; o_side := 1%Z;
     o_type := 1%Z; o_openType := 1%Z; o_leverage := 20;
     o_takeProfitPrice := None; o_stopLossPrice := None |}.

Definition signal_text : string :=
  "#BTC_USDT LONG Price DEX $100 Price MEXC $101".

End Sample.

(** ** What a run shows to the outside *)

(** The orders sent to the exchange, with the account that sent each. *)
Fixpoint submits (evs : list Event) : list (string * SubmitParams) :=
  match evs with
  | [] => []
  | Request a (SubmitOrder p) :: evs' => (a, p) :: submits evs'
  | _ :: evs' => submits evs'
  end.

(** The timed waits. *)
Fixpoint sleeps (evs : list Event) : list Q :=
  match evs with
  | [] => []
  | Sleep ms :: evs' => ms :: sleeps evs'
  | _ :: evs' => sleeps evs'
  end.

(** The symbols for which all orders of an account were cancelled. *)
Fixpoint cancellations (evs : list Event) : list (string * string) :=
  match evs with
  | [] => []
  | Request a (CancelAllOrders sym) :: evs' => (a, sym) :: cancellations evs'
  | _ :: evs' => cancellations evs'
  end.

(** The callbacks handed to [setTimeout]. *)
Fixpoint armed (evs : list Event) : list CancelTimer :=
  match evs with
  | [] => []
  | SetTimeout cb _ :: evs' => cb :: armed evs'
  | _ :: evs' => armed evs'
  end.

(** The positions for which the watcher announced a replication. *)
Fixpoint announced_open (evs : list Event) : list (string * Side) :=
  match evs with
  | [] => []
  | Log _ (NewPositionDetected sym sd) :: evs' => (sym, sd) :: announced_open evs'
  | _ :: evs' => announced_open evs'
  end.

Fixpoint announced_closed (evs : list Event) : list (string * Side) :=
  match evs with
  | [] => []
  | Log _ (PositionClosedDetected sym sd) :: evs' => (sym, sd) :: announced_closed evs'
  | _ :: evs' => announced_closed evs'
  end.

(** How [submitOrder] reads an answer of the exchange: a reported failure
    ([res.success === false]) with its message, anything else as a placed
    order with its identifier. *)
Definition reported_failure (res : option RawOrderReply) : bool :=
  match res with
  | Some {| r_success := Some false |} => true
  | _ => false
  end.

Definition read_answer (res : option RawOrderReply) : OrderResult :=
  if reported_failure res then
    {| ok := false; ord_id := None;
       msg := MexcClientWrapper.str_or (res ≫= r_message) (Some "Unknown error") |}
  else
    {| ok := true;
       ord_id := MexcClientWrapper.str_or (res ≫= r_data_orderId) (res ≫= r_orderId);
       msg := None |}.

Definition rejected (m : string) : OrderResult :=
  {| ok := false; ord_id := None; msg := Some m |}.

(** Whether [ClientManager] holds a client for the account. *)
Definition has_client (w : World) (a : AccountConfig) : bool :=
  match clients w !! id a with
  | Some _ => true
  | None => false
  end.

(** The identity of a position for the watcher. *)
Definition key (p : Position) : string * Side := (symbol p, side p).

(** The positions the exchange reports to [getOpenPositions], as the wrapper
    hands them on: nothing when the query throws. *)
Definition reported (r : Reply (option (list RawPosition))) : list Position :=
  match r with
  | Answer res =>
      List.map MexcClientWrapper.to_position
        (List.filter MexcClientWrapper.holds (default [] res))
  | Raise _ => []
  end.

(** The entry price that [manualOpenPosition] derives for an account, by the
    coming draws: a slave that is not first in the batch spends one draw on
    its delay before the one for its price. *)
Definition manual_entry (settings : CopyTradingSettings) (params : OpenRequest)
    (i : nat) (account : AccountConfig) (ds : list Q) : Q :=
  let ds1 := if negb (isMaster account) && Nat.ltb 0 i then tl ds else ds in
  if isMaster account then mo_price params
  else applyPriceDeviation (hd 0 ds1) (mo_price params)
         (priceDeviationPercent settings) (mo_side params).

(** The order that the account sends: a slave spends the draw after the one
    for its price on its leverage. *)
Definition manual_order (settings : CopyTradingSettings) (params : OpenRequest)
    (cSize pStep : Q) (i : nat) (account : AccountConfig) (ds : list Q)
    : SubmitParams :=
  let ds1 := if negb (isMaster account) && Nat.ltb 0 i then tl ds else ds in
  let entry := manual_entry settings params i account ds in
  let lev :=
    if isMaster account then mo_leverage params
    else randomLeverage (hd 0 (tl ds1))
           (Js.max 1 (mo_leverage params - leverageSpread settings))
           (Js.min (mo_leverage params) (leverageMax account)) in
  let count :=
    Js.floor_num (Js.div (Js.min (mo_positionSizeUsd params) (maxPositionUsd account))
                    (entry * cSize)) in
  {| o_symbol := mo_symbol params;
     o_price := roundToStep entry pStep;
     o_vol := Js.max_num 1 count;
     o_side := match mo_side params with long => 1%Z | short => 3%Z end;
     o_type := 1%Z; o_openType := 1%Z;
     o_leverage := lev;
     o_takeProfitPrice := None; o_stopLossPrice := None |}.

(** The entry price that [handleTradeSignal] derives for an account, by the
    coming draws: an account that is not first spends one draw on its delay,
    a slave the next one on its entry price. *)
Definition signal_entry (settings : CopyTradingSettings) (signal : ParsedSignal)
    (i : nat) (account : AccountConfig) (ds : list Q) : Q :=
  let ds1 := if Nat.ltb 0 i then tl ds else ds in
  let entry0 := sig_entryPrice signal * (1 + signalEntryOffset settings / 100) in
  if isMaster account then entry0
  else applyPriceDeviation (hd 0 ds1) entry0
         (priceDeviationPercent settings) (sig_side signal).

(** The order that the account sends: a slave spends one more draw on its
    take-profit, and every account one on its leverage. *)
Definition signal_order (settings : CopyTradingSettings) (signal : ParsedSignal)
    (pStep cSize maxContracts : Q) (i : nat) (account : AccountConfig)
    (ds : list Q) : SubmitParams :=
  let ds1 := if Nat.ltb 0 i then tl ds else ds in
  let tp0 := sig_takeProfit signal * (1 + signalTpOffset settings / 100) in
  let entry := signal_entry settings signal i account ds in
  let takeProfit :=
    if isMaster account then tp0
    else applyPriceDeviation (hd 0 (tl ds1)) tp0
           (priceDeviationPercent settings) (opposite (sig_side signal)) in
  let ds2 := if isMaster account then ds1 else tl (tl ds1) in
  let lev := randomLeverage (hd 0 ds2) (leverageMin account) (leverageMax account) in
  let positionUsd :=
    if Js.ltb 0 maxContracts
    then Js.min (maxPositionUsd account) (maxContracts * cSize * entry)
    else maxPositionUsd account in
  let count := Js.floor_num (Js.div positionUsd (entry * cSize)) in
  {| o_symbol := sig_fullSymbol signal;
     o_price := roundToStep entry pStep;
     o_vol := Js.max_num 1 count;
     o_side := match sig_side signal with long => 1%Z | short => 3%Z end;
     o_type := 1%Z; o_openType := 1%Z;
     o_leverage := lev;
     o_takeProfitPrice := Some (roundToStep takeProfit pStep);
     o_stopLossPrice := None |}.

(** The contract data the exchange reports to [getContractInfo], as the
    wrapper hands them on: none when the query throws. *)
Definition reported_contract (sym : string) (r : Reply (option RawContract))
    : option ContractInfo :=
  match r with
  | Answer res => MexcClientWrapper.to_contract sym <$> res
  | Raise _ => None
  end.

(** A volume that is not below 1: a number of at least 1, [Infinity] or
    [NaN]. *)
Definition not_below_one (n : Js.Num) : Prop :=
  match n with
  | Js.Finite x => 1 <= x
  | Js.PlusInfinity | Js.NaN => True
  | Js.MinusInfinity => False
  end.

(** An order, if the event is one, is for one contract at least, or for a
    volume that is not finite. *)
Definition at_least_one_contract (e : Event) : Prop :=
  match e with
  | Request _ (SubmitOrder p) => not_below_one (o_vol p)
  | _ => True
  end.

(** A request to change take-profit and stop-loss, if the event is one,
    carries the given values. *)
Definition tpsl_is (tp sl : option Q) (e : Event) : Prop :=
  match e with
  | Request _ (ChangePositionTpSl q) =>
      t_takeProfitPrice q = tp /\ t_stopLossPrice q = sl
  | _ => True
  end.

(** Events other than the arming of a timer. *)
Definition no_timer (e : Event) : Prop :=
  match e with
  | SetTimeout _ _ => False
  | _ => True
  end.

(** Events other than the announcements of the watcher. *)
Definition quiet (e : Event) : Prop :=
  match e with
  | Log _ (NewPositionDetected _ _) | Log _ (PositionClosedDetected _ _) => False
  | _ => True
  end.

(** ** Further observations *)

(** A whole number. *)
Definition whole (x : Q) : Prop := exists z : Z, x == inject_Z z.

(** A price step that [toString] prints in positional notation, with ten
    decimal places at most: [0.01], [0.5], [1], [0.000001]. *)
Definition positional_step (step : Q) : Prop :=
  (1 # 1000000) <= step /\ whole (step * Js.pow10 10).

(** [str.length]. *)
Definition js_length (s : string) : Q := inject_Z (Z.of_nat (String.length s)).

(** The text that a reader of Telegram's MarkdownV2 shows for a message
    without markup: a backslash makes the character after it literal, and
    any other character of the reserved class would be markup. *)
Fixpoint markdown_literal (s : string) : option string :=
  match s with
  | EmptyString => Some EmptyString
  | String c rest =>
      if Ascii.eqb c backslash then
        match rest with
        | String d rest' => String d <$> markdown_literal rest'
        | EmptyString => None
        end
      else if is_markdown_special c then None
      else String c <$> markdown_literal rest
  end.

(** An order, if the event is one, carries the given side code. *)
Definition side_code_is (code : Z) (e : Event) : Prop :=
  match e with
  | Request _ (SubmitOrder p) => o_side p = code
  | _ => True
  end.

(** An entry of [MEXC_TOKENS] that [importFromEnvFormat] takes: seven
    fields at least. *)
Definition importable (part : string) : bool :=
  Nat.leb 7 (List.length (Text.split ":" part)).

(** The entries of [MEXC_TOKENS]. *)
Definition env_parts (mexcTokensRaw : string) : list string :=
  List.filter (fun part => negb (String.eqb part ""))
    (List.map Text.trim (Text.split "," mexcTokensRaw)).

(** An order, if the event is one, is a limit order in isolated margin. *)
Definition limit_order (e : Event) : Prop :=
  match e with
  | Request _ (SubmitOrder p) => o_type p = 1%Z /\ o_openType p = 1%Z
  | _ => True
  end.

(** An order, if the event is one, opens a position. *)
Definition opening_order (e : Event) : Prop :=
  match e with
  | Request _ (SubmitOrder p) => o_side p = 1%Z \/ o_side p = 3%Z
  | _ => True
  end.

(** An order, if the event is one, closes a position, with a leverage of 1
    and neither take-profit nor stop-loss. *)
Definition closing_order (e : Event) : Prop :=
  match e with
  | Request _ (SubmitOrder p) =>
      (o_side p = 4%Z \/ o_side p = 2%Z)
      /\ o_leverage p = 1 /\ o_takeProfitPrice p = None /\ o_stopLossPrice p = None
  | _ => True
  end.

(** Events other than an order. *)
Definition no_order (e : Event) : Prop :=
  match e with
  | Request _ (SubmitOrder _) => False
  | _ => True
  end.

(** Events other than a request to the exchange. *)
Definition no_request (e : Event) : Prop :=
  match e with
  | Request _ _ => False
  | _ => True
  end.

(** The result of [cancelAllOrdersOnAll] for an account. *)
Definition cancel_result (a : AccountConfig) (cancelled : bool) : TradeResult :=
  {| accountId := id a; accountName := name a; success := cancelled;
     message := if cancelled then "Ордера отменены" else "Ошибка отмены";
     orderId := None; executedPrice := None; executedVolume := None;
     resLeverage := None |}.

(** The events of a batch that only cancels the orders for a symbol: no
    other request, no wait and no timer. *)
Definition cancel_only (sym : string) (e : Event) : Prop :=
  match e with
  | Request _ (CancelAllOrders s) => s = sym
  | Request _ _ | Sleep _ | SetTimeout _ _ => False
  | _ => True
  end.

(** A call of the monitoring interface of the engine. *)
Inductive MonitorCall :=
| StartCall (intervalMs : option Q)
| StopCall.

Definition monitor_step (m : CopyTradingEngine.Monitor) (call : MonitorCall)
    : CopyTradingEngine.Monitor :=
  match call with
  | StartCall intervalMs => fst (CopyTradingEngine.startMonitoring intervalMs m)
  | StopCall => fst (CopyTradingEngine.stopMonitoring m)
  end.

(** The engine after a sequence of calls, from its construction. *)
Definition monitor_after (calls : list MonitorCall) : CopyTradingEngine.Monitor :=
  List.fold_left monitor_step calls CopyTradingEngine.new_monitor.

(** The handle that the engine holds is the only interval that is set. *)
Definition monitor_ok (m : CopyTradingEngine.Monitor) : Prop :=
  match CopyTradingEngine.pollInterval m with
  | Some handle =>
      CopyTradingEngine.isRunning m = true
      /\ exists ms, CopyTradingEngine.intervals m = [(handle, ms)]
  | None =>
      CopyTradingEngine.isRunning m = false /\ CopyTradingEngine.intervals m = []
  end.

(** A text without underscore. *)
Fixpoint no_underscore (s : string) : bool :=
  match s with
  | EmptyString => true
  | String c rest => negb (Ascii.eqb c "_") && no_underscore rest
  end.

(** * Properties *)

(** ** Reasoning about computations *)

Section Computations.

Context {A B : Type}.

Lemma run_ret (a : A) w : ret a w = (Ret a, w, []).
Proof. reflexivity. Qed.

Lemma run_emit (e : Event) (k : unit -> M B) w :
  (emit e ≫= k) w = (result (k tt w), world (k tt w), e :: events (k tt w)).
Proof.
  unfold mbind, M_bind, bind, emit, result, world, events.
  destruct (k tt w) as [[r w1] t1]. reflexivity.
Qed.

Lemma run_random (k : Q -> M B) w :
  (random ≫= k) w = k (hd 0 (draws w)) (set_draws (tl (draws w)) w).
Proof.
  unfold mbind, M_bind, bind, random.
  destruct (k _ _) as [[r w1] t1]. reflexivity.
Qed.

Lemma run_get {C} (g : World -> C) (k : C -> M B) w :
  (get g ≫= k) w = k (g w) w.
Proof.
  unfold mbind, M_bind, bind, get.
  destruct (k _ _) as [[r w1] t1]. reflexivity.
Qed.

Lemma run_ret_bind (a : A) (k : A -> M B) w : (ret a ≫= k) w = k a w.
Proof.
  unfold mbind, M_bind, bind, ret.
  destruct (k _ _) as [[r w1] t1]. reflexivity.
Qed.

Lemma run_bind (m : M A) (f : A -> M B) w :
  (m ≫= f) w =
  match m w with
  | (Ret a, w1, t1) => (result (f a w1), world (f a w1), t1 ++ events (f a w1))
  | (Throw e, w1, t1) => (Throw e, w1, t1)
  end.
Proof.
  unfold mbind, M_bind, bind, result, world, events.
  destruct (m w) as [[[a | e] w1] t1]; [| reflexivity].
  destruct (f a w1) as [[r w2] t2]. reflexivity.
Qed.

Lemma run_try_catch (m : M A) (h : string -> M A) w :
  try_catch m h w =
  match m w with
  | (Ret a, w1, t1) => (Ret a, w1, t1)
  | (Throw e, w1, t1) => (result (h e w1), world (h e w1), t1 ++ events (h e w1))
  end.
Proof.
  unfold try_catch, result, world, events.
  destruct (m w) as [[[a | e] w1] t1]; [reflexivity |].
  destruct (h e w1) as [[r w2] t2]. reflexivity.
Qed.

Lemma run_bind_ret (m : M A) (k : A -> M B) w a :
  result (m w) = Ret a ->
  (m ≫= k) w =
  (result (k a (world (m w))), world (k a (world (m w))),
   events (m w) ++ events (k a (world (m w)))).
Proof.
  intros H. rewrite run_bind. unfold result, world, events in *.
  destruct (m w) as [[r w1] t1]. simpl in *. subst r. reflexivity.
Qed.

End Computations.

(** [m] never ends with an exception. *)
Definition total {A} (m : M A) : Prop :=
  forall w, exists a, result (m w) = Ret a.


(** Every event [m] emits satisfies [P]. *)
Definition emits {A} (P : Event -> Prop) (m : M A) : Prop :=
  forall w, Forall P (events (m w)).

(** [m] leaves the configuration, the client registry and the exchange as
    they are. *)
Definition keeps {A} (m : M A) : Prop :=
  forall w, config (world (m w)) = config w
            /\ clients (world (m w)) = clients w
            /\ exchange (world (m w)) = exchange w.

Section Rules.

Context {A B : Type}.
Implicit Types (m : M A) (f : A -> M B) (h : string -> M A).

Lemma total_ret (a : A) : total (ret a).
Proof. intros w. exists a. reflexivity. Qed.

Lemma total_bind m f : total m -> (forall a, total (f a)) -> total (m ≫= f).
Proof.
  intros Hm Hf w. rewrite run_bind.
  destruct (Hm w) as [a Ha]. unfold result in Ha.
  destruct (m w) as [[r w1] t1]. simpl in Ha. subst r.
  destruct (Hf a w1) as [b Hb]. exists b. exact Hb.
Qed.

Lemma total_try_catch m h : (forall e, total (h e)) -> total (try_catch m h).
Proof.
  intros Hh w. rewrite run_try_catch.
  destruct (m w) as [[[a | e] w1] t1].
  - exists a. reflexivity.
  - destruct (Hh e w1) as [b Hb]. exists b. exact Hb.
Qed.




Lemma emits_ret (P : Event -> Prop) (a : A) : emits P (ret a).
Proof. intros w. constructor. Qed.

Lemma emits_throw (P : Event -> Prop) e : emits P (@throw A e).
Proof. intros w. constructor. Qed.

Lemma emits_bind (P : Event -> Prop) m f :
  emits P m -> (forall a, emits P (f a)) -> emits P (m ≫= f).
Proof.
  intros Hm Hf w. rewrite run_bind. specialize (Hm w). unfold events in *.
  destruct (m w) as [[[a | e] w1] t1]; simpl in *; [| exact Hm].
  apply Forall_app. split; [exact Hm | apply Hf].
Qed.

Lemma emits_try_catch (P : Event -> Prop) m h :
  emits P m -> (forall e, emits P (h e)) -> emits P (try_catch m h).
Proof.
  intros Hm Hh w. rewrite run_try_catch. specialize (Hm w). unfold events in *.
  destruct (m w) as [[[a | e] w1] t1]; simpl in *; [exact Hm |].
  apply Forall_app. split; [exact Hm | apply Hh].
Qed.

Lemma keeps_ret (a : A) : keeps (ret a).
Proof. intros w. repeat split. Qed.

Lemma keeps_throw e : keeps (@throw A e).
Proof. intros w. repeat split. Qed.

Lemma keeps_bind m f : keeps m -> (forall a, keeps (f a)) -> keeps (m ≫= f).
Proof.
  intros Hm Hf w. rewrite run_bind. specialize (Hm w). unfold world in *.
  destruct (m w) as [[[a | e] w1] t1]; simpl in *; [| exact Hm].
  destruct Hm as (H1 & H2 & H3). destruct (Hf a w1) as (G1 & G2 & G3).
  unfold world in *. repeat split; congruence.
Qed.

Lemma keeps_try_catch m h :
  keeps m -> (forall e, keeps (h e)) -> keeps (try_catch m h).
Proof.
  intros Hm Hh w. rewrite run_try_catch. specialize (Hm w). unfold world in *.
  destruct (m w) as [[[a | e] w1] t1]; simpl in *; [exact Hm |].
  destruct Hm as (H1 & H2 & H3). destruct (Hh e w1) as (G1 & G2 & G3).
  unfold world in *. repeat split; congruence.
Qed.

End Rules.

Lemma total_get {A} (f : World -> A) : total (get f).
Proof. intros w. eexists. reflexivity. Qed.

Lemma total_emit e : total (emit e).
Proof. intros w. eexists. reflexivity. Qed.

Lemma total_random : total random.
Proof. intros w. eexists. reflexivity. Qed.

Lemma total_modify f : total (modify f).
Proof. intros w. eexists. reflexivity. Qed.

Lemma emits_get {A} P (f : World -> A) : emits P (get f).
Proof. intros w. constructor. Qed.

Lemma emits_emit (P : Event -> Prop) e : P e -> emits P (emit e).
Proof. intros H w. repeat constructor. exact H. Qed.

Lemma emits_random P : emits P random.
Proof. intros w. constructor. Qed.

Lemma emits_modify P f : emits P (modify f).
Proof. intros w. constructor. Qed.

Lemma emits_request {A} (P : Event -> Prop) a r (answer : Exchange -> nat -> Reply A) :
  P (Request a r) -> emits P (request a r answer).
Proof.
  intros H w. unfold request, events.
  destruct (answer (exchange w) (requests w)); repeat constructor; exact H.
Qed.

Lemma keeps_get {A} (f : World -> A) : keeps (get f).
Proof. intros w. repeat split. Qed.

Lemma keeps_emit e : keeps (emit e).
Proof. intros w. repeat split. Qed.

Lemma keeps_random : keeps random.
Proof. intros w. repeat split. Qed.

Lemma keeps_request {A} a r (answer : Exchange -> nat -> Reply A) :
  keeps (request a r answer).
Proof.
  intros w. unfold request, world.
  destruct (answer (exchange w) (requests w)); repeat split.
Qed.

Lemma keeps_set_lastKnownPositions f :
  keeps (modify (fun w => set_lastKnownPositions (f w) w)).
Proof. intros w. repeat split. Qed.

(** Loops. *)

Lemma total_iter {X} (body : X -> M unit) xs :
  (forall x, total (body x)) -> total (iter body xs).
Proof.
  intros Hb. induction xs as [| x xs IH]; simpl.
  - apply total_ret.
  - apply total_bind; [apply Hb | intros _; exact IH].
Qed.

Lemma emits_iter {X} P (body : X -> M unit) xs :
  (forall x, In x xs -> emits P (body x)) -> emits P (iter body xs).
Proof.
  induction xs as [| x xs IH]; simpl; intros Hb.
  - apply emits_ret.
  - apply emits_bind; [apply Hb; now left | intros _; apply IH].
    intros y Hy. apply Hb. now right.
Qed.

Lemma keeps_iter {X} (body : X -> M unit) xs :
  (forall x, keeps (body x)) -> keeps (iter body xs).
Proof.
  intros Hb. induction xs as [| x xs IH]; simpl.
  - apply keeps_ret.
  - apply keeps_bind; [apply Hb | intros _; exact IH].
Qed.

Lemma total_for_each_from {X R} (body : nat -> X -> M (list R)) xs :
  (forall i x, total (body i x)) -> forall k, total (for_each_from k body xs).
Proof.
  intros Hb. induction xs as [| x xs IH]; simpl; intros k.
  - apply total_ret.
  - apply total_bind; [apply Hb |]. intros rs.
    apply total_bind; [apply IH |]. intros rest. apply total_ret.
Qed.

Lemma emits_for_each_from {X R} P (body : nat -> X -> M (list R)) xs :
  (forall i x, In x xs -> emits P (body i x)) ->
  forall k, emits P (for_each_from k body xs).
Proof.
  induction xs as [| x xs IH]; simpl; intros Hb k.
  - apply emits_ret.
  - apply emits_bind; [apply Hb; now left |]. intros rs.
    apply emits_bind; [| intros rest; apply emits_ret].
    apply IH. intros i y Hy. apply Hb. now right.
Qed.

Lemma keeps_for_each_from {X R} (body : nat -> X -> M (list R)) xs :
  (forall i x, keeps (body i x)) -> forall k, keeps (for_each_from k body xs).
Proof.
  intros Hb. induction xs as [| x xs IH]; simpl; intros k.
  - apply keeps_ret.
  - apply keeps_bind; [apply Hb |]. intros rs.
    apply keeps_bind; [apply IH |]. intros rest. apply keeps_ret.
Qed.

Lemma total_push_each {X R} (body : X -> M R) xs : total (push_each body xs).
Proof.
  induction xs as [| x xs IH]; simpl; intros w.
  - eexists. reflexivity.
  - unfold result. destruct (body x w) as [[[r | e] w1] t1].
    + destruct (IH w1) as [[rs exn] H]. unfold result in H.
      destruct (push_each body xs w1) as [[res w2] t2]. simpl in H. subst res.
      eexists. reflexivity.
    + eexists. reflexivity.
Qed.

Lemma emits_push_each {X R} P (body : X -> M R) xs :
  (forall x, emits P (body x)) -> emits P (push_each body xs).
Proof.
  intros Hb. induction xs as [| x xs IH]; simpl; intros w.
  - constructor.
  - specialize (Hb x w). unfold events in *.
    destruct (body x w) as [[[r | e] w1] t1]; simpl in *; [| exact Hb].
    specialize (IH w1). unfold events in IH.
    destruct (push_each body xs w1) as [[[[rs exn] | e] w2] t2]; simpl in *;
      apply Forall_app; split; assumption.
Qed.

Lemma keeps_push_each {X R} (body : X -> M R) xs :
  (forall x, keeps (body x)) -> keeps (push_each body xs).
Proof.
  intros Hb. induction xs as [| x xs IH]; simpl; intros w.
  - repeat split.
  - specialize (Hb x w). unfold world in *.
    destruct (body x w) as [[[r | e] w1] t1]; simpl in *; [| exact Hb].
    specialize (IH w1). unfold world in IH. destruct Hb as (H1 & H2 & H3).
    destruct (push_each body xs w1) as [[[[rs exn] | e] w2] t2]; simpl in *;
      destruct IH as (G1 & G2 & G3); repeat split; congruence.
Qed.


(** ** Properties of helpers.ts *)

(** C8. For a base price p > 0, a bound d >= 0 and a draw in [0,1),
    applyPriceDeviation returns a price in [p, p*(1+d/100)] for direction
    long and a price in [p*(1-d/100), p] for direction short. *)
Theorem applyPriceDeviation_bounds (r p d : Q) :
  0 < p -> 0 <= d -> unit_draw r ->
  (p <= applyPriceDeviation r p d long
   /\ applyPriceDeviation r p d long <= p * (1 + d / 100))
  /\ (p * (1 - d / 100) <= applyPriceDeviation r p d short
      /\ applyPriceDeviation r p d short <= p).
Proof.
  intros Hp Hd [Hr0 Hr1]. unfold applyPriceDeviation.
  assert (Hrd0 : 0 <= r * d) by nra.
  assert (Hrd1 : r * d <= d) by nra.
  assert (Hq0 : 0 <= r * d / 100).
  { unfold Qdiv. apply Qmult_le_0_compat; [exact Hrd0 | discriminate]. }
  assert (Hq1 : r * d / 100 <= d / 100).
  { unfold Qdiv. apply Qmult_le_compat_r; [exact Hrd1 | discriminate]. }
  repeat split; nra.
Qed.

Lemma applyPriceDeviation_bounds_witness :
  (100 <= applyPriceDeviation (1 # 2) 100 1 long
   /\ applyPriceDeviation (1 # 2) 100 1 long <= 100 * (1 + 1 / 100))
  /\ (100 * (1 - 1 / 100) <= applyPriceDeviation (1 # 2) 100 1 short
      /\ applyPriceDeviation (1 # 2) 100 1 short <= 100).
Proof.
  apply (applyPriceDeviation_bounds (1 # 2) 100 1).
  - reflexivity.
  - discriminate.
  - split; [discriminate | reflexivity].
Defined.


(** ** client.ts *)

Section Client.

Import MexcClientWrapper.

Variable c : Client.

(** A run of [getOpenPositions], by the answer of the exchange. *)
Lemma getOpenPositions_run sym w :
  getOpenPositions c sym w =
  let params := symbol_param sym in
  let asked := Request (c_accountId c) (GetOpenPositions params) in
  match sdk_getOpenPositions (exchange w) (requests w) (c_accountId c) params with
  | Answer res =>
      (Ret (List.map to_position (List.filter holds (default [] res))),
       set_requests (S (requests w)) w, [asked])
  | Raise err =>
      (Ret [], set_requests (S (requests w)) w,
       [asked; LogError (bracket (c_accountName c)) (PositionsError err)])
  end.
Proof.
  unfold getOpenPositions. rewrite run_try_catch, run_bind. unfold request.
  destruct (sdk_getOpenPositions _ _ _ _); reflexivity.
Qed.

Lemma total_getOpenPositions sym : total (getOpenPositions c sym).
Proof.
  intros w. rewrite getOpenPositions_run. simpl.
  destruct (sdk_getOpenPositions _ _ _ _); eexists; reflexivity.
Qed.

Lemma total_hasOpenPosition sym : total (hasOpenPosition c sym).
Proof.
  apply total_bind; [apply total_getOpenPositions | intros; apply total_ret].
Qed.

Lemma total_cancelAllOrders sym : total (cancelAllOrders c sym).
Proof.
  apply total_try_catch. intros e.
  apply total_bind; [apply total_emit | intros; apply total_ret].
Qed.

Lemma total_getContractInfo sym : total (getContractInfo c sym).
Proof.
  apply total_try_catch. intros e.
  apply total_bind; [apply total_emit | intros; apply total_ret].
Qed.

Lemma total_getCurrentPrice sym : total (getCurrentPrice c sym).
Proof.
  apply total_try_catch. intros e.
  apply total_bind; [apply total_emit | intros; apply total_ret].
Qed.

Lemma total_setTpSl sym sd tp sl : total (setTpSl c sym sd tp sl).
Proof.
  apply total_try_catch. intros e.
  apply total_bind; [apply total_emit | intros; apply total_ret].
Qed.

(** The last entry into the loop of [submitOrder]: with [attempt] past 0
    nothing is retried. *)
Lemma submitOrder_loop_last fuel params attempt w :
  attempt <> 0%nat ->
  submitOrder_loop (S fuel) c params attempt w =
  let asked := Request (c_accountId c) (SubmitOrder params) in
  let w' := set_requests (S (requests w)) w in
  match sdk_submitOrder (exchange w) (requests w) (c_accountId c) params with
  | Answer res =>
      (Ret (read_answer res), w',
       if reported_failure res then [asked]
       else [asked; Log (bracket (c_accountName c)) (OrderPlaced (ord_id (read_answer res)))])
  | Raise m =>
      (Ret (rejected m), w',
       [asked; LogError (bracket (c_accountName c)) (OrderError m)])
  end.
Proof.
  intros Hattempt. simpl. rewrite run_try_catch, run_bind. unfold request.
  destruct (sdk_submitOrder _ _ _ _) as [res | m].
  - destruct res as [[[[|] |] m1 d o] |]; reflexivity.
  - replace (Nat.eqb attempt 0) with false
      by (symmetry; apply Nat.eqb_neq; exact Hattempt).
    rewrite andb_false_r. reflexivity.
Qed.

(** The first entry into the loop. *)
Lemma submitOrder_loop_first fuel params w :
  submitOrder_loop (S (S fuel)) c params 0 w =
  let asked := Request (c_accountId c) (SubmitOrder params) in
  let w1 := set_requests (S (requests w)) w in
  match sdk_submitOrder (exchange w) (requests w) (c_accountId c) params with
  | Answer res =>
      (Ret (read_answer res), w1,
       if reported_failure res then [asked]
       else [asked; Log (bracket (c_accountName c)) (OrderPlaced (ord_id (read_answer res)))])
  | Raise m =>
      if isRateLimit m then
        let backoff := 500 + hd 0 (draws w) * 700 in
        let w2 := set_draws (tl (draws w)) w1 in
        let again := submitOrder_loop (S fuel) c params 1 w2 in
        (result again, world again,
         [asked; Log (bracket (c_accountName c)) (RateLimitRetry (Js.round backoff));
          Sleep backoff] ++ events again)
      else
        (Ret (rejected m), w1,
         [asked; LogError (bracket (c_accountName c)) (OrderError m)])
  end.
Proof.
  remember (S fuel) as f eqn:Hf.
  cbn [submitOrder_loop]. rewrite run_try_catch, run_bind. unfold request at 1.
  destruct (sdk_submitOrder _ _ _ _) as [res | m].
  - destruct res as [[[[|] |] m1 d o] |]; reflexivity.
  - cbn [result world events fst snd]. rewrite andb_true_r.
    destruct (isRateLimit m); [| reflexivity].
    rewrite run_random. unfold log, logError, sleep. rewrite !run_emit.
    cbn [result world events fst snd app draws set_requests]. reflexivity.
Qed.

(** Two entries are all the loop ever makes: more fuel changes nothing. *)
Lemma submitOrder_enough_fuel fuel params w :
  submitOrder_loop (S (S fuel)) c params 0 w = submitOrder c params w.
Proof.
  unfold submitOrder. rewrite !submitOrder_loop_first.
  destruct (sdk_submitOrder _ _ _ _) as [res | m]; [reflexivity |].
  destruct (isRateLimit m); [| reflexivity].
  cbv zeta. rewrite !submitOrder_loop_last by discriminate. reflexivity.
Qed.

Lemma total_submitOrder params : total (submitOrder c params).
Proof.
  intros w. unfold submitOrder. rewrite submitOrder_loop_first.
  destruct (sdk_submitOrder _ _ _ _) as [res | m].
  - eexists. reflexivity.
  - destruct (isRateLimit m); [| eexists; reflexivity].
    cbv zeta. rewrite submitOrder_loop_last by discriminate.
    cbv zeta. destruct (sdk_submitOrder _ _ _ _); eexists; reflexivity.
Qed.

End Client.

(** C10. getOpenPositions never ends with an exception: whatever the
    exchange does, it returns a list; when the query to the exchange throws,
    that list is empty, which is also what it returns for an account that
    holds no position, so the two cases give the caller the same value. *)
Theorem getOpenPositions_swallows_failure (c : Client) (sym : option string)
    (w w' : World) (err : string) :
  sdk_getOpenPositions (exchange w) (requests w) (c_accountId c)
    (MexcClientWrapper.symbol_param sym) = Raise err ->
  sdk_getOpenPositions (exchange w') (requests w') (c_accountId c)
    (MexcClientWrapper.symbol_param sym) = Answer (Some []) ->
  total (MexcClientWrapper.getOpenPositions c sym)
  /\ result (MexcClientWrapper.getOpenPositions c sym w) = Ret []
  /\ result (MexcClientWrapper.getOpenPositions c sym w')
     = result (MexcClientWrapper.getOpenPositions c sym w).
Proof.
  intros Hfail Hnone. split; [apply total_getOpenPositions |].
  rewrite !getOpenPositions_run. cbv zeta. rewrite Hfail, Hnone.
  split; reflexivity.
Qed.

Lemma getOpenPositions_swallows_failure_witness :
  total (MexcClientWrapper.getOpenPositions (Sample.client_of Sample.alice) None)
  /\ result (MexcClientWrapper.getOpenPositions (Sample.client_of Sample.alice) None
               (Sample.world_of (Sample.roster [Sample.alice]) [Sample.alice]
                  Sample.unreachable [])) = Ret []
  /\ result (MexcClientWrapper.getOpenPositions (Sample.client_of Sample.alice) None
               (Sample.world_of (Sample.roster [Sample.alice]) [Sample.alice]
                  Sample.flat []))
     = result (MexcClientWrapper.getOpenPositions (Sample.client_of Sample.alice) None
                 (Sample.world_of (Sample.roster [Sample.alice]) [Sample.alice]
                    Sample.unreachable [])).
Proof.
  apply (getOpenPositions_swallows_failure (Sample.client_of Sample.alice) None
           (Sample.world_of (Sample.roster [Sample.alice]) [Sample.alice]
              Sample.unreachable [])
           (Sample.world_of (Sample.roster [Sample.alice]) [Sample.alice]
              Sample.flat [])
           "socket hang up"); reflexivity.
Defined.

(** C9. submitOrder sends the order a second time exactly when the first
    call to the exchange throws an error classified as rate limiting, after a
    wait of 500 + 700 * draw milliseconds, which lies in [500, 1200); the
    second call is the last one whatever it gives.  A thrown error that is
    not rate limiting, or a second thrown error, is returned as a failure
    with its message; an answer that reports a failure is returned as a
    failure with the reported message; any other answer is returned as a
    success with the order identifier.  The call never ends with an
    exception. *)
Theorem submitOrder_retry_policy (c : Client) (params : SubmitParams) (w : World) :
  unit_draw (hd 0 (draws w)) ->
  let a := c_accountId c in
  let out := MexcClientWrapper.submitOrder c params w in
  let first := sdk_submitOrder (exchange w) (requests w) a params in
  let second := sdk_submitOrder (exchange w) (S (requests w)) a params in
  let backoff := 500 + hd 0 (draws w) * 700 in
  match first with
  | Answer res =>
      submits (events out) = [(a, params)]
      /\ sleeps (events out) = []
      /\ result out = Ret (read_answer res)
  | Raise m =>
      if MexcClientWrapper.isRateLimit m then
        submits (events out) = [(a, params); (a, params)]
        /\ sleeps (events out) = [backoff]
        /\ (500 <= backoff /\ backoff < 1200)
        /\ result out = Ret match second with
                            | Answer res => read_answer res
                            | Raise m2 => rejected m2
                            end
      else
        submits (events out) = [(a, params)]
        /\ sleeps (events out) = []
        /\ result out = Ret (rejected m)
  end.
Proof.
  intros [Hr0 Hr1]. cbv zeta. unfold MexcClientWrapper.submitOrder.
  rewrite submitOrder_loop_first. cbv zeta.
  destruct (sdk_submitOrder (exchange w) (requests w) (c_accountId c) params)
    as [res | m].
  - destruct (reported_failure res); repeat split; reflexivity.
  - destruct (MexcClientWrapper.isRateLimit m); [| repeat split; reflexivity].
    rewrite submitOrder_loop_last by discriminate.
    cbv zeta. cbn [exchange requests set_draws set_requests].
    destruct (sdk_submitOrder (exchange w) (S (requests w)) (c_accountId c) params)
      as [res2 | m2]; [destruct (reported_failure res2) |];
      (split; [reflexivity |]); (split; [reflexivity |]);
      (split; [split; nra | reflexivity]).
Qed.

Lemma submitOrder_retry_policy_witness :
  let out := MexcClientWrapper.submitOrder (Sample.client_of Sample.alice) Sample.order
               (Sample.world_of (Sample.roster [Sample.alice]) [Sample.alice]
                  Sample.throttled [1 # 2]) in
  submits (events out) = [("a1", Sample.order); ("a1", Sample.order)]
  /\ sleeps (events out) = [500 + (1 # 2) * 700]
  /\ (500 <= 500 + (1 # 2) * 700 /\ 500 + (1 # 2) * 700 < 1200)
  /\ result out = Ret (read_answer (Some Sample.accepted)).
Proof.
  apply (submitOrder_retry_policy (Sample.client_of Sample.alice) Sample.order
           (Sample.world_of (Sample.roster [Sample.alice]) [Sample.alice]
              Sample.throttled [1 # 2])).
  split; [discriminate | reflexivity].
Defined.

(** ** Tactics that follow the structure of a computation *)

Create HintDb engine.

#[local] Hint Unfold
  MexcClientWrapper.getOpenPositions MexcClientWrapper.hasOpenPosition
  MexcClientWrapper.getContractInfo MexcClientWrapper.cancelAllOrders
  MexcClientWrapper.openPosition MexcClientWrapper.closePosition
  MexcClientWrapper.setTpSl MexcClientWrapper.getCurrentPrice
  getClient log logError sleep
  CopyTradingEngine.copyOpen_account CopyTradingEngine.copyOpenPosition
  CopyTradingEngine.copyClose_account CopyTradingEngine.copyClosePosition
  CopyTradingEngine.replicate_opened CopyTradingEngine.replicate_closed
  CopyTradingEngine.checkMasterChanges
  CopyTradingEngine.manualOpen_account CopyTradingEngine.manualOpenPosition
  CopyTradingEngine.manualClose_position CopyTradingEngine.manualClose_account
  CopyTradingEngine.manualClosePosition
  CopyTradingEngine.setTpSl_account CopyTradingEngine.setTpSlOnAll
  Signals.cancel_timer_fires Signals.signal_account Signals.handleTradeSignal
  : engine.

Ltac split_scrutinee :=
  match goal with
  | |- context [match ?x with _ => _ end] =>
      lazymatch x with
      | context [match _ with _ => _ end] => fail
      | _ => destruct x eqn:?
      end
  end.

Ltac total_step :=
  lazymatch goal with
  | |- total (ret _) => apply total_ret
  | |- total (get _) => apply total_get
  | |- total random => apply total_random
  | |- total (modify _) => apply total_modify
  | |- total (emit _) => apply total_emit
  | |- total (MexcClientWrapper.submitOrder _ _) => apply total_submitOrder
  | |- total (_ ≫= _) => apply total_bind; [| intros ?]
  | |- total (try_catch _ _) => apply total_try_catch; intros ?
  | |- total (iter _ _) => apply total_iter; intros ?
  | |- total (for_each_from _ _ _) => apply total_for_each_from; intros ? ?
  | |- total (push_each _ _) => apply total_push_each
  | |- total (match _ with _ => _ end) => split_scrutinee
  | |- total _ => progress autounfold with engine
  end.

Ltac total_tac := repeat total_step.

Ltac keeps_step :=
  lazymatch goal with
  | |- keeps (ret _) => apply keeps_ret
  | |- keeps (throw _) => apply keeps_throw
  | |- keeps (get _) => apply keeps_get
  | |- keeps random => apply keeps_random
  | |- keeps (emit _) => apply keeps_emit
  | |- keeps (request _ _ _) => apply keeps_request
  | |- keeps (modify (fun w => set_lastKnownPositions _ w)) =>
      apply keeps_set_lastKnownPositions
  | |- keeps (_ ≫= _) => apply keeps_bind; [| intros ?]
  | |- keeps (try_catch _ _) => apply keeps_try_catch; [| intros ?]
  | |- keeps (iter _ _) => apply keeps_iter; intros ?
  | |- keeps (for_each_from _ _ _) => apply keeps_for_each_from; intros ? ?
  | |- keeps (push_each _ _) => apply keeps_push_each; intros ?
  | |- keeps (match _ with _ => _ end) => split_scrutinee
  | |- keeps _ => progress autounfold with engine
  end.

Lemma emits_ret_bind {A B} (P : Event -> Prop) (a : A) (k : A -> M B) :
  emits P (k a) -> emits P (ret a ≫= k).
Proof. intros H w. rewrite run_ret_bind. apply H. Qed.

Ltac emits_step :=
  lazymatch goal with
  | |- emits _ (ret _ ≫= _) => apply emits_ret_bind
  | |- emits _ (ret _) => apply emits_ret
  | |- emits _ (throw _) => apply emits_throw
  | |- emits _ (get _) => apply emits_get
  | |- emits _ random => apply emits_random
  | |- emits _ (modify _) => apply emits_modify
  | |- emits _ (emit _) => apply emits_emit
  | |- emits _ (request _ _ _) => apply emits_request
  | |- emits _ (_ ≫= _) => apply emits_bind; [| intros ?]
  | |- emits _ (try_catch _ _) => apply emits_try_catch; [| intros ?]
  | |- emits _ (iter _ _) => apply emits_iter; intros ? ?
  | |- emits _ (for_each_from _ _ _) => apply emits_for_each_from; intros ? ? ?
  | |- emits _ (push_each _ _) => apply emits_push_each; intros ?
  | |- emits _ (match _ with _ => _ end) => split_scrutinee
  | |- emits _ _ => progress autounfold with engine
  end.

Lemma keeps_submitOrder_loop c params fuel :
  forall attempt, keeps (MexcClientWrapper.submitOrder_loop fuel c params attempt).
Proof.
  induction fuel as [| fuel IH]; intros attempt; cbn [MexcClientWrapper.submitOrder_loop].
  - apply keeps_throw.
  - repeat first [apply IH | keeps_step].
Qed.

Lemma keeps_submitOrder c params : keeps (MexcClientWrapper.submitOrder c params).
Proof. apply keeps_submitOrder_loop. Qed.

Ltac keeps_tac := repeat first [apply keeps_submitOrder | keeps_step].

(** What [submitOrder] emits: the order, once or twice, two log lines, an
    error line and the wait before the retry. *)
Lemma emits_submitOrder (P : Event -> Prop) c params :
  P (Request (c_accountId c) (SubmitOrder params)) ->
  (forall oid, P (Log (bracket (c_accountName c)) (OrderPlaced oid))) ->
  (forall ms, P (Log (bracket (c_accountName c)) (RateLimitRetry ms))) ->
  (forall m, P (LogError (bracket (c_accountName c)) (OrderError m))) ->
  (forall ms, P (Sleep ms)) ->
  emits P (MexcClientWrapper.submitOrder c params).
Proof.
  intros Hreq Hplaced Hretry Herr Hsleep.
  unfold MexcClientWrapper.submitOrder.
  assert (H : forall fuel attempt,
             emits P (MexcClientWrapper.submitOrder_loop fuel c params attempt));
    [| apply H].
  induction fuel as [| fuel IH]; intros attempt; cbn [MexcClientWrapper.submitOrder_loop].
  - apply emits_throw.
  - repeat first [apply IH | emits_step]; auto.
Qed.

Ltac emits_tac :=
  repeat first [apply emits_submitOrder | emits_step]; try (intros; exact I).

(** ** copyTrader.ts: the watcher *)

Section Watcher.

Import CopyTradingEngine.

Lemma announced_open_app a b :
  announced_open (a ++ b) = announced_open a ++ announced_open b.
Proof.
  induction a as [| e a IH]; [reflexivity |].
  destruct e as [| | pre [] | | | | |]; simpl; rewrite ?IH; reflexivity.
Qed.

Lemma announced_closed_app a b :
  announced_closed (a ++ b) = announced_closed a ++ announced_closed b.
Proof.
  induction a as [| e a IH]; [reflexivity |].
  destruct e as [| | pre [] | | | | |]; simpl; rewrite ?IH; reflexivity.
Qed.

Lemma quiet_announced evs :
  Forall quiet evs -> announced_open evs = [] /\ announced_closed evs = [].
Proof.
  induction 1 as [| e evs He _ [IH1 IH2]]; [split; reflexivity |].
  destruct e as [| | pre [] | | | | |]; simpl in *; try contradiction; auto.
Qed.

Lemma total_copyOpenPosition p : total (copyOpenPosition p).
Proof. total_tac. Qed.

Lemma total_copyClosePosition p : total (copyClosePosition p).
Proof. total_tac. Qed.

Lemma quiet_copyOpenPosition p : emits quiet (copyOpenPosition p).
Proof. emits_tac. Qed.

Lemma quiet_copyClosePosition p : emits quiet (copyClosePosition p).
Proof. emits_tac. Qed.

Lemma replicate_opened_run previous xs : forall w,
  result (iter (replicate_opened previous) xs w) = Ret tt
  /\ announced_open (events (iter (replicate_opened previous) xs w))
     = List.map key (List.filter (fun p => negb (found p previous)) xs)
  /\ announced_closed (events (iter (replicate_opened previous) xs w)) = [].
Proof.
  induction xs as [| x xs IH]; intros w; [repeat split |].
  cbn [iter List.filter].
  assert (Hbody : exists w1 t1,
             replicate_opened previous x w = (Ret tt, w1, t1)
             /\ announced_open t1
                = (if negb (found x previous) then [key x] else [])
             /\ announced_closed t1 = []).
  { unfold replicate_opened. destruct (negb (found x previous)).
    - unfold log. rewrite run_emit.
      destruct (total_copyOpenPosition x w) as [[] Hres].
      destruct (quiet_announced _ (quiet_copyOpenPosition x w)) as [Ho Hc].
      unfold result, world, events in *.
      destruct (copyOpenPosition x w) as [[r w1] t1]. simpl in *. subst r.
      exists w1, (Log "[CopyTrader]" (NewPositionDetected (symbol x) (side x)) :: t1).
      simpl. rewrite Ho, Hc. repeat split.
    - exists w, []. repeat split. }
  destruct Hbody as (w1 & t1 & Hrun & Ho & Hc).
  rewrite (run_bind_ret _ _ w tt) by (rewrite Hrun; reflexivity).
  rewrite Hrun. cbn [result world events fst snd].
  destruct (IH w1) as (Hr & Ho' & Hc').
  rewrite announced_open_app, announced_closed_app, Ho, Hc, Ho', Hc'.
  split; [exact Hr |]. split; [| reflexivity].
  destruct (negb (found x previous)); reflexivity.
Qed.

Lemma replicate_closed_run current xs : forall w,
  result (iter (replicate_closed current) xs w) = Ret tt
  /\ announced_closed (events (iter (replicate_closed current) xs w))
     = List.map key (List.filter (fun p => negb (found p current)) xs)
  /\ announced_open (events (iter (replicate_closed current) xs w)) = [].
Proof.
  induction xs as [| x xs IH]; intros w; [repeat split |].
  cbn [iter List.filter].
  assert (Hbody : exists w1 t1,
             replicate_closed current x w = (Ret tt, w1, t1)
             /\ announced_closed t1
                = (if negb (found x current) then [key x] else [])
             /\ announced_open t1 = []).
  { unfold replicate_closed. destruct (negb (found x current)).
    - unfold log. rewrite run_emit.
      destruct (total_copyClosePosition x w) as [[] Hres].
      destruct (quiet_announced _ (quiet_copyClosePosition x w)) as [Ho Hc].
      unfold result, world, events in *.
      destruct (copyClosePosition x w) as [[r w1] t1]. simpl in *. subst r.
      exists w1, (Log "[CopyTrader]" (PositionClosedDetected (symbol x) (side x)) :: t1).
      simpl. rewrite Ho, Hc. repeat split.
    - exists w, []. repeat split. }
  destruct Hbody as (w1 & t1 & Hrun & Hc & Ho).
  rewrite (run_bind_ret _ _ w tt) by (rewrite Hrun; reflexivity).
  rewrite Hrun. cbn [result world events fst snd].
  destruct (IH w1) as (Hr & Hc' & Ho').
  rewrite announced_open_app, announced_closed_app, Ho, Hc, Ho', Hc'.
  split; [exact Hr |]. split; [| reflexivity].
  destruct (negb (found x current)); reflexivity.
Qed.

(** A tick of the watcher: what is announced for replication and what the
    snapshot becomes, by the two lists that are compared. *)
Lemma checkMasterChanges_run w master client :
  ConfigStorage.getMasterAccount (config w) = Some master ->
  clients w !! id master = Some client ->
  let out := checkMasterChanges w in
  let current :=
    reported (sdk_getOpenPositions (exchange w) (requests w)
                (c_accountId client) None) in
  let previous := default [] (lastKnownPositions w !! id master) in
  result out = Ret tt
  /\ announced_open (events out)
     = List.map key (List.filter (fun p => negb (found p previous)) current)
  /\ announced_closed (events out)
     = List.map key (List.filter (fun p => negb (found p current)) previous)
  /\ lastKnownPositions (world out) !! id master = Some current.
Proof.
  intros Hmaster Hclient. cbv zeta.
  unfold checkMasterChanges. rewrite run_get, Hmaster.
  unfold getClient. rewrite run_get, Hclient.
  rewrite run_try_catch.
  set (current := reported _).
  set (previous := default [] _).
  set (w1 := set_requests (S (requests w)) w).
  assert (Hfetch : exists t0,
             MexcClientWrapper.getOpenPositions client None w = (Ret current, w1, t0)
             /\ announced_open t0 = [] /\ announced_closed t0 = []).
  { rewrite getOpenPositions_run. cbv zeta. subst current. unfold reported.
    change (MexcClientWrapper.symbol_param None) with (@None string).
    destruct (sdk_getOpenPositions _ _ _ _); eexists; repeat split. }
  destruct Hfetch as (t0 & Hfetch & Ho0 & Hc0).
  rewrite (run_bind_ret _ _ w current) by (rewrite Hfetch; reflexivity).
  rewrite Hfetch. cbn [result world events fst snd].
  rewrite run_get.
  change (default [] (lastKnownPositions w1 !! id master)) with previous.
  destruct (replicate_opened_run previous current w1) as (Hr1 & Ho1 & Hc1).
  rewrite (run_bind_ret _ _ w1 tt) by exact Hr1.
  cbn [result world events fst snd].
  set (w2 := world (iter (replicate_opened previous) current w1)).
  destruct (replicate_closed_run current previous w2) as (Hr2 & Hc2 & Ho2).
  rewrite (run_bind_ret _ _ w2 tt) by exact Hr2.
  cbn [result world events fst snd modify lastKnownPositions set_lastKnownPositions].
  rewrite !announced_open_app, !announced_closed_app.
  rewrite Ho0, Hc0, Ho1, Hc1, Ho2, Hc2.
  cbn [app]. rewrite !app_nil_r.
  repeat split. apply lookup_insert_eq.
Qed.

(** [found] tests whether the pair (symbol, side) of a position occurs in a
    list. *)
Lemma found_spec pos l : found pos l = true <-> In (key pos) (List.map key l).
Proof.
  unfold found. induction l as [| q l IH]; cbn; [split; [discriminate | tauto] |].
  destruct (same_key q pos) eqn:Hq.
  - split; [intros _ | reflexivity]. left. unfold same_key, key in *.
    apply andb_true_iff in Hq. destruct Hq as [Hs Hd].
    apply String.eqb_eq in Hs. rewrite Hs. f_equal.
    destruct (side q), (side pos); (reflexivity || discriminate).
  - rewrite IH. split; [tauto |]. intros [Heq | Hin]; [| exact Hin].
    exfalso. unfold same_key, key in *. inversion Heq as [[Hs Hd]].
    rewrite Hs, Hd, String.eqb_refl in Hq. destruct (side pos); discriminate.
Qed.

(** When no pair occurs twice in a list, none is announced twice from it. *)
Lemma announced_once (keep : Position -> bool) l :
  NoDup (List.map key l) -> NoDup (List.map key (List.filter keep l)).
Proof.
  induction l as [| p l IH]; cbn; [constructor |].
  intros H. apply NoDup_cons in H. destruct H as [Hnotin Hl].
  destruct (keep p); [| apply IH; exact Hl].
  cbn. apply NoDup_cons. split; [| apply IH; exact Hl].
  intros Hin. apply Hnotin.
  apply list_elem_of_In in Hin. apply list_elem_of_In.
  apply List.in_map_iff in Hin. destruct Hin as (q & Hq & Hin).
  apply List.filter_In in Hin. apply List.in_map_iff. exists q. tauto.
Qed.

End Watcher.

(** The two ticks of the specification: a snapshot with a long BTC_USDT and
    an empty fetch give one announcement of a close and none of an opening;
    an empty snapshot and a fetch with a short ETH_USDT give one announcement
    of an opening and none of a close. *)
Example checkMasterChanges_closed :
  let out := CopyTradingEngine.checkMasterChanges (Sample.watching Sample.flat) in
  announced_closed (events out) = [("BTC_USDT", long)]
  /\ announced_open (events out) = []
  /\ lastKnownPositions (world out) !! "a1" = Some [].
Proof. vm_compute. repeat split. Qed.

Example checkMasterChanges_opened :
  let out := CopyTradingEngine.checkMasterChanges
               (Sample.world_of (Sample.roster [Sample.alice; Sample.bob])
                  [Sample.alice; Sample.bob] Sample.master_short []) in
  announced_open (events out) = [("ETH_USDT", short)]
  /\ announced_closed (events out) = []
  /\ List.map key <$> (lastKnownPositions (world out) !! "a1")
     = Some [("ETH_USDT", short)].
Proof. vm_compute. repeat split. Qed.

(** C4, at the input where it fails.  When the query for the master's
    positions throws, the tick does not stop: the wrapper hands on an empty
    list, so every position of the stored snapshot is announced as closed and
    replicated as a close, and the stored snapshot is replaced by the empty
    list. *)
Theorem checkMasterChanges_failed_fetch (w : World) (master : AccountConfig)
    (client : Client) (err : string) :
  ConfigStorage.getMasterAccount (config w) = Some master ->
  clients w !! id master = Some client ->
  sdk_getOpenPositions (exchange w) (requests w) (c_accountId client) None
    = Raise err ->
  let out := CopyTradingEngine.checkMasterChanges w in
  announced_closed (events out)
    = List.map key (default [] (lastKnownPositions w !! id master))
  /\ announced_open (events out) = []
  /\ lastKnownPositions (world out) !! id master = Some [].
Proof.
  intros Hmaster Hclient Hfail.
  destruct (checkMasterChanges_run w master client Hmaster Hclient)
    as (_ & Ho & Hc & Hsnap).
  rewrite Hfail in Ho, Hc, Hsnap. cbn [reported List.filter List.map] in *.
  cbv zeta. split; [| split; assumption].
  rewrite Hc. f_equal. clear.
  induction (default [] (lastKnownPositions w !! id master)) as [| p l IH];
    [reflexivity |].
  cbn. f_equal. exact IH.
Qed.

Lemma checkMasterChanges_failed_fetch_witness :
  let out := CopyTradingEngine.checkMasterChanges
               (Sample.watching Sample.unreachable) in
  announced_closed (events out) = [("BTC_USDT", long)]
  /\ announced_open (events out) = []
  /\ lastKnownPositions (world out) !! "a1" = Some [].
Proof.
  apply (checkMasterChanges_failed_fetch (Sample.watching Sample.unreachable)
           Sample.alice (Sample.client_of Sample.alice) "socket hang up");
    reflexivity.
Defined.

(** ** signals.ts: the cancellation timer *)

Section Timer.

Import MexcClientWrapper Signals.

Lemma cancelAllOrders_run c sym w :
  cancelAllOrders c sym w =
  let asked := Request (c_accountId c) (CancelAllOrders sym) in
  match sdk_cancelAllOrders (exchange w) (requests w) (c_accountId c) sym with
  | Answer _ =>
      (Ret true, set_requests (S (requests w)) w,
       [asked; Log (bracket (c_accountName c)) (OrdersCancelled sym)])
  | Raise err =>
      (Ret false, set_requests (S (requests w)) w,
       [asked; LogError (bracket (c_accountName c)) (OrdersCancelError sym err)])
  end.
Proof.
  unfold cancelAllOrders. rewrite run_try_catch, run_bind. unfold request.
  destruct (sdk_cancelAllOrders _ _ _ _); reflexivity.
Qed.

(** A firing of the timer, by what the exchange answers to the re-query. *)
Lemma cancel_timer_fires_run cb w :
  let c := tm_client cb in
  let params := symbol_param (Some (tm_symbol cb)) in
  let held :=
    reported (sdk_getOpenPositions (exchange w) (requests w)
                (c_accountId c) params) in
  let out := cancel_timer_fires cb w in
  result out = Ret tt
  /\ hd_error (events out) = Some (Request (c_accountId c) (GetOpenPositions params))
  /\ cancellations (events out)
     = (if Nat.ltb 0 (List.length held) then []
        else [(c_accountId c, tm_symbol cb)])
  /\ submits (events out) = [].
Proof.
  cbv zeta. unfold cancel_timer_fires, hasOpenPosition.
  rewrite run_try_catch, run_bind, run_bind, getOpenPositions_run. cbv zeta.
  unfold reported.
  destruct (sdk_getOpenPositions _ _ _ _) as [res | err];
    cbn [result world events fst snd ret].
  - destruct (Nat.ltb 0 _); cbn [negb].
    + repeat split.
    + unfold log. rewrite run_emit, run_bind, cancelAllOrders_run. cbv zeta.
      destruct (sdk_cancelAllOrders _ _ _ _); repeat split.
  - cbn [List.length Nat.ltb Nat.leb negb].
    unfold log. rewrite run_emit, run_bind, cancelAllOrders_run. cbv zeta.
    destruct (sdk_cancelAllOrders _ _ _ _); repeat split.
Qed.

Lemma armed_app a b : armed (a ++ b) = armed a ++ armed b.
Proof.
  induction a as [| e a IH]; [reflexivity |].
  destruct e; simpl; rewrite ?IH; reflexivity.
Qed.

Lemma no_timer_armed evs : Forall no_timer evs -> armed evs = [].
Proof.
  induction 1 as [| e evs He _ IH]; [reflexivity |].
  destruct e; simpl in *; try contradiction; exact IH.
Qed.

(** A total computation followed by another: the first one returns, and
    its events come first. *)
Lemma bind_after {A B} (P : Event -> Prop) (m : M A) (k : A -> M B) w :
  total m -> emits P m ->
  exists a w1 t1,
    Forall P t1
    /\ (m ≫= k) w = (result (k a w1), world (k a w1), t1 ++ events (k a w1)).
Proof.
  intros Ht He. destruct (Ht w) as [a Ha]. specialize (He w).
  rewrite (run_bind_ret _ _ w a Ha).
  exists a, (world (m w)), (events (m w)). split; [exact He | reflexivity].
Qed.

(** One account of a signal: a timer is armed exactly when the order was
    accepted, for the signal's symbol and the account's client. *)
Lemma signal_account_arms settings signal pStep cSize maxContracts i account w rs :
  let out := signal_account settings signal pStep cSize maxContracts i account w in
  result out = Ret rs ->
  List.map tm_accountName (armed (events out))
    = List.map accountName (List.filter success rs)
  /\ Forall (fun cb => tm_symbol cb = sig_fullSymbol signal
                       /\ clients w !! id account = Some (tm_client cb))
            (armed (events out)).
Proof.
  cbv zeta. unfold signal_account, getClient. rewrite run_get.
  destruct (clients w !! id account) as [client |];
    [| intros H; inversion H; subst; split; [reflexivity | constructor]].
  match goal with
  | |- context [(?d ≫= ?k) w] =>
      destruct (bind_after no_timer d k w) as (? & w1 & t1 & Ht1 & ->);
        [total_tac | emits_tac |]
  end.
  cbn [result world events fst snd].
  rewrite run_try_catch.
  match goal with
  | |- context [(?d ≫= ?k) w1] =>
      destruct (bind_after no_timer d k w1) as (held & w2 & t2 & Ht2 & ->);
        [total_tac | emits_tac |]
  end.
  cbn [result world events fst snd].
  destruct held.
  { cbn. intros H. inversion H; subst. rewrite !armed_app.
    rewrite (no_timer_armed _ Ht1), (no_timer_armed _ Ht2).
    split; [reflexivity | constructor]. }
  match goal with
  | |- context [(?d ≫= ?k) w2] =>
      destruct (bind_after no_timer d k w2) as (? & w3 & t3 & Ht3 & ->);
        [total_tac | emits_tac |]
  end.
  cbn [result world events fst snd].
  match goal with
  | |- context [(?d ≫= ?k) w3] =>
      destruct (bind_after no_timer d k w3) as ([entry takeProfit] & w4 & t4 & Ht4 & ->);
        [total_tac | emits_tac |]
  end.
  cbn [result world events fst snd].
  rewrite run_random.
  match goal with
  | |- context [(?d ≫= ?k) ?w5] =>
      destruct (bind_after no_timer d k w5) as (res & w6 & t6 & Ht6 & ->);
        [total_tac | emits_tac |]
  end.
  cbn [result world events fst snd].
  destruct (ok res) eqn:Hok.
  - cbv [mbind M_bind bind random emit ret result world events fst snd].
    intros H. inversion H; subst. clear H.
    rewrite !armed_app.
    rewrite (no_timer_armed _ Ht1), (no_timer_armed _ Ht2),
      (no_timer_armed _ Ht3), (no_timer_armed _ Ht4), (no_timer_armed _ Ht6).
    cbn. rewrite ?Hok. cbn. split; [reflexivity |].
    repeat constructor.
  - cbv [mbind M_bind bind random emit ret result world events fst snd].
    intros H. inversion H; subst. clear H.
    rewrite !armed_app.
    rewrite (no_timer_armed _ Ht1), (no_timer_armed _ Ht2),
      (no_timer_armed _ Ht3), (no_timer_armed _ Ht4), (no_timer_armed _ Ht6).
    cbn. rewrite ?Hok. cbn. split; [reflexivity | constructor].
Qed.

End Timer.

(** C1, as the code has it.  Each account of a signal whose order was
    accepted gets one timer, for the signal's symbol and the account's
    client.  When a timer fires it first asks the exchange for the open
    positions of that symbol; when a position is held it does nothing more;
    when none is held, or the query failed, it cancels all orders of that
    symbol once; in no case does it submit an order, so it never closes a
    position. *)
Theorem signal_cancel_timer (settings : CopyTradingSettings)
    (signal : ParsedSignal) (pStep cSize maxContracts : Q) (i : nat)
    (account : AccountConfig) (w : World) (rs : list TradeResult) :
  let out := Signals.signal_account settings signal pStep cSize maxContracts
               i account w in
  result out = Ret rs ->
  List.map tm_accountName (armed (events out))
    = List.map accountName (List.filter success rs)
  /\ forall cb, In cb (armed (events out)) ->
       tm_symbol cb = sig_fullSymbol signal
       /\ clients w !! id account = Some (tm_client cb)
       /\ forall w',
            let c := tm_client cb in
            let params := MexcClientWrapper.symbol_param (Some (tm_symbol cb)) in
            let held :=
              reported (sdk_getOpenPositions (exchange w') (requests w')
                          (c_accountId c) params) in
            let fired := Signals.cancel_timer_fires cb w' in
            result fired = Ret tt
            /\ hd_error (events fired)
               = Some (Request (c_accountId c) (GetOpenPositions params))
            /\ cancellations (events fired)
               = (if Nat.ltb 0 (List.length held) then []
                  else [(c_accountId c, tm_symbol cb)])
            /\ submits (events fired) = [].
Proof.
  cbv zeta. intros Hres.
  destruct (signal_account_arms settings signal pStep cSize maxContracts
              i account w rs Hres) as [Hnames Hall].
  split; [exact Hnames |].
  intros cb Hcb. rewrite List.Forall_forall in Hall.
  destruct (Hall cb Hcb) as [Hsym Hclient].
  split; [exact Hsym |]. split; [exact Hclient |].
  intros w'. apply cancel_timer_fires_run.
Qed.

Lemma signal_cancel_timer_witness :
  let out := Signals.signal_account Sample.default_settings Sample.btc_signal
               1 1 0 0 Sample.alice
               (Sample.world_of (Sample.roster [Sample.alice]) [Sample.alice]
                  Sample.flat []) in
  exists rs,
    result out = Ret rs
    /\ List.map tm_accountName (armed (events out))
       = List.map accountName (List.filter success rs)
    /\ forall cb, In cb (armed (events out)) ->
         tm_symbol cb = "BTC_USDT"
         /\ clients (Sample.world_of (Sample.roster [Sample.alice]) [Sample.alice]
                       Sample.flat []) !! "a1" = Some (tm_client cb)
         /\ forall w',
              let c := tm_client cb in
              let params := MexcClientWrapper.symbol_param (Some (tm_symbol cb)) in
              let held :=
                reported (sdk_getOpenPositions (exchange w') (requests w')
                            (c_accountId c) params) in
              let fired := Signals.cancel_timer_fires cb w' in
              result fired = Ret tt
              /\ hd_error (events fired)
                 = Some (Request (c_accountId c) (GetOpenPositions params))
              /\ cancellations (events fired)
                 = (if Nat.ltb 0 (List.length held) then []
                    else [(c_accountId c, tm_symbol cb)])
              /\ submits (events fired) = [].
Proof.
  eexists. split; [vm_compute; reflexivity |].
  apply (signal_cancel_timer Sample.default_settings Sample.btc_signal
           1 1 0 0 Sample.alice
           (Sample.world_of (Sample.roster [Sample.alice]) [Sample.alice]
              Sample.flat [])).
  vm_compute. reflexivity.
Defined.

(** C1 as stated fails both ways: with no position held the timer does act,
    it cancels the orders; with a position held it cancels nothing. *)
Lemma cancel_timer_counterexample :
  let c := Sample.client_of Sample.alice in
  let idle := Sample.world_of (Sample.roster [Sample.alice]) [Sample.alice]
                Sample.flat [] in
  let busy := Sample.world_of (Sample.roster [Sample.alice]) [Sample.alice]
                Sample.holding [] in
  (result (MexcClientWrapper.hasOpenPosition c "BTC_USDT" idle) = Ret false
   /\ cancellations (events (Signals.cancel_timer_fires Sample.timer idle))
      = [("a1", "BTC_USDT")])
  /\ (result (MexcClientWrapper.hasOpenPosition c "BTC_USDT" busy) = Ret true
      /\ cancellations (events (Signals.cancel_timer_fires Sample.timer busy)) = []).
Proof. vm_compute. repeat split. Qed.

(** ** Batches *)




Section Batches.

Import CopyTradingEngine.


Lemma keeps_manualOpen_account settings params cSize pStep i account :
  keeps (manualOpen_account settings params cSize pStep i account).
Proof. keeps_tac. Qed.



















End Batches.



(** The batch of three accounts of the specification: the exchange throws at
    the second account's order; the list has three results, the second one
    failed with the message, the first and the third succeeded. *)
Example manualOpenPosition_three_accounts :
  exists r1 r2 r3,
    result (CopyTradingEngine.manualOpenPosition (Sample.open_btc 1000)
              (Sample.world_of (Sample.roster [Sample.alice; Sample.bob; Sample.carol])
                 [Sample.alice; Sample.bob; Sample.carol]
                 Sample.rejecting_bob [1 # 2; 1 # 3; 1 # 4; 1 # 5]))
      = Ret {| slaveResults := [r1; r2; r3]; ctr_symbol := "BTC_USDT";
               ctr_side := long; basePrice := 100; baseLeverage := 20 |}
    /\ (accountId r1, success r1) = ("a1", true)
    /\ (accountId r2, success r2, message r2) = ("b2", false, "Insufficient balance")
    /\ (accountId r3, success r3) = ("c3", true).
Proof. do 3 eexists. vm_compute. repeat split. Qed.


(** ** Volumes *)

Section Volumes.

Import MexcClientWrapper CopyTradingEngine Signals.

Lemma submits_app a b : submits (a ++ b) = submits a ++ submits b.
Proof.
  induction a as [| e a IH]; [reflexivity |].
  destruct e as [acc [] | | | | | | |]; simpl; rewrite ?IH; reflexivity.
Qed.

Lemma Js_max_ge_1 x : 1 <= Js.max 1 x.
Proof. unfold Js.max. apply Q.le_max_l. Qed.

Lemma Js_ltb_false a b : Js.ltb a b = false -> b <= a.
Proof.
  unfold Js.ltb. intros H. apply negb_false_iff in H.
  apply Qle_bool_iff. exact H.
Qed.

(** A volume that passed the test [volume < 1] is not below 1. *)
Lemma num_ltb_false n : Js.num_ltb n 1 = false -> not_below_one n.
Proof.
  destruct n as [x | | |]; cbn; [apply Js_ltb_false | trivial | discriminate | trivial].
Qed.

(** Nor is [Math.max(1, n)]. *)
Lemma max_num_not_below n : not_below_one (Js.max_num 1 n).
Proof.
  destruct n as [x | | |]; cbn; [apply Js_max_ge_1 | trivial | | trivial].
  discriminate.
Qed.

(** Away from a zero divisor the quotient is the rational one. *)
Lemma div_nonzero x y : ~ y == 0 -> Js.div x y = Js.Finite (x / y).
Proof.
  intros Hy. unfold Js.div. destruct (Qeq_bool y 0) eqn:H; [| reflexivity].
  apply Qeq_bool_iff in H. contradiction.
Qed.

(** No order of the three opening batches is for a volume below 1. *)
Lemma volumes_copyOpenPosition pos : emits at_least_one_contract (copyOpenPosition pos).
Proof.
  repeat first [apply emits_submitOrder | emits_step]; try (intros; exact I).
  cbn. apply num_ltb_false. assumption.
Qed.

Lemma volumes_manualOpenPosition params :
  emits at_least_one_contract (manualOpenPosition params).
Proof.
  repeat first [apply emits_submitOrder | emits_step]; try (intros; exact I);
    cbn; apply max_num_not_below.
Qed.

Lemma volumes_handleTradeSignal text :
  emits at_least_one_contract (handleTradeSignal text).
Proof.
  repeat first [apply emits_submitOrder | emits_step]; try (intros; exact I);
    cbn; apply max_num_not_below.
Qed.

Lemma getContractInfo_run c sym w :
  getContractInfo c sym w =
  let asked := Request (c_accountId c) (GetContractDetail sym) in
  match sdk_getContractDetail (exchange w) (requests w) (c_accountId c) sym with
  | Answer res =>
      (Ret (to_contract sym <$> res), set_requests (S (requests w)) w, [asked])
  | Raise err =>
      (Ret None, set_requests (S (requests w)) w,
       [asked; LogError (bracket (c_accountName c)) (ContractInfoError sym err)])
  end.
Proof.
  unfold getContractInfo. rewrite run_try_catch, run_bind. unfold request.
  destruct (sdk_getContractDetail _ _ _ _) as [[d |] | err]; reflexivity.
Qed.

(** The first order [submitOrder] sends is the one it was given. *)
Lemma submitOrder_first c params w :
  hd_error (submits (events (submitOrder c params w)))
    = Some (c_accountId c, params).
Proof.
  unfold submitOrder. rewrite submitOrder_loop_first. cbv zeta.
  destruct (sdk_submitOrder _ _ _ _) as [res | m].
  - destruct (reported_failure res); reflexivity.
  - destruct (isRateLimit m); reflexivity.
Qed.

Lemma hd_error_app {T} (a b : list T) x :
  hd_error a = Some x -> hd_error (a ++ b) = Some x.
Proof. destruct a; [discriminate | intros H; exact H]. Qed.

(** One slave account of the automatic copy, by the count derived for it:
    below 1 nothing is sent and the error is logged; otherwise the order
    carries the count. *)
Lemma copyOpen_account_volume settings pos account w c :
  clients w !! id account = Some c ->
  let price := applyPriceDeviation (hd 0 (tl (draws w))) (entryPrice pos)
                 (priceDeviationPercent settings) (side pos) in
  let info := reported_contract (symbol pos)
                (sdk_getContractDetail (exchange w) (requests w)
                   (c_accountId c) (symbol pos)) in
  let count := Js.floor_num
                 (Js.div (Js.min (maxPositionUsd account)
                            (margin pos * leverage pos))
                    (price * Js.or_else (contractSize <$> info) 1)) in
  let out := copyOpen_account settings pos account w in
  if Js.num_ltb count 1
  then submits (events out) = []
       /\ In (LogError (bracket (name account)) VolumeTooSmall) (events out)
  else exists p, hd_error (submits (events out)) = Some (c_accountId c, p)
                 /\ o_vol p = count.
Proof.
  intros Hclient. cbv zeta.
  unfold copyOpen_account. rewrite run_random. unfold sleep. rewrite run_emit.
  unfold getClient. rewrite run_get. cbn [clients set_draws]. rewrite Hclient.
  rewrite run_try_catch, !run_random, run_bind, getContractInfo_run.
  cbv zeta. cbn [exchange requests draws set_draws].
  unfold reported_contract.
  destruct (sdk_getContractDetail _ _ _ _) as [res | err];
    cbn [result world events fst snd].
  - destruct (Js.num_ltb _ 1) eqn:Hlt.
    + cbn. split; [reflexivity | right; right; left; reflexivity].
    + unfold openPosition.
      match goal with
      | |- context [(submitOrder c ?p ≫= ?k) ?w'] =>
          destruct (total_submitOrder c p w') as [r Hr];
          rewrite (run_bind_ret _ _ w' r Hr);
          pose proof (submitOrder_first c p w') as Hfirst;
          exists p
      end.
      split; [| reflexivity].
      destruct (ok r); unfold log, logError, emit;
        cbn [result world events fst snd submits app];
        rewrite submits_app; apply hd_error_app; exact Hfirst.
  - destruct (Js.num_ltb _ 1) eqn:Hlt.
    + cbn. split; [reflexivity | right; right; right; left; reflexivity].
    + unfold openPosition.
      match goal with
      | |- context [(submitOrder c ?p ≫= ?k) ?w'] =>
          destruct (total_submitOrder c p w') as [r Hr];
          rewrite (run_bind_ret _ _ w' r Hr);
          pose proof (submitOrder_first c p w') as Hfirst;
          exists p
      end.
      split; [| reflexivity].
      destruct (ok r); unfold log, logError, emit;
        cbn [result world events fst snd submits app];
        rewrite submits_app; apply hd_error_app; exact Hfirst.
Qed.

(** An account of [manualOpenPosition] that has a client sends its order,
    and the order is [manual_order]. *)
Lemma manualOpen_account_order settings params cSize pStep i account w c :
  clients w !! id account = Some c ->
  hd_error (submits (events (manualOpen_account settings params cSize pStep
                               i account w)))
    = Some (c_accountId c,
            manual_order settings params cSize pStep i account (draws w)).
Proof.
  intros Hclient.
  unfold manualOpen_account, manual_order, manual_entry, getClient.
  rewrite run_get, Hclient.
  destruct (isMaster account); cbn [negb andb].
  - rewrite run_ret_bind, run_try_catch, run_ret_bind.
    unfold openPosition. cbn [op_symbol op_side op_price op_volume op_leverage
                              op_isMarket op_takeProfit op_stopLoss].
    match goal with
    | |- context [(submitOrder c ?p ≫= ?k) ?w'] =>
        destruct (total_submitOrder c p w') as [r Hr];
        rewrite (run_bind_ret _ _ w' r Hr);
        pose proof (submitOrder_first c p w') as Hfirst
    end.
    cbn [result world events fst snd ret]. rewrite submits_app.
    apply hd_error_app. exact Hfirst.
  - destruct (Nat.ltb 0 i).
    + rewrite run_bind, run_random. unfold sleep, emit.
      cbn [result world events fst snd app].
      rewrite run_try_catch, run_bind, !run_random.
      cbn [draws set_draws ret result world events fst snd app].
      unfold openPosition. cbn [op_symbol op_side op_price op_volume op_leverage
                                op_isMarket op_takeProfit op_stopLoss].
      match goal with
      | |- context [(submitOrder c ?p ≫= ?k) ?w'] =>
          destruct (total_submitOrder c p w') as [r Hr];
          rewrite (run_bind_ret _ _ w' r Hr);
          pose proof (submitOrder_first c p w') as Hfirst
      end.
      cbn [result world events fst snd ret submits app]. rewrite submits_app.
      apply hd_error_app. exact Hfirst.
    + rewrite run_ret_bind, run_try_catch, run_bind, !run_random.
      cbn [draws set_draws ret result world events fst snd app].
      unfold openPosition. cbn [op_symbol op_side op_price op_volume op_leverage
                                op_isMarket op_takeProfit op_stopLoss].
      match goal with
      | |- context [(submitOrder c ?p ≫= ?k) ?w'] =>
          destruct (total_submitOrder c p w') as [r Hr];
          rewrite (run_bind_ret _ _ w' r Hr);
          pose proof (submitOrder_first c p w') as Hfirst
      end.
      cbn [result world events fst snd ret submits app]. rewrite submits_app.
      apply hd_error_app. exact Hfirst.
Qed.

(** An account of [handleTradeSignal] that has a client and for which the
    exchange reports no position sends its order, and the order is
    [signal_order]. *)
Lemma signal_account_order settings signal pStep cSize maxContracts i account w c :
  clients w !! id account = Some c ->
  reported (sdk_getOpenPositions (exchange w) (requests w) (c_accountId c)
              (symbol_param (Some (sig_fullSymbol signal)))) = [] ->
  hd_error (submits (events (signal_account settings signal pStep cSize
                               maxContracts i account w)))
    = Some (c_accountId c,
            signal_order settings signal pStep cSize maxContracts i account
              (draws w)).
Proof.
  intros Hclient Hflat.
  unfold signal_account, signal_order, signal_entry, getClient.
  rewrite run_get, Hclient.
  set (ds1 := if Nat.ltb 0 i then tl (draws w) else draws w).
  match goal with
  | |- context [(?d ≫= ?k) w] =>
      assert (Hdelay : exists w1 t1,
                 (d ≫= k) w = (result (k tt w1), world (k tt w1),
                                t1 ++ events (k tt w1))
                 /\ submits t1 = []
                 /\ exchange w1 = exchange w /\ requests w1 = requests w
                 /\ draws w1 = ds1)
  end.
  { subst ds1. destruct (Nat.ltb 0 i).
    - eexists _, _. rewrite run_bind, run_random. unfold sleep, emit.
      cbn [result world events fst snd]. split; [reflexivity |].
      repeat split.
    - exists w, []. rewrite run_ret_bind. split; [| repeat split].
      cbn [app]. match goal with |- ?x = _ => destruct x as [[? ?] ?] end.
      reflexivity. }
  destruct Hdelay as (w1 & t1 & -> & Ht1 & Hex & Hreq & Hds).
  cbn [result world events fst snd]. rewrite submits_app, Ht1. cbn [app].
  rewrite run_try_catch. unfold hasOpenPosition.
  rewrite !run_bind, getOpenPositions_run. cbv zeta.
  rewrite Hex, Hreq. unfold reported in Hflat.
  destruct (sdk_getOpenPositions _ _ _ _) as [res | err];
    [rewrite Hflat |];
    cbn [result world events fst snd ret List.length Nat.ltb Nat.leb];
    rewrite run_bind, cancelAllOrders_run; cbv zeta;
    destruct (sdk_cancelAllOrders _ _ _ _);
    cbn [result world events fst snd ret];
    (destruct (isMaster account); cbn [negb];
     [rewrite run_ret_bind, run_random
     | rewrite run_bind, !run_random; cbn [ret result world events fst snd];
       rewrite ?run_random];
     cbn [draws set_draws set_requests ret result world events fst snd];
     unfold openPosition;
     cbn [op_symbol op_side op_price op_volume op_leverage
          op_isMarket op_takeProfit op_stopLoss];
     match goal with
     | |- context [(submitOrder c ?p ≫= ?k) ?w'] =>
         destruct (total_submitOrder c p w') as [r Hr];
         rewrite (run_bind_ret _ _ w' r Hr);
         pose proof (submitOrder_first c p w') as Hfirst
     end;
     unfold events in Hfirst;
     destruct (ok r);
     cbv [mbind M_bind bind random emit ret result world events fst snd];
     cbn [submits app];
     rewrite ?submits_app; cbn [submits app];
     rewrite <- Hds;
     repeat (apply hd_error_app); exact Hfirst).
Qed.

End Volumes.

(** C2, as the code has it.  No order of an opening batch (automatic copy,
    manual open, signal) is for a volume below 1: the volume is a number of
    at least 1 or, which a zero divisor price * contractSize can give,
    [Infinity] or [NaN].  Where the divisor is not zero the volume is a
    number: in the automatic copy an account whose derived count
    floor(capped / (price * contractSize)) is below 1 sends no order and an
    error line is logged for it (that path builds no list of results), and
    otherwise its order carries the count; in manual open and in
    signal-driven open the count is raised to 1 when it is lower, and the
    order is sent with that volume. *)
Theorem volume_policy :
  (forall pos w,
      Forall at_least_one_contract (events (CopyTradingEngine.copyOpenPosition pos w)))
  /\ (forall params w,
        Forall at_least_one_contract
          (events (CopyTradingEngine.manualOpenPosition params w)))
  /\ (forall text w,
        Forall at_least_one_contract (events (Signals.handleTradeSignal text w)))
  /\ (forall settings pos account w c,
        clients w !! id account = Some c ->
        let price := applyPriceDeviation (hd 0 (tl (draws w))) (entryPrice pos)
                       (priceDeviationPercent settings) (side pos) in
        let info := reported_contract (symbol pos)
                      (sdk_getContractDetail (exchange w) (requests w)
                         (c_accountId c) (symbol pos)) in
        let cSize := Js.or_else (contractSize <$> info) 1 in
        let count := Js.floor (Js.min (maxPositionUsd account)
                                 (margin pos * leverage pos)
                               / (price * cSize)) in
        let out := CopyTradingEngine.copyOpen_account settings pos account w in
        ~ price * cSize == 0 ->
        if Js.ltb count 1
        then submits (events out) = []
             /\ In (LogError (bracket (name account)) VolumeTooSmall) (events out)
        else exists p, hd_error (submits (events out)) = Some (c_accountId c, p)
                       /\ o_vol p = Js.Finite count)
  /\ (forall settings params cSize pStep i account w c,
        clients w !! id account = Some c ->
        let entry := manual_entry settings params i account (draws w) in
        let count := Js.floor (Js.min (mo_positionSizeUsd params)
                                 (maxPositionUsd account)
                               / (entry * cSize)) in
        ~ entry * cSize == 0 ->
        exists p v,
          hd_error (submits (events (CopyTradingEngine.manualOpen_account settings
                                       params cSize pStep i account w)))
            = Some (c_accountId c, p)
          /\ o_vol p = Js.Finite v
          /\ v = Js.max 1 count
          /\ (count < 1 -> v == 1))
  /\ (forall settings signal pStep cSize maxContracts i account w c,
        clients w !! id account = Some c ->
        reported (sdk_getOpenPositions (exchange w) (requests w) (c_accountId c)
                    (MexcClientWrapper.symbol_param (Some (sig_fullSymbol signal))))
          = [] ->
        let entry := signal_entry settings signal i account (draws w) in
        let positionUsd :=
          if Js.ltb 0 maxContracts
          then Js.min (maxPositionUsd account) (maxContracts * cSize * entry)
          else maxPositionUsd account in
        let count := Js.floor (positionUsd / (entry * cSize)) in
        ~ entry * cSize == 0 ->
        exists p v,
          hd_error (submits (events (Signals.signal_account settings signal pStep
                                       cSize maxContracts i account w)))
            = Some (c_accountId c, p)
          /\ o_vol p = Js.Finite v
          /\ v = Js.max 1 count
          /\ (count < 1 -> v == 1)).
Proof.
  split; [intros; apply volumes_copyOpenPosition |].
  split; [intros; apply volumes_manualOpenPosition |].
  split; [intros; apply volumes_handleTradeSignal |].
  split.
  { intros settings pos account w c Hclient price info cSize count out Hdiv.
    pose proof (copyOpen_account_volume settings pos account w c Hclient) as H.
    cbv zeta in H. fold price info cSize in H.
    rewrite (div_nonzero _ _ Hdiv) in H. exact H. }
  split.
  - intros settings params cSize pStep i account w c Hclient entry count Hdiv.
    exists (manual_order settings params cSize pStep i account (draws w)),
           (Js.max 1 count).
    split; [apply manualOpen_account_order; assumption |].
    split; [| split; [reflexivity |]].
    + cbn [o_vol manual_order]. fold entry.
      rewrite (div_nonzero _ _ Hdiv). reflexivity.
    + intros Hlt. unfold Js.max. apply Q.max_l. apply Qlt_le_weak. exact Hlt.
  - intros settings signal pStep cSize maxContracts i account w c Hclient Hflat
      entry positionUsd count Hdiv.
    exists (signal_order settings signal pStep cSize maxContracts i account (draws w)),
           (Js.max 1 count).
    split; [apply signal_account_order; assumption |].
    split; [| split; [reflexivity |]].
    + cbn [o_vol signal_order]. fold entry. fold positionUsd.
      rewrite (div_nonzero _ _ Hdiv). reflexivity.
    + intros Hlt. unfold Js.max. apply Q.max_l. apply Qlt_le_weak. exact Hlt.
Qed.

Lemma volume_policy_witness :
  let w := Sample.world_of (Sample.roster [Sample.alice]) [Sample.alice]
             Sample.flat [] in
  let count := Js.floor (Js.min 10 (maxPositionUsd Sample.alice) / (100 * 1)) in
  ~ 100 * 1 == 0
  /\ count < 1
  /\ exists p v,
       hd_error (submits (events (CopyTradingEngine.manualOpen_account
                                    Sample.default_settings (Sample.open_btc 10)
                                    1 (1 # 100) 0 Sample.alice w)))
         = Some ("a1", p)
       /\ o_vol p = Js.Finite v
       /\ v = Js.max 1 count
       /\ (count < 1 -> v == 1).
Proof.
  split; [discriminate |]. split; [reflexivity |].
  apply (proj1 (proj2 (proj2 (proj2 (proj2 volume_policy))))
           Sample.default_settings (Sample.open_btc 10) 1 (1 # 100) 0%nat
           Sample.alice
           (Sample.world_of (Sample.roster [Sample.alice]) [Sample.alice]
              Sample.flat [])
           (Sample.client_of Sample.alice)).
  - reflexivity.
  - discriminate.
Defined.

(** C2 as stated fails for manual open and for a signal: with a notional of
    10 at a price of 100 the derived count is 0, and with the account's cap
    of 100 at an entry of 100.495 it is 0 as well; in both cases an order for
    1 contract is sent and the account is reported as a success. *)
Lemma volume_claim_counterexample :
  let w := Sample.world_of (Sample.roster [Sample.alice]) [Sample.alice]
             Sample.flat [] in
  (Js.floor (Js.min 10 (maxPositionUsd Sample.alice) / (100 * 1)) < 1
   /\ List.map (fun s => (fst s, o_vol (snd s)))
        (submits (events (CopyTradingEngine.manualOpenPosition (Sample.open_btc 10) w)))
      = [("a1", Js.Finite 1)]
   /\ exists ctr,
        result (CopyTradingEngine.manualOpenPosition (Sample.open_btc 10) w) = Ret ctr
        /\ List.map success (slaveResults ctr) = [true])
  /\ (Js.floor (maxPositionUsd Sample.alice / (101 * (1 + - (1 # 2) / 100) * 1)) < 1
      /\ List.map (fun s => (fst s, o_vol (snd s)))
           (submits (events (Signals.handleTradeSignal Sample.signal_text w)))
         = [("a1", Js.Finite 1)]).
Proof.
  split; [split; [reflexivity | split; [vm_compute; reflexivity |]] |].
  - eexists. split; [vm_compute; reflexivity | reflexivity].
  - split; [reflexivity | vm_compute; reflexivity].
Qed.

(** At a price of zero the divisor is zero and the volume is not finite.
    A signal with prices of zero, which the parser accepts, is sent with a
    volume of [Infinity], and of [NaN] under a contract limit, which makes
    the capped notional zero as well; the automatic copy of a position with
    an entry price of zero passes the test [volume < 1] and is sent with
    [Infinity]. *)
Example zero_price_volumes :
  let text := "#PING_USDT LONG Price DEX $0 Price MEXC $0" in
  let cfg := Sample.roster [Sample.alice; Sample.bob] in
  let w := Sample.world_of cfg [Sample.alice; Sample.bob] Sample.flat [] in
  let limited :=
    Sample.world_of (ConfigStorage.setContractLimit "PING_USDT" 2900 cfg)
      [Sample.alice; Sample.bob] Sample.flat [] in
  let pos := {| symbol := "BTC_USDT"; side := long; volume := 3; entryPrice := 0;
                leverage := 20; margin := 15; unrealizedPnl := 0;
                liquidationPrice := None |} in
  List.map (fun s => (fst s, o_vol (snd s)))
    (submits (events (Signals.handleTradeSignal text w)))
  = [("a1", Js.PlusInfinity); ("b2", Js.PlusInfinity)]
  /\ List.map (fun s => (fst s, o_vol (snd s)))
       (submits (events (Signals.handleTradeSignal text limited)))
     = [("a1", Js.NaN); ("b2", Js.NaN)]
  /\ List.map (fun s => (fst s, o_vol (snd s)))
       (submits (events (CopyTradingEngine.copyOpenPosition pos w)))
     = [("b2", Js.PlusInfinity)].
Proof. vm_compute. repeat split; reflexivity. Qed.

(** ** The master account *)

Lemma tpsl_master settings sym sd tp sl i account :
  isMaster account = true ->
  emits (tpsl_is tp sl)
        (CopyTradingEngine.setTpSl_account settings sym sd tp sl i account).
Proof.
  intros Hmaster. unfold CopyTradingEngine.setTpSl_account.
  rewrite Hmaster. cbn [negb].
  emits_tac. cbn. split; reflexivity.
Qed.

(** C3, as the code has it.  For an account flagged as master that has a
    client: in manual open its order carries the reference price rounded to
    the price step and the reference leverage, whatever the random source
    gives; in TP/SL setting every request made for it carries the given
    take-profit and stop-loss; in signal-driven open, when the exchange
    reports no position, its order carries the signal's entry price and
    take-profit, each shifted by its configured offset and rounded to the
    price step, with no random deviation, and a leverage drawn at random
    from the account's own leverage range. *)
Theorem master_parameters (account : AccountConfig) (c : Client) (w : World) :
  isMaster account = true ->
  clients w !! id account = Some c ->
  (forall settings params cSize pStep i, exists p,
      hd_error (submits (events (CopyTradingEngine.manualOpen_account settings
                                   params cSize pStep i account w)))
        = Some (c_accountId c, p)
      /\ o_price p = roundToStep (mo_price params) pStep
      /\ o_leverage p = mo_leverage params)
  /\ (forall settings sym sd tp sl i,
        Forall (tpsl_is tp sl)
          (events (CopyTradingEngine.setTpSl_account settings sym sd tp sl i
                     account w)))
  /\ (forall settings signal pStep cSize maxContracts i,
        reported (sdk_getOpenPositions (exchange w) (requests w) (c_accountId c)
                    (MexcClientWrapper.symbol_param (Some (sig_fullSymbol signal))))
          = [] ->
        exists p,
          hd_error (submits (events (Signals.signal_account settings signal pStep
                                       cSize maxContracts i account w)))
            = Some (c_accountId c, p)
          /\ o_price p
             = roundToStep (sig_entryPrice signal
                            * (1 + signalEntryOffset settings / 100)) pStep
          /\ o_takeProfitPrice p
             = Some (roundToStep (sig_takeProfit signal
                                  * (1 + signalTpOffset settings / 100)) pStep)
          /\ o_leverage p
             = randomLeverage
                 (hd 0 (if Nat.ltb 0 i then tl (draws w) else draws w))
                 (leverageMin account) (leverageMax account)).
Proof.
  intros Hmaster Hclient. split; [| split].
  - intros settings params cSize pStep i. eexists. split.
    + apply manualOpen_account_order. exact Hclient.
    + unfold manual_order, manual_entry. rewrite Hmaster. split; reflexivity.
  - intros settings sym sd tp sl i. apply tpsl_master. exact Hmaster.
  - intros settings signal pStep cSize maxContracts i Hflat. eexists. split.
    + apply signal_account_order; assumption.
    + unfold signal_order, signal_entry. rewrite Hmaster. repeat split.
Qed.

Lemma master_parameters_witness :
  exists p,
    hd_error (submits (events (CopyTradingEngine.manualOpen_account
                                 Sample.default_settings (Sample.open_btc 1000)
                                 1 (1 # 100) 0 Sample.alice
                                 (Sample.world_of (Sample.roster [Sample.alice])
                                    [Sample.alice] Sample.flat [1 # 2]))))
      = Some ("a1", p)
    /\ o_price p = roundToStep 100 (1 # 100)
    /\ o_leverage p = 20.
Proof.
  apply (proj1 (master_parameters Sample.alice (Sample.client_of Sample.alice)
                  (Sample.world_of (Sample.roster [Sample.alice])
                     [Sample.alice] Sample.flat [1 # 2])
                  eq_refl eq_refl)
           Sample.default_settings (Sample.open_btc 1000) 1 (1 # 100) 0%nat).
Defined.

(** C3 as stated fails.  On a signal the master's leverage follows the
    random source (10 for a draw of 0, 15 for a draw of 1/2) and its price is
    not the signal's entry price of 101 (the entry offset and the price step
    make it 100); in manual open the price sent for the master is the
    reference price rounded to the price step, here 100.12346 for a
    reference of 100.1234567. *)
Lemma master_parameters_counterexample :
  let w r := Sample.world_of (Sample.roster [Sample.alice]) [Sample.alice]
               Sample.flat [r] in
  let sent (f : SubmitParams -> Q) evs :=
    List.map (fun s => Qred (f (snd s))) (submits evs) in
  let reference := 1001234567 # 10000000 in
  isMaster Sample.alice = true
  /\ (sig_entryPrice <$> parseTradeSignal Sample.signal_text) = Some 101
  /\ sent o_leverage (events (Signals.handleTradeSignal Sample.signal_text (w 0))) = [10]
  /\ sent o_leverage (events (Signals.handleTradeSignal Sample.signal_text (w (1 # 2)))) = [15]
  /\ sent o_price (events (Signals.handleTradeSignal Sample.signal_text (w 0))) = [100]
  /\ sent o_price
       (events (CopyTradingEngine.manualOpenPosition
                  {| mo_symbol := "BTC_USDT"; mo_side := long;
                     mo_price := reference; mo_positionSizeUsd := 1000;
                     mo_leverage := 20; mo_priceStep := None |} (w 0)))
     = [5006173 # 50000]
  /\ ~ (5006173 # 50000) == reference.
Proof.
  cbv zeta. repeat split; try (vm_compute; reflexivity).
  intros H. vm_compute in H. discriminate.
Qed.

(** ** storage.ts: the roster *)

Section Roster.

Import ConfigStorage.

Implicit Types (l pre post : list AccountConfig) (a : AccountConfig).

Lemma masters_app l1 l2 : masters (l1 ++ l2) = (masters l1 + masters l2)%nat.
Proof. unfold masters. rewrite List.filter_app, List.length_app. reflexivity. Qed.

Lemma masters_cons a l :
  masters (a :: l) = ((if isMaster a then 1 else 0) + masters l)%nat.
Proof. unfold masters. cbn. destruct (isMaster a); reflexivity. Qed.

(** Where [findIndex] finds the account: the first one with that id. *)
Lemma findIndex_split i l index :
  findIndex i l = Some index ->
  exists pre a post,
    l = pre ++ a :: post /\ List.length pre = index /\ id a = i
    /\ Forall (fun b => id b <> i) pre.
Proof.
  revert index. induction l as [| b l IH]; intros index; cbn; [discriminate |].
  destruct (String.eqb (id b) i) eqn:Hb.
  - intros H. inversion H; subst. exists [], b, l.
    apply String.eqb_eq in Hb. repeat split; [exact Hb | constructor].
  - destruct (findIndex i l) as [k |]; [| discriminate].
    intros H. inversion H; subst.
    destruct (IH k eq_refl) as (pre & a & post & -> & Hlen & Hid & Hpre).
    exists (b :: pre), a, post. cbn. rewrite Hlen. repeat split; [exact Hid |].
    constructor; [| exact Hpre]. apply String.eqb_neq. exact Hb.
Qed.

Lemma unique_after pre a post :
  NoDup (List.map id (pre ++ a :: post)) ->
  Forall (fun b => id b <> id a) post.
Proof.
  rewrite List.map_app. cbn. intros H.
  apply NoDup_app in H. destruct H as (_ & _ & H).
  apply NoDup_cons in H. destruct H as [Hnotin _].
  apply Forall_forall. intros b Hb Heq. apply Hnotin.
  rewrite <- Heq. apply list_elem_of_fmap_2. exact Hb.
Qed.

Lemma masters_cleared i l :
  Forall (fun b => id b <> i) l ->
  masters (List.map (fun a => if negb (String.eqb (id a) i)
                              then set_isMaster false a else a) l) = 0%nat.
Proof.
  induction 1 as [| b l Hb _ IH]; [reflexivity |].
  cbn [List.map]. rewrite masters_cons, IH.
  apply String.eqb_neq in Hb. rewrite Hb. reflexivity.
Qed.

Lemma masters_only i l :
  Forall (fun b => id b <> i) l ->
  masters (List.map (fun a => set_isMaster (String.eqb (id a) i) a) l) = 0%nat.
Proof.
  induction 1 as [| b l Hb _ IH]; [reflexivity |].
  cbn [List.map]. rewrite masters_cons, IH.
  apply String.eqb_neq in Hb. cbn. rewrite Hb. reflexivity.
Qed.

(** Adding to an empty roster makes the account master. *)
Lemma addAccount_first uuid a c :
  accounts c = [] ->
  isMaster (snd (addAccount uuid a c)) = true
  /\ masters (accounts (fst (addAccount uuid a c))) = 1%nat.
Proof. intros H. unfold addAccount. rewrite H. split; reflexivity. Qed.

(** Adding an account that does not carry the flag keeps the invariant. *)
Lemma addAccount_slave uuid a c :
  isMaster a = false ->
  single_master (accounts c) ->
  single_master (accounts (fst (addAccount uuid a c))).
Proof.
  intros Ha Hc. unfold addAccount, single_master in *. cbn [fst accounts set_accounts].
  rewrite masters_app. destruct (accounts c) as [| b l]; cbn [List.length Nat.eqb].
  - cbn. lia.
  - rewrite (masters_cons _ []). cbn [isMaster set_id]. rewrite Ha.
    change (masters []) with 0%nat. lia.
Qed.

(** Deleting keeps the invariant. *)
Lemma deleteAccount_single_master i c :
  single_master (accounts c) ->
  single_master (accounts (fst (deleteAccount i c))).
Proof.
  unfold deleteAccount, single_master. intros Hc.
  destruct (findIndex i (accounts c)) as [index |] eqn:Hfind; [| exact Hc].
  destruct (findIndex_split _ _ _ Hfind) as (pre & a & post & Hl & Hlen & _ & _).
  cbn [fst accounts set_accounts]. rewrite Hl in *.
  rewrite (list_lookup_middle pre post a index) by (symmetry; exact Hlen).
  unfold splice1.
  change (@List.firstn AccountConfig) with (@take AccountConfig).
  change (@List.skipn AccountConfig) with (@drop AccountConfig).
  rewrite take_app_length' by (symmetry; exact Hlen).
  replace (pre ++ a :: post) with ((pre ++ [a]) ++ post)
    by (rewrite <- app_assoc; reflexivity).
  rewrite drop_app_length'
    by (rewrite List.length_app; cbn; lia).
  rewrite !masters_app, masters_cons in Hc. cbn [masters List.filter List.length] in Hc.
  destruct (isMaster a); cbn [andb].
  - assert (Hzero : masters (pre ++ post) = 0%nat) by (rewrite masters_app; lia).
    destruct (pre ++ post) as [| a0 rest] eqn:Hrest; cbn [List.length Nat.ltb Nat.leb].
    + cbn. lia.
    + rewrite masters_cons in Hzero. rewrite masters_cons. cbn [isMaster set_isMaster].
      destruct (isMaster a0); lia.
  - rewrite masters_app. lia.
Qed.

(** Deleting the master hands the flag to the first account that is left. *)
Lemma deleteAccount_promotes_first i c a :
  getAccountById i c = Some a ->
  isMaster a = true ->
  forall a0 rest,
    accounts (fst (deleteAccount i c)) = a0 :: rest -> isMaster a0 = true.
Proof.
  unfold getAccountById, deleteAccount. intros Hget Hmaster a0 rest.
  destruct (findIndex i (accounts c)) as [index |] eqn:Hfind.
  - destruct (findIndex_split _ _ _ Hfind) as (pre & b & post & Hl & Hlen & Hid & Hpre).
    cbn [fst accounts set_accounts]. rewrite Hl in *.
    assert (Hb : b = a).
    { clear - Hget Hid Hpre. induction Hpre as [| x pre Hx _ IH]; cbn in Hget.
      - apply String.eqb_eq in Hid. rewrite Hid in Hget. congruence.
      - apply String.eqb_neq in Hx. rewrite Hx in Hget. apply IH. exact Hget. }
    subst b.
    rewrite (list_lookup_middle pre post a index) by (symmetry; exact Hlen).
    rewrite Hmaster. cbn [andb].
    destruct (splice1 index (pre ++ a :: post)) as [| x xs];
      cbn [List.length Nat.ltb Nat.leb]; intros H; inversion H; reflexivity.
  - exfalso. clear - Hget Hfind.
    induction (accounts c) as [| x l IH]; cbn in *; [discriminate |].
    destruct (String.eqb (id x) i); [discriminate |].
    destruct (findIndex i l); [discriminate |]. apply IH; [exact Hget | reflexivity].
Qed.

(** Naming a master keeps the invariant when the ids are distinct. *)
Lemma setMasterAccount_single_master i c :
  NoDup (List.map id (accounts c)) ->
  single_master (accounts c) ->
  single_master (accounts (fst (setMasterAccount i c))).
Proof.
  unfold setMasterAccount, getAccountById, single_master. intros Hnodup Hc.
  destruct (List.find _ (accounts c)) as [a |] eqn:Hfind; [| exact Hc].
  cbn [fst accounts set_accounts].
  assert (Hidx : exists index, findIndex i (accounts c) = Some index).
  { clear - Hfind. induction (accounts c) as [| x l IH]; cbn in *; [discriminate |].
    destruct (String.eqb (id x) i); [eexists; reflexivity |].
    destruct (IH Hfind) as [k ->]. eexists; reflexivity. }
  destruct Hidx as [index Hidx].
  destruct (findIndex_split _ _ _ Hidx) as (pre & b & post & Hl & _ & Hid & Hpre).
  rewrite Hl in *. pose proof (unique_after _ _ _ Hnodup) as Hpost.
  rewrite Hid in Hpost.
  rewrite List.map_app, masters_app. cbn [List.map]. rewrite masters_cons.
  rewrite (masters_only i pre Hpre), (masters_only i post Hpost).
  cbn [isMaster set_isMaster]. destruct (String.eqb (id b) i); cbn; lia.
Qed.

(** Updating keeps the invariant when the ids are distinct. *)
Lemma updateAccount_single_master i updates c :
  NoDup (List.map id (accounts c)) ->
  single_master (accounts c) ->
  single_master (accounts (fst (updateAccount i updates c))).
Proof.
  unfold updateAccount, single_master. intros Hnodup Hc.
  destruct (findIndex i (accounts c)) as [index |] eqn:Hfind; [| exact Hc].
  destruct (findIndex_split _ _ _ Hfind) as (pre & b & post & Hl & Hlen & Hid & Hpre).
  rewrite Hl in *. pose proof (unique_after _ _ _ Hnodup) as Hpost.
  rewrite Hid in Hpost.
  assert (Hcase :
    (u_isMaster updates = Some true) \/ (u_isMaster updates <> Some true)).
  { destruct (u_isMaster updates) as [[|] |]; [left | right | right]; congruence. }
  destruct Hcase as [Htrue | Hother].
  - rewrite Htrue. rewrite List.map_app. cbn [List.map].
    rewrite (list_lookup_middle _ _ _ index)
      by (rewrite List.length_map; symmetry; exact Hlen).
    cbn [fst accounts set_accounts].
    replace index with (List.length (List.map
               (fun a => if negb (String.eqb (id a) i)
                         then set_isMaster false a else a) pre) + 0)%nat
      by (rewrite List.length_map; lia).
    rewrite insert_app_r. cbn [list_insert insert].
    rewrite masters_app, masters_cons.
    rewrite (masters_cleared i pre Hpre), (masters_cleared i post Hpost).
    destruct (isMaster _); lia.
  - assert (Hl1 : match u_isMaster updates with
                  | Some true =>
                      List.map (fun a => if negb (String.eqb (id a) i)
                                         then set_isMaster false a else a)
                               (pre ++ b :: post)
                  | _ => pre ++ b :: post
                  end = pre ++ b :: post).
    { destruct (u_isMaster updates) as [[|] |]; congruence. }
    rewrite Hl1.
    rewrite (list_lookup_middle pre post b index) by (symmetry; exact Hlen).
    cbn [fst accounts set_accounts].
    replace index with (List.length pre + 0)%nat by lia.
    rewrite insert_app_r. cbn [list_insert insert].
    rewrite masters_app, masters_cons in *.
    assert (Hle : ((if isMaster (merge b updates) then 1 else 0)
                   <= (if isMaster b then 1 else 0))%nat).
    { unfold merge. cbn [isMaster].
      destruct (u_isMaster updates) as [[|] |]; cbn;
        [congruence | destruct (isMaster b); lia | destruct (isMaster b); lia]. }
    lia.
Qed.

End Roster.

(** C5, at the input where it fails.  The roster holds one account, the
    master.  The handler that creates accounts passes [isMaster: true] for the
    second account (its test is [getAccounts().length === 1]), and addAccount,
    which sets the flag for a first account, does not clear it on the others
    for a later one: the roster ends with two masters. *)
Theorem addAccount_second_master :
  let c := Sample.roster [Sample.alice] in
  let arg := ConfigStorage.handler_new_account "Bob" "WEB-token" None 100 10 20 c in
  let c' := fst (ConfigStorage.addAccount "b2" arg c) in
  ConfigStorage.single_master (accounts c)
  /\ isMaster arg = true
  /\ List.map (fun a => (id a, isMaster a)) (accounts c')
     = [("a1", true); ("b2", true)]
  /\ ~ ConfigStorage.single_master (accounts c').
Proof.
  cbv zeta. split; [unfold ConfigStorage.single_master; cbn; lia |].
  split; [reflexivity |]. split; [reflexivity |].
  unfold ConfigStorage.single_master. cbn. lia.
Qed.

(** ** signals.ts: the parser *)

(** The example of the specification: ticker, both prices and the word
    LONG. *)
Example parseTradeSignal_sample :
  parseTradeSignal Sample.signal_text = Some Sample.btc_signal.
Proof. vm_compute. reflexivity. Qed.

(** The same text without the DEX price is not a signal. *)
Example parseTradeSignal_without_dex :
  parseTradeSignal "#BTC_USDT LONG Price MEXC $101" = None.
Proof. vm_compute. reflexivity. Qed.

(** What a parsed signal rests on: the ticker, both labelled prices, and the
    two prices read as numbers. *)
Lemma parseTradeSignal_requires text s :
  parseTradeSignal text = Some s ->
  exists sym dex mexc,
    Text.search ticker_at text = Some sym
    /\ Text.search (labelled_price_at "DEX") text = Some dex
    /\ Text.search (labelled_price_at "MEXC") text = Some mexc
    /\ Text.parseFloat dex = Some (sig_takeProfit s)
    /\ Text.parseFloat mexc = Some (sig_entryPrice s)
    /\ sig_symbol s = Text.toUpperCase sym.
Proof.
  unfold parseTradeSignal.
  destruct (Text.search ticker_at text) as [sym |]; [| discriminate].
  destruct (Text.search (labelled_price_at "DEX") text) as [dex |]; [| discriminate].
  destruct (Text.search (labelled_price_at "MEXC") text) as [mexc |]; [| discriminate].
  destruct (Text.parseFloat dex) as [pd |] eqn:Hdex; [| discriminate].
  destruct (Text.parseFloat mexc) as [pm |] eqn:Hmexc; [| discriminate].
  intros H. inversion H; subst. cbn. exists sym, dex, mexc.
  repeat split; assumption.
Qed.

(** C7, at the input where it fails.  A text whose two prices are 0 has the
    ticker and both labels, and each price parses as a number; the parser
    tests the prices for [NaN] only, so it returns a signal with an entry
    price and a take-profit of 0, which are not positive. *)
Theorem parseTradeSignal_zero_price :
  parseTradeSignal "#BTC_USDT LONG Price DEX $0 Price MEXC $0"
  = Some {| sig_symbol := "BTC"; sig_fullSymbol := "BTC_USDT";
            sig_entryPrice := 0; sig_takeProfit := 0; sig_side := long |}.
Proof. vm_compute. reflexivity. Qed.

(** * Further properties of the code *)

(** ** helpers.ts: numbers *)

Section Numbers.

Lemma floor_spec x : Js.floor x <= x /\ x < Js.floor x + 1.
Proof.
  unfold Js.floor. split; [apply Qfloor_le |].
  pose proof (Qlt_floor x) as H. rewrite inject_Z_plus in H. exact H.
Qed.

Lemma inject_Z_lt_succ a b : inject_Z a < inject_Z b + 1 -> (a <= b)%Z.
Proof.
  intros H. change 1 with (inject_Z 1) in H. rewrite <- inject_Z_plus in H.
  rewrite <- Zlt_Qlt in H. lia.
Qed.

Lemma draw_times r y : unit_draw r -> 0 < y -> 0 <= r * y /\ r * y < y.
Proof.
  intros [H0 H1] Hy. split.
  - apply Qmult_le_0_compat; [exact H0 | apply Qlt_le_weak; exact Hy].
  - assert (H : r * y < 1 * y) by (apply Qmult_lt_compat_r; assumption).
    rewrite Qmult_1_l in H. exact H.
Qed.

(** The floor of the product of a draw with a whole number plus one is a
    whole number from zero to that number. *)
Lemma floor_draw r (n : Z) x :
  unit_draw r -> x == inject_Z n -> (0 <= n)%Z ->
  exists k : Z, Js.floor (r * (x + 1)) == inject_Z k /\ (0 <= k <= n)%Z.
Proof.
  intros Hr Hx Hn.
  exists (Qfloor (r * (x + 1))). split; [reflexivity |].
  assert (Hn' : 0 <= inject_Z n)
    by (change 0 with (inject_Z 0); rewrite <- Zle_Qle; exact Hn).
  destruct (floor_spec (r * (x + 1))) as [Hlo Hhi]. unfold Js.floor in *.
  destruct (draw_times r (x + 1) Hr) as [Hp0 Hp1]; [rewrite Hx; lra |].
  split.
  - apply Qfloor_resp_le in Hp0. change (Qfloor 0) with 0%Z in Hp0. exact Hp0.
  - apply inject_Z_lt_succ.
    apply Qle_lt_trans with (r * (x + 1)); [exact Hlo |].
    rewrite <- Hx. exact Hp1.
Qed.

Lemma pow10_pos k : 0 < Js.pow10 k.
Proof.
  unfold Js.pow10. change 0 with (inject_Z 0). rewrite <- Zlt_Qlt.
  apply Z.pow_pos_nonneg; lia.
Qed.

Lemma whole_floor x : whole x <-> Qeq_bool (Js.floor x) x = true.
Proof.
  unfold whole, Js.floor. rewrite Qeq_bool_iff. split.
  - intros [z Hz]. rewrite (Qfloor_comp _ _ Hz), Qfloor_Z. symmetry. exact Hz.
  - intros H. exists (Qfloor x). symmetry. exact H.
Qed.

(** The search for the number of decimal places stops at the first count
    that makes the number whole. *)
Lemma decimal_places_from_some fuel : forall k x d,
  decimal_places_from fuel k x = Some d ->
  (k <= d <= k + fuel)%nat /\ whole (x * Js.pow10 d).
Proof.
  induction fuel as [| fuel IH]; intros k x d; cbn [decimal_places_from];
    destruct (Qeq_bool _ _) eqn:Hw; intros H; try discriminate.
  - inversion H; subst. split; [lia | apply whole_floor; exact Hw].
  - inversion H; subst. split; [lia | apply whole_floor; exact Hw].
  - destruct (IH _ _ _ H) as [Hr Hd]. split; [lia | exact Hd].
Qed.

Lemma decimal_places_from_finds fuel : forall k x j,
  (k <= j <= k + fuel)%nat -> whole (x * Js.pow10 j) ->
  exists d, decimal_places_from fuel k x = Some d /\ (d <= j)%nat.
Proof.
  induction fuel as [| fuel IH]; intros k x j Hj Hw; cbn [decimal_places_from];
    destruct (Qeq_bool _ _) eqn:Hk.
  - exists k. split; [reflexivity | lia].
  - assert (j = k) by lia. subst j. apply whole_floor in Hw. congruence.
  - exists k. split; [reflexivity | lia].
  - assert (Hne : j <> k).
    { intros ->. apply whole_floor in Hw. congruence. }
    apply IH; [lia | exact Hw].
Qed.

Lemma round_half_up_whole (n : Z) y :
  y == inject_Z n -> Qfloor (y + (1 # 2)) = n.
Proof.
  intros Hy. apply Z.le_antisymm.
  - apply Z.lt_succ_r. rewrite Zlt_Qlt.
    apply Qle_lt_trans with (y + (1 # 2)); [apply Qfloor_le |].
    unfold Z.succ. rewrite inject_Z_plus, <- Hy. change (inject_Z 1) with 1. lra.
  - rewrite <- (Qfloor_Z n). apply Qfloor_resp_le. rewrite <- Hy. lra.
Qed.

(** [toFixed] leaves a number that has no more places than asked for as it
    is. *)
Lemma to_fixed_exact x k : whole (x * Js.pow10 k) -> Js.to_fixed x k == x.
Proof.
  intros [z Hz]. unfold Js.to_fixed.
  pose proof (pow10_pos k) as Hp.
  destruct (Qle_bool 0 x).
  - rewrite (round_half_up_whole z _ Hz), <- Hz. field. lra.
  - assert (Hz' : - x * Js.pow10 k == inject_Z (- z)).
    { rewrite inject_Z_opp, <- Hz. ring. }
    rewrite (round_half_up_whole _ _ Hz'), <- Hz'. field. lra.
Qed.

Lemma to_fixed_0_whole x : whole (Js.to_fixed x 0).
Proof.
  unfold Js.to_fixed, whole. change (Js.pow10 0) with 1.
  destruct (Qle_bool 0 x).
  - exists (Qfloor (x * 1 + (1 # 2))). field.
  - exists (- Qfloor (- x * 1 + (1 # 2)))%Z. rewrite inject_Z_opp. field.
Qed.

Lemma step_decimals_positional step :
  positional_step step -> whole (step * Js.pow10 (step_decimals step)).
Proof.
  intros [Hbig Hw]. unfold step_decimals.
  rewrite (proj2 (Qle_bool_iff _ _) Hbig).
  destruct (decimal_places_from_finds 17 0 step 10) as (d & Hd & Hle);
    [lia | exact Hw |].
  unfold decimal_places. rewrite Hd.
  rewrite Nat.min_r by exact Hle.
  apply (decimal_places_from_some _ _ _ _ Hd).
Qed.

Lemma round_spec y : Js.round y <= y + (1 # 2) /\ y - (1 # 2) < Js.round y.
Proof.
  unfold Js.round. pose proof (Qfloor_le (y + (1 # 2))) as H1.
  pose proof (Qlt_floor (y + (1 # 2))) as H2. rewrite inject_Z_plus in H2.
  change (inject_Z 1) with 1 in H2. split; lra.
Qed.

(** For a positional step the result is the multiple of the step that
    [Math.round] picks: [toFixed] changes nothing. *)
Lemma roundToStep_multiple value step :
  positional_step step -> roundToStep value step == Js.round (value / step) * step.
Proof.
  intros Hstep. pose proof Hstep as [Hbig _].
  unfold roundToStep.
  assert (Hpos : Qle_bool step 0 = false).
  { destruct (Qle_bool step 0) eqn:H; [| reflexivity].
    apply Qle_bool_iff in H. lra. }
  rewrite Hpos. apply to_fixed_exact.
  destruct (step_decimals_positional step Hstep) as [m Hm].
  unfold Js.round. exists (Qfloor (value / step + (1 # 2)) * m)%Z.
  rewrite inject_Z_mult, <- Hm. ring.
Qed.

(** A step that is printed in exponent notation without a fraction, [1e-7]
    to [1e-10]: its text holds no dot. *)
Lemma step_decimals_exponent k :
  (7 <= k <= 10)%nat ->
  Qle_bool (1 / Js.pow10 k) 0 = false /\ step_decimals (1 / Js.pow10 k) = 0%nat.
Proof.
  intros Hk.
  assert (H : (k = 7 \/ k = 8 \/ k = 9 \/ k = 10)%nat) by lia.
  destruct H as [-> | [-> | [-> | ->]]]; split; vm_compute; reflexivity.
Qed.

End Numbers.

(** X1. For a draw in [0,1) and bounds lo <= hi that are a whole number
    apart, [randomDelay] and [randomLeverage] return lo plus a whole number,
    between lo and hi, both included. *)
Theorem random_in_range (r lo hi : Q) :
  unit_draw r -> lo <= hi -> whole (hi - lo) ->
  (lo <= randomDelay r lo hi <= hi /\ whole (randomDelay r lo hi - lo))
  /\ (lo <= randomLeverage r lo hi <= hi /\ whole (randomLeverage r lo hi - lo)).
Proof.
  intros Hr Hle [n Hn].
  assert (Hn0 : (0 <= n)%Z).
  { rewrite Zle_Qle. apply Qle_trans with (hi - lo); [| rewrite Hn; apply Qle_refl].
    change (inject_Z 0) with 0. lra. }
  destruct (floor_draw r n (hi - lo) Hr Hn Hn0) as (k & Hk & Hk0 & Hkn).
  assert (H0 : 0 <= inject_Z k)
    by (change 0 with (inject_Z 0); rewrite <- Zle_Qle; exact Hk0).
  assert (H1 : inject_Z k <= inject_Z n) by (rewrite <- Zle_Qle; exact Hkn).
  unfold randomDelay, randomLeverage, whole.
  set (f := Js.floor (r * (hi - lo + 1))) in *.
  repeat split; try lra; exists k; rewrite Hk; ring.
Qed.

Lemma random_in_range_witness :
  (0 <= randomDelay (1 # 2) 0 1000 <= 1000
   /\ whole (randomDelay (1 # 2) 0 1000 - 0))
  /\ (0 <= randomLeverage (1 # 2) 0 1000 <= 1000
      /\ whole (randomLeverage (1 # 2) 0 1000 - 0)).
Proof.
  apply (random_in_range (1 # 2) 0 1000).
  - split; [discriminate | reflexivity].
  - discriminate.
  - exists 1000%Z. reflexivity.
Defined.

Lemma randomLeverage_inverted_range (r lo hi : Q) :
  unit_draw r -> hi < lo -> whole (lo - hi) ->
  hi + 1 <= randomLeverage r lo hi <= lo.
Proof.
  intros Hr Hlt [n Hn]. unfold randomLeverage.
  destruct (Qeq_dec (lo - hi) 1) as [H1 | H1].
  - assert (Hz : r * (hi - lo + 1) == 0).
    { assert (E : hi - lo + 1 == 0) by lra. rewrite E. ring. }
    unfold Js.floor. rewrite (Qfloor_comp _ _ Hz).
    change (inject_Z (Qfloor 0)) with 0. lra.
  - assert (Hn2 : (2 <= n)%Z).
    { assert (H : inject_Z 0 < inject_Z n).
      { apply Qlt_le_trans with (lo - hi); [change (inject_Z 0) with 0; lra |].
        rewrite Hn. apply Qle_refl. }
      rewrite <- Zlt_Qlt in H.
      assert (n <> 1%Z) by (intros ->; apply H1; exact Hn). lia. }
    assert (Hn2' : 2 <= inject_Z n)
      by (change 2 with (inject_Z 2); rewrite <- Zle_Qle; exact Hn2).
    assert (Hpos : 0 < lo - hi - 1) by (rewrite Hn; lra).
    destruct (draw_times r (lo - hi - 1) Hr Hpos) as [Hp0 Hp1].
    destruct (floor_spec (r * (hi - lo + 1))) as [Hlo Hhi].
    set (f := Js.floor (r * (hi - lo + 1))) in *.
    assert (Heq : r * (hi - lo + 1) == - (r * (lo - hi - 1))) by ring.
    split; [| lra].
    assert (Hm : inject_Z (1 - n) == 1 - inject_Z n).
    { unfold Z.sub. rewrite inject_Z_plus, inject_Z_opp. reflexivity. }
    assert (H : inject_Z (1 - n) <= r * (hi - lo + 1)).
    { rewrite Hm, Heq, <- Hn. lra. }
    apply Qfloor_resp_le in H. rewrite Qfloor_Z in H.
    rewrite Zle_Qle in H. rewrite Hm in H. subst f. unfold Js.floor.
    apply Qle_trans with (1 - inject_Z n + lo); [rewrite <- Hn; lra | lra].
Qed.

(** X2. With the bounds the wrong way round, hi < lo a whole number apart,
    [randomLeverage] returns a value from hi + 1 to lo: above the upper
    bound it was given. *)
Theorem randomLeverage_inverted (r lo hi : Q) :
  unit_draw r -> hi < lo -> whole (lo - hi) ->
  hi + 1 <= randomLeverage r lo hi <= lo.
Proof. apply randomLeverage_inverted_range. Qed.

Lemma randomLeverage_inverted_witness :
  20 + 1 <= randomLeverage (1 # 2) 40 20 <= 40.
Proof.
  apply (randomLeverage_inverted (1 # 2) 40 20).
  - split; [discriminate | reflexivity].
  - reflexivity.
  - exists 20%Z. reflexivity.
Defined.

(** X3. For a positional step (at least 0.000001, ten decimal places at
    most) [roundToStep] returns a whole multiple of the step, at most half
    a step away from the value. *)
Theorem roundToStep_nearest_multiple (value step : Q) :
  positional_step step ->
  whole (roundToStep value step / step)
  /\ value - step / 2 < roundToStep value step
  /\ roundToStep value step <= value + step / 2.
Proof.
  intros Hstep. pose proof Hstep as [Hbig _].
  pose proof (roundToStep_multiple value step Hstep) as Heq.
  destruct (round_spec (value / step)) as [Hhi Hlo].
  assert (Hs : 0 < step) by lra.
  split; [| split].
  - exists (Qfloor (value / step + (1 # 2))).
    rewrite Heq. unfold Js.round. field. lra.
  - rewrite Heq.
    assert (E : (value / step - (1 # 2)) * step == value - step / 2) by (field; lra).
    rewrite <- E. apply Qmult_lt_compat_r; assumption.
  - rewrite Heq.
    assert (E : (value / step + (1 # 2)) * step == value + step / 2) by (field; lra).
    rewrite <- E. apply Qmult_le_compat_r; lra.
Qed.

Lemma roundToStep_nearest_multiple_witness :
  whole (roundToStep (1001234567 # 10000000) (1 # 100) / (1 # 100))
  /\ (1001234567 # 10000000) - (1 # 100) / 2
     < roundToStep (1001234567 # 10000000) (1 # 100)
  /\ roundToStep (1001234567 # 10000000) (1 # 100)
     <= (1001234567 # 10000000) + (1 # 100) / 2.
Proof.
  apply (roundToStep_nearest_multiple (1001234567 # 10000000) (1 # 100)).
  split; [discriminate | exists 100000000%Z; reflexivity].
Defined.

(** X4. For a positional step [roundToStep] is idempotent: a price that was
    rounded to the step is not moved by a second rounding. *)
Theorem roundToStep_idempotent (value step : Q) :
  positional_step step ->
  roundToStep (roundToStep value step) step == roundToStep value step.
Proof.
  intros Hstep. pose proof Hstep as [Hbig _].
  rewrite (roundToStep_multiple (roundToStep value step) step Hstep).
  rewrite (roundToStep_multiple value step Hstep) at 2.
  apply Qmult_comp; [| reflexivity].
  unfold Js.round at 1.
  rewrite (round_half_up_whole (Qfloor (value / step + (1 # 2)))); [reflexivity |].
  rewrite (roundToStep_multiple value step Hstep). unfold Js.round. field. lra.
Qed.

Lemma roundToStep_idempotent_witness :
  roundToStep (roundToStep (1001234567 # 10000000) (1 # 100)) (1 # 100)
  == roundToStep (1001234567 # 10000000) (1 # 100).
Proof.
  apply (roundToStep_idempotent (1001234567 # 10000000) (1 # 100)).
  split; [discriminate | exists 100000000%Z; reflexivity].
Defined.

(** X5. For a step of 1e-7, 1e-8, 1e-9 or 1e-10, which [toString] prints
    without a dot, [roundToStep] rounds to zero decimal places: the result
    is a whole number, and every value from 0 to 0.4 becomes 0. *)
Theorem roundToStep_exponent_step (k : nat) (value : Q) :
  (7 <= k <= 10)%nat ->
  whole (roundToStep value (1 / Js.pow10 k))
  /\ (0 <= value <= 2 # 5 -> roundToStep value (1 / Js.pow10 k) == 0).
Proof.
  intros Hk. destruct (step_decimals_exponent k Hk) as [Hpos Hdec].
  unfold roundToStep. rewrite Hpos, Hdec. split; [apply to_fixed_0_whole |].
  intros [H0 H1].
  set (step := 1 / Js.pow10 k).
  assert (Hstep : 0 < step /\ step <= 1 # 10000000).
  { subst step. pose proof (pow10_pos k) as Hp. split.
    - apply Qlt_shift_div_l; [exact Hp | lra].
    - apply Qle_shift_div_r; [exact Hp |].
      assert (Hge : Js.pow10 7 <= Js.pow10 k).
      { unfold Js.pow10. rewrite <- Zle_Qle. apply Z.pow_le_mono_r; lia. }
      change (Js.pow10 7) with (inject_Z 10000000) in Hge.
      change (inject_Z 10000000) with 10000000 in Hge. lra. }
  destruct Hstep as [Hs0 Hs1].
  destruct (round_spec (value / step)) as [Hhi Hlo].
  assert (Hq : 0 <= value / step).
  { apply Qle_shift_div_l; [exact Hs0 | lra]. }
  assert (Hr0 : 0 <= Js.round (value / step)).
  { unfold Js.round. change 0 with (inject_Z 0). rewrite <- Zle_Qle.
    change 0%Z with (Qfloor 0). apply Qfloor_resp_le. lra. }
  set (n := Js.round (value / step)) in *.
  assert (Hlow : 0 <= n * step) by (apply Qmult_le_0_compat; lra).
  assert (Hup : n * step <= value + step * (1 # 2)).
  { assert (E : (value / step + (1 # 2)) * step == value + step * (1 # 2))
      by (field; lra).
    rewrite <- E. apply Qmult_le_compat_r; lra. }
  clearbody n step. set (p := n * step) in *. clearbody p.
  clear Hhi Hlo Hq Hr0 Hpos Hdec.
  unfold Js.to_fixed. rewrite (proj2 (Qle_bool_iff _ _) Hlow).
  change (Js.pow10 0) with 1.
  assert (Hf : Qfloor (p * 1 + (1 # 2)) = 0%Z).
  { apply Z.le_antisymm.
    - apply Z.lt_succ_r. rewrite Zlt_Qlt.
      apply Qle_lt_trans with (p * 1 + (1 # 2)); [apply Qfloor_le |].
      change (inject_Z (Z.succ 0)) with 1. lra.
    - change 0%Z with (Qfloor 0) at 1. apply Qfloor_resp_le. lra. }
  rewrite Hf. reflexivity.
Qed.

Lemma roundToStep_exponent_step_witness :
  whole (roundToStep (123 # 10000000) (1 / Js.pow10 7))
  /\ (0 <= 123 # 10000000 <= 2 # 5
      -> roundToStep (123 # 10000000) (1 / Js.pow10 7) == 0).
Proof. apply (roundToStep_exponent_step 7 (123 # 10000000)). lia. Defined.

(** X6. Whatever the text, [priceStepFromText] returns a power of ten from
    1e-10 to 1: the step is never zero or negative. *)
Theorem priceStepFromText_power_of_ten (text : string) :
  exists d : nat, (d <= 10)%nat /\ priceStepFromText text == 1 / Js.pow10 d.
Proof.
  unfold priceStepFromText.
  destruct (Text.search mexc_number_at text) as [numStr |];
    [| exists 5%nat; split; [lia | reflexivity]].
  destruct (after_dot numStr) as [frac |];
    [| exists 0%nat; split; [lia | reflexivity]].
  destruct (Nat.leb (String.length frac) 0 || Nat.ltb 10 (String.length frac)) eqn:H.
  - exists 5%nat. split; [lia | reflexivity].
  - apply orb_false_iff in H. destruct H as [_ H]. apply Nat.ltb_ge in H.
    exists (String.length frac). split; [exact H | reflexivity].
Qed.

(** X7. [mexcCodeToSide] decodes what [sideToMexcCode] encodes; encoding
    what it decodes gives the code back exactly for the codes 1 to 4 (any
    other code reads as opening a long); and every order that
    [openPosition] or [closePosition] sends carries the code of the table
    for its side. *)
Theorem side_codes_round_trip :
  (forall sd action, mexcCodeToSide (sideToMexcCode sd action) = (sd, action))
  /\ (forall code,
        sideToMexcCode (fst (mexcCodeToSide code)) (snd (mexcCodeToSide code)) = code
        <-> (1 <= code <= 4)%Z)
  /\ (forall c p w,
        Forall (side_code_is (sideToMexcCode (op_side p) act_open))
          (events (MexcClientWrapper.openPosition c p w)))
  /\ (forall c p w,
        Forall (side_code_is (sideToMexcCode (cl_side p) act_close))
          (events (MexcClientWrapper.closePosition c p w))).
Proof.
  split; [intros [] []; reflexivity |].
  split.
  - intros code. unfold mexcCodeToSide.
    destruct (Z.eqb_spec code 1); [subst; cbn; split; [lia | reflexivity] |].
    destruct (Z.eqb_spec code 2); [subst; cbn; split; [lia | reflexivity] |].
    destruct (Z.eqb_spec code 3); [subst; cbn; split; [lia | reflexivity] |].
    destruct (Z.eqb_spec code 4); [subst; cbn; split; [lia | reflexivity] |].
    cbn. split; [intros <-; lia | lia].
  - split; intros c p w.
    + assert (H : emits (side_code_is (sideToMexcCode (op_side p) act_open))
                    (MexcClientWrapper.openPosition c p)); [| apply H].
      unfold MexcClientWrapper.openPosition.
      apply emits_submitOrder; try (intros; exact I).
      cbn. destruct (op_side p); reflexivity.
    + assert (H : emits (side_code_is (sideToMexcCode (cl_side p) act_close))
                    (MexcClientWrapper.closePosition c p)); [| apply H].
      unfold MexcClientWrapper.closePosition.
      apply emits_submitOrder; try (intros; exact I).
      cbn. destruct (cl_side p); reflexivity.
Qed.

(** ** helpers.ts: texts *)

Lemma length_substring_0 n s :
  String.length (String.substring 0 n s) = Nat.min n (String.length s).
Proof.
  revert s. induction n as [| n IH]; intros [| c s]; cbn; try reflexivity.
  rewrite IH. reflexivity.
Qed.

Lemma length_append a b :
  String.length (a +:+ b) = (String.length a + String.length b)%nat.
Proof.
  induction a as [| c a IH]; [reflexivity |].
  change (S (String.length (a +:+ b)) = S (String.length a + String.length b)).
  f_equal. exact IH.
Qed.

Lemma to_integer_le x :
  0 <= x -> (0 <= to_integer x)%Z /\ inject_Z (to_integer x) <= x.
Proof.
  intros Hx. unfold to_integer. destruct x as [n d]. cbn [Qnum Qden].
  assert (Hn : (0 <= n)%Z).
  { unfold Qle in Hx. cbn in Hx. lia. }
  rewrite Z.quot_div_nonneg by lia.
  split; [apply Z.div_pos; lia |].
  change (n / Z.pos d)%Z with (Qfloor (n # d)). apply Qfloor_le.
Qed.

(** X8. The result of [truncate] fits in [maxLength] exactly when
    [maxLength] is at least 3 or the text fits as it is: for a smaller
    [maxLength] a text that is too long comes back with its three dots and
    is still too long. *)
Theorem truncate_fits (str : string) (maxLength : Q) :
  js_length (truncate str maxLength) <= maxLength
  <-> (3 <= maxLength \/ js_length str <= maxLength).
Proof.
  unfold truncate, js_length.
  destruct (Qle_bool _ maxLength) eqn:Hfit.
  - apply Qle_bool_iff in Hfit.
    split; [intros _; right; exact Hfit | intros _; exact Hfit].
  - assert (Hlong : ~ inject_Z (Z.of_nat (String.length str)) <= maxLength).
    { intros H. apply Qle_bool_iff in H. congruence. }
    unfold slice_to. rewrite length_append, length_substring_0.
    change (String.length "...") with 3%nat.
    set (ti := to_integer (maxLength - 3)).
    set (len := String.length str).
    split.
    + intros H. left.
      apply Qle_trans with (inject_Z (Z.of_nat (Nat.min (Z.to_nat
               (if (ti <? 0)%Z then Z.max (Z.of_nat len + ti) 0
                else Z.min ti (Z.of_nat len))) len + 3))); [| exact H].
      change 3 with (inject_Z 3). rewrite <- Zle_Qle. lia.
    + intros [H3 | Hlen]; [| contradiction].
      destruct (to_integer_le (maxLength - 3)) as [Hti0 Hti]; [lra |].
      fold ti in Hti0, Hti.
      destruct (Z.ltb_spec ti 0) as [Hneg | _]; [lia |].
      apply Qle_trans with (inject_Z (ti + 3)).
      * rewrite <- Zle_Qle. lia.
      * rewrite inject_Z_plus. change (inject_Z 3) with 3. lra.
Qed.

(** X9. A text escaped by [escapeMarkdown] reads back as the text itself,
    with no character left that would be markup, and it is longer than the
    text by one character for each reserved character. *)
Theorem escapeMarkdown_literal (text : string) :
  markdown_literal (escapeMarkdown text) = Some text
  /\ String.length (escapeMarkdown text)
     = (String.length text
        + List.length (List.filter is_markdown_special
                         (list_ascii_of_string text)))%nat.
Proof.
  induction text as [| c text [IH1 IH2]]; [split; reflexivity |].
  cbn [escapeMarkdown list_ascii_of_string List.filter].
  destruct (is_markdown_special c) eqn:Hc.
  - cbn [markdown_literal String.length List.length].
    rewrite Ascii.eqb_refl, IH1, IH2. split; [reflexivity | lia].
  - cbn [markdown_literal String.length].
    assert (Hb : Ascii.eqb c backslash = false).
    { destruct (Ascii.eqb_spec c backslash) as [-> |]; [| reflexivity].
      vm_compute in Hc. discriminate. }
    rewrite Hb, Hc, IH1, IH2. split; reflexivity.
Qed.

(** X10. For a positive price of one contract, [calculatePositionSize]
    returns a whole number of contracts whose cost does not exceed the
    position while one contract more would; and for a leverage other than
    zero [calculateMargin] gives back the margin the position was computed
    from. *)
Theorem calculatePositionSize_bounds (marginUsd leverage price : Q)
    (contractSize : option Q) :
  let positionUsd :=
    fst (calculatePositionSize marginUsd leverage price contractSize) in
  let contracts :=
    snd (calculatePositionSize marginUsd leverage price contractSize) in
  let unit := price * default 1 contractSize in
  0 < unit ->
  whole contracts
  /\ contracts * unit <= positionUsd
  /\ positionUsd < (contracts + 1) * unit
  /\ (~ leverage == 0 -> calculateMargin positionUsd leverage == marginUsd).
Proof.
  cbv zeta. unfold calculatePositionSize. cbn [fst snd]. intros Hunit.
  set (u := price * default 1 contractSize) in *.
  set (pos := marginUsd * leverage).
  destruct (floor_spec (pos / u)) as [Hlo Hhi].
  assert (E : pos / u * u == pos) by (field; lra).
  split; [eexists; reflexivity |]. split; [| split].
  - rewrite <- E at 2. apply Qmult_le_compat_r; lra.
  - rewrite <- E at 1. apply Qmult_lt_compat_r; lra.
  - intros Hl. unfold calculateMargin. subst pos. field. exact Hl.
Qed.

Lemma calculatePositionSize_bounds_witness :
  whole (snd (calculatePositionSize 10 20 3 None))
  /\ snd (calculatePositionSize 10 20 3 None) * (3 * 1)
     <= fst (calculatePositionSize 10 20 3 None)
  /\ fst (calculatePositionSize 10 20 3 None)
     < (snd (calculatePositionSize 10 20 3 None) + 1) * (3 * 1)
  /\ (~ 20 == 0 ->
      calculateMargin (fst (calculatePositionSize 10 20 3 None)) 20 == 10).
Proof. apply (calculatePositionSize_bounds 10 20 3 None). reflexivity. Defined.

(** ** signals.ts: the align parser *)

(** X11. A text that [parseAlignSignal] accepts holds the word "aligned", in
    any case, and a MEXC price above zero; the full symbol is the ticker
    that follows the check mark, in upper case, followed by _USDT. *)
Theorem parseAlignSignal_requires (text : string) (a : AlignSignal) :
  parseAlignSignal text = Some a ->
  0 < al_mexcPrice a
  /\ Text.includes (Text.toLowerCase text) "aligned" = true
  /\ al_fullSymbol a = al_symbol a +:+ "_USDT"
  /\ exists symbolMatch priceMatch,
       Text.search align_ticker_at text = Some symbolMatch
       /\ al_symbol a = Text.toUpperCase symbolMatch
       /\ Text.search mexc_number_at text = Some priceMatch
       /\ Text.parseFloat priceMatch = Some (al_mexcPrice a).
Proof.
  unfold parseAlignSignal.
  destruct (Text.search align_ticker_at text) as [symbolMatch |] eqn:Hsym;
    [| discriminate].
  destruct (Text.includes (Text.toLowerCase text) "aligned") eqn:Hal;
    cbn [negb]; [| discriminate].
  destruct (Text.search mexc_number_at text) as [priceMatch |] eqn:Hprice;
    [| discriminate].
  destruct (Text.parseFloat priceMatch) as [mexcPrice |] eqn:Hnum; [| discriminate].
  destruct (Qle_bool mexcPrice 0) eqn:Hpos; [discriminate |].
  intros H. inversion H; subst. cbn.
  split.
  - apply Qnot_le_lt. intros Hle. apply Qle_bool_iff in Hle. congruence.
  - split; [reflexivity |]. split; [reflexivity |].
    exists symbolMatch, priceMatch. repeat split; assumption.
Qed.

Lemma parseAlignSignal_requires_witness :
  let a := {| al_symbol := "BTC"; al_fullSymbol := "BTC_USDT";
              al_mexcPrice := 2 |} in
  0 < al_mexcPrice a
  /\ Text.includes (Text.toLowerCase "✅ #btc Aligned! Price MEXC $2") "aligned" = true
  /\ al_fullSymbol a = al_symbol a +:+ "_USDT"
  /\ exists symbolMatch priceMatch,
       Text.search align_ticker_at "✅ #btc Aligned! Price MEXC $2" = Some symbolMatch
       /\ al_symbol a = Text.toUpperCase symbolMatch
       /\ Text.search mexc_number_at "✅ #btc Aligned! Price MEXC $2" = Some priceMatch
       /\ Text.parseFloat priceMatch = Some (al_mexcPrice a).
Proof.
  apply (parseAlignSignal_requires "✅ #btc Aligned! Price MEXC $2").
  vm_compute. reflexivity.
Defined.

(** The zero price that [parseTradeSignal] lets through is refused here, and
    so is a text without the word. *)
Example parseAlignSignal_refuses :
  parseAlignSignal "✅ #BTC aligned Price MEXC $0" = None
  /\ parseAlignSignal "✅ #BTC Price MEXC $2" = None.
Proof. split; vm_compute; reflexivity. Qed.

(** ** storage.ts: deleting, importing and disabling accounts *)

Section Deleting.

Import ConfigStorage.

Implicit Types (l pre post : list AccountConfig) (a : AccountConfig).

Lemma findIndex_none i l :
  findIndex i l = None -> Forall (fun b => id b <> i) l.
Proof.
  induction l as [| b l IH]; cbn; [constructor |].
  destruct (String.eqb (id b) i) eqn:Hb; [discriminate |].
  destruct (findIndex i l); [discriminate |].
  intros _. constructor; [apply String.eqb_neq; exact Hb | apply IH; reflexivity].
Qed.

Lemma ids_without i l :
  Forall (fun b => id b <> i) l ->
  List.filter (fun j => negb (String.eqb j i)) (List.map id l) = List.map id l.
Proof.
  induction 1 as [| b l Hb _ IH]; [reflexivity |].
  cbn. apply String.eqb_neq in Hb. rewrite Hb. cbn. f_equal. exact IH.
Qed.

Lemma find_without i l :
  Forall (fun b => id b <> i) l ->
  List.find (fun a => String.eqb (id a) i) l = None.
Proof.
  induction 1 as [| b l Hb _ IH]; [reflexivity |].
  cbn. apply String.eqb_neq in Hb. rewrite Hb. exact IH.
Qed.

Lemma promote_ids l :
  List.map id (match l with
               | a0 :: rest => set_isMaster true a0 :: rest
               | [] => l
               end) = List.map id l.
Proof. destruct l; reflexivity. Qed.

(** [findIndex] and [find] meet the same account. *)
Lemma getAccountById_index i c a :
  getAccountById i c = Some a ->
  exists index, findIndex i (accounts c) = Some index
                /\ accounts c !! index = Some a.
Proof.
  unfold getAccountById.
  induction (accounts c) as [| x l IH]; cbn; [discriminate |].
  destruct (String.eqb (id x) i).
  - intros H. inversion H; subst. exists 0%nat. split; reflexivity.
  - intros H. destruct (IH H) as (k & -> & Hk). exists (S k).
    split; [reflexivity | exact Hk].
Qed.

Lemma no_master_found l :
  masters l = 0%nat -> List.find (fun a => isMaster a && enabled a) l = None.
Proof.
  induction l as [| a l IH]; [reflexivity |].
  rewrite masters_cons. cbn [List.find].
  destruct (isMaster a); [intros H; lia |]. cbn. exact IH.
Qed.

End Deleting.

(** X12. When the ids of the roster are distinct, [deleteAccount] returns
    true exactly when the id is in the roster; afterwards the roster holds
    the other ids, in their order, and no account with that id; when it
    returns false the configuration is unchanged. *)
Theorem deleteAccount_removes (i : string) (c : BotConfig) :
  NoDup (List.map id (accounts c)) ->
  let out := ConfigStorage.deleteAccount i c in
  (snd out = true <-> In i (List.map id (accounts c)))
  /\ List.map id (accounts (fst out))
     = List.filter (fun j => negb (String.eqb j i)) (List.map id (accounts c))
  /\ ConfigStorage.getAccountById i (fst out) = None
  /\ (snd out = false -> fst out = c).
Proof.
  intros Hnodup. cbv zeta. unfold ConfigStorage.deleteAccount.
  destruct (ConfigStorage.findIndex i (accounts c)) as [index |] eqn:Hfind.
  - destruct (findIndex_split _ _ _ Hfind) as (pre & a & post & Hl & Hlen & Hid & Hpre).
    pose proof Hnodup as Hpost. rewrite Hl in Hpost. apply unique_after in Hpost.
    rewrite Hid in Hpost.
    assert (Hrest : ConfigStorage.splice1 index (accounts c) = pre ++ post).
    { rewrite Hl. unfold ConfigStorage.splice1.
      change (@List.firstn AccountConfig) with (@take AccountConfig).
      change (@List.skipn AccountConfig) with (@drop AccountConfig).
      rewrite take_app_length' by (symmetry; exact Hlen).
      replace (pre ++ a :: post) with ((pre ++ [a]) ++ post)
        by (rewrite <- app_assoc; reflexivity).
      rewrite drop_app_length' by (rewrite List.length_app; cbn; lia).
      reflexivity. }
    rewrite Hrest. cbn [fst snd accounts ConfigStorage.set_accounts].
    assert (Hothers : Forall (fun b => id b <> i) (pre ++ post))
      by (apply Forall_app; split; assumption).
    assert (Hids : forall l',
               List.map id l' = List.map id (pre ++ post) ->
               List.map id l'
               = List.filter (fun j => negb (String.eqb j i))
                   (List.map id (accounts c))).
    { intros l' ->. rewrite Hl, !List.map_app, List.filter_app.
      cbn [List.map List.filter].
      rewrite Hid, String.eqb_refl. cbn [negb].
      rewrite <- (ids_without i pre Hpre) at 1.
      rewrite <- (ids_without i post Hpost) at 1. reflexivity. }
    split; [split; [intros _ | reflexivity] |].
    { rewrite Hl, List.map_app. apply List.in_or_app. right. left. exact Hid. }
    split; [| split; [| discriminate]].
    + apply Hids. destruct (_ && _); [apply promote_ids | reflexivity].
    + unfold ConfigStorage.getAccountById. cbn [accounts ConfigStorage.set_accounts].
      apply find_without.
      destruct (_ && _); [| exact Hothers].
      destruct (pre ++ post) as [| a0 rest]; [constructor |].
      apply Forall_cons in Hothers. destruct Hothers as [H0 Hr].
      constructor; [exact H0 | exact Hr].
  - pose proof (findIndex_none _ _ Hfind) as Hnone. cbn [fst snd].
    split; [split; [discriminate |] |].
    { intros Hin. exfalso. apply List.in_map_iff in Hin.
      destruct Hin as (b & Hb & Hin).
      rewrite List.Forall_forall in Hnone. exact (Hnone b Hin Hb). }
    split; [symmetry; apply ids_without; exact Hnone |].
    split; [apply find_without; exact Hnone | reflexivity].
Qed.

Lemma deleteAccount_removes_witness :
  let c := Sample.roster [Sample.alice; Sample.bob; Sample.carol] in
  let out := ConfigStorage.deleteAccount "b2" c in
  (snd out = true <-> In "b2" (List.map id (accounts c)))
  /\ List.map id (accounts (fst out))
     = List.filter (fun j => negb (String.eqb j "b2")) (List.map id (accounts c))
  /\ ConfigStorage.getAccountById "b2" (fst out) = None
  /\ (snd out = false -> fst out = c).
Proof.
  apply (deleteAccount_removes "b2"
           (Sample.roster [Sample.alice; Sample.bob; Sample.carol])).
  apply (bool_decide_unpack _). vm_compute. reflexivity.
Defined.

Section Importing.

Import ConfigStorage.

Variable parseFloat : string -> option Q.
Variable uuids : nat -> string.

Lemma import_part_spec uuid part c :
  match import_part parseFloat uuid part c with
  | None => importable part = false
  | Some c' =>
      importable part = true
      /\ exists a, accounts c' = accounts c ++ [a]
                   /\ id a = uuid
                   /\ enabled a = true
                   /\ isMaster a = Nat.eqb (List.length (accounts c)) 0
  end.
Proof.
  unfold import_part, importable. cbv zeta.
  rewrite List.length_map.
  destruct (Nat.ltb_spec (List.length (Text.split ":" part)) 7) as [Hlt | Hge].
  - apply Nat.leb_gt. exact Hlt.
  - split; [apply Nat.leb_le; exact Hge |].
    unfold addAccount. cbn [fst accounts set_accounts].
    eexists. split; [reflexivity |].
    destruct (Nat.eqb (List.length (accounts c)) 0); repeat split.
Qed.

Lemma import_parts_spec parts : forall k c,
  let out := import_parts parseFloat uuids parts k c in
  let n := List.length (List.filter importable parts) in
  snd out = (k + n)%nat
  /\ (exists added, accounts (fst out) = accounts c ++ added
                    /\ List.length added = n
                    /\ Forall (fun a => enabled a = true) added)
  /\ masters (accounts (fst out))
     = match accounts c with
       | [] => Nat.min 1 n
       | _ => masters (accounts c)
       end.
Proof.
  induction parts as [| part parts IH]; intros k c; cbv zeta.
  - cbn. split; [lia |]. split.
    + exists []. rewrite app_nil_r. repeat split. constructor.
    + destruct (accounts c); reflexivity.
  - cbn [import_parts List.filter].
    pose proof (import_part_spec (uuids k) part c) as Hpart.
    destruct (import_part parseFloat (uuids k) part c) as [c' |].
    + destruct Hpart as (-> & a & Hacc & _ & Hen & Hm).
      destruct (IH (S k) c') as (Hcount & (added & Hadd & Hlen & Hall) & Hmasters).
      cbn [List.length]. split; [lia |]. split.
      * exists (a :: added). rewrite Hadd, Hacc, <- app_assoc. cbn.
        repeat split; [f_equal; exact Hlen | constructor; assumption].
      * rewrite Hmasters, Hacc.
        destruct (accounts c) as [| a0 l] eqn:Hc.
        -- cbn [app]. cbn in Hm. unfold masters. cbn. rewrite Hm. reflexivity.
        -- cbn [app]. cbn in Hm. change (a0 :: l ++ [a]) with ((a0 :: l) ++ [a]).
           rewrite masters_app. unfold masters at 2. cbn. rewrite Hm. cbn. lia.
    + rewrite Hpart. apply IH.
Qed.

End Importing.

(** X13. [importFromEnvFormat] returns the number of entries of MEXC_TOKENS
    that have seven fields at least, and appends that many enabled accounts
    to the roster; imported into an empty roster, exactly the first of them
    is master, and a roster that was not empty keeps its number of masters,
    so that at most one master stays at most one. *)
Theorem importFromEnvFormat_roster (parseFloat : string -> option Q)
    (uuids : nat -> string) (mexcTokensRaw : string) (c : BotConfig) :
  let out := ConfigStorage.importFromEnvFormat parseFloat uuids mexcTokensRaw c in
  let n := List.length (List.filter importable (env_parts mexcTokensRaw)) in
  snd out = n
  /\ (exists added, accounts (fst out) = accounts c ++ added
                    /\ List.length added = n
                    /\ Forall (fun a => enabled a = true) added)
  /\ ConfigStorage.masters (accounts (fst out))
     = match accounts c with
       | [] => Nat.min 1 n
       | _ => ConfigStorage.masters (accounts c)
       end
  /\ (ConfigStorage.single_master (accounts c)
      -> ConfigStorage.single_master (accounts (fst out))).
Proof.
  cbv zeta. unfold ConfigStorage.importFromEnvFormat. fold (env_parts mexcTokensRaw).
  destruct (import_parts_spec parseFloat uuids (env_parts mexcTokensRaw) 0 c)
    as (Hcount & Hadded & Hmasters).
  split; [exact Hcount |]. split; [exact Hadded |]. split; [exact Hmasters |].
  unfold ConfigStorage.single_master. rewrite Hmasters.
  destruct (accounts c); [lia | intros H; exact H].
Qed.

(** An import of three entries, the second too short: two accounts, the
    first one master, the proxy of the last one put together again. *)
Example importFromEnvFormat_sample :
  let out := ConfigStorage.importFromEnvFormat Text.parseFloat
               (fun n => "u" +:+ Text.decimal n)
               " WEBa:1:2:3:4:5:6 , short:1, WEBb:1:2:3:4:250:6:7:http://h:80"
               (Sample.roster []) in
  List.map (fun a => (id a, name a, authToken a, proxyUrl a, isMaster a,
                      Qred (maxPositionUsd a)))
           (accounts (fst out))
  = [ ("u0", "Аккаунт 1", "WEBa", None, true, 100);
      ("u1", "Аккаунт 2", "WEBb", Some "http://h:80", false, 250) ]
  /\ snd out = 2%nat.
Proof. vm_compute. split; reflexivity. Qed.

(** X14. When the one account that carries the master flag is disabled with
    [toggleAccount], the flag stays where it was and no account takes its
    place: [getMasterAccount] finds none, and a tick of the watcher does
    nothing at all, whatever accounts are still enabled. *)
Theorem disabled_master_stops_watcher (i : string) (c : BotConfig)
    (a : AccountConfig) :
  ConfigStorage.single_master (accounts c) ->
  ConfigStorage.getAccountById i c = Some a ->
  isMaster a = true ->
  let c' := fst (ConfigStorage.toggleAccount i false c) in
  snd (ConfigStorage.toggleAccount i false c) = true
  /\ ConfigStorage.getMasterAccount c' = None
  /\ ConfigStorage.masters (accounts c') = ConfigStorage.masters (accounts c)
  /\ forall w, config w = c' ->
       CopyTradingEngine.checkMasterChanges w = (Ret tt, w, []).
Proof.
  intros Hsingle Hget Hmaster. cbv zeta.
  destruct (getAccountById_index _ _ _ Hget) as (index & Hfind & Hlook).
  unfold ConfigStorage.toggleAccount. rewrite Hfind.
  cbn [fst snd accounts ConfigStorage.set_accounts].
  destruct (findIndex_split _ _ _ Hfind) as (pre & b & post & Hl & Hlen & _ & _).
  rewrite Hl in *.
  rewrite (list_lookup_middle pre post b index) in Hlook by (symmetry; exact Hlen).
  inversion Hlook; subst b. clear Hlook.
  assert (Halter : alter (ConfigStorage.set_enabled false) index (pre ++ a :: post)
                   = pre ++ ConfigStorage.set_enabled false a :: post).
  { rewrite <- Hlen. rewrite alter_app_r_alt by reflexivity.
    rewrite Nat.sub_diag. reflexivity. }
  rewrite Halter.
  unfold ConfigStorage.single_master in Hsingle.
  rewrite masters_app, masters_cons, Hmaster in Hsingle.
  assert (Hpre : ConfigStorage.masters pre = 0%nat) by lia.
  assert (Hpost : ConfigStorage.masters post = 0%nat) by lia.
  assert (Hnone : ConfigStorage.getMasterAccount
                    (ConfigStorage.set_accounts
                       (pre ++ ConfigStorage.set_enabled false a :: post) c) = None).
  { unfold ConfigStorage.getMasterAccount. cbn [accounts ConfigStorage.set_accounts].
    clear - Hpre Hpost.
    induction pre as [| x pre IH]; cbn [app List.find].
    - cbn. rewrite andb_false_r. apply no_master_found. exact Hpost.
    - rewrite masters_cons in Hpre. destruct (isMaster x); [lia |].
      cbn. apply IH. exact Hpre. }
  split; [reflexivity |]. split; [exact Hnone |]. split.
  - rewrite !masters_app, !masters_cons. reflexivity.
  - intros w Hw. unfold CopyTradingEngine.checkMasterChanges.
    rewrite run_get, Hw, Hnone. reflexivity.
Qed.

Lemma disabled_master_stops_watcher_witness :
  let c := Sample.roster [Sample.alice; Sample.bob] in
  let c' := fst (ConfigStorage.toggleAccount "a1" false c) in
  snd (ConfigStorage.toggleAccount "a1" false c) = true
  /\ ConfigStorage.getMasterAccount c' = None
  /\ ConfigStorage.masters (accounts c') = ConfigStorage.masters (accounts c)
  /\ forall w, config w = c' ->
       CopyTradingEngine.checkMasterChanges w = (Ret tt, w, []).
Proof.
  apply (disabled_master_stops_watcher "a1"
           (Sample.roster [Sample.alice; Sample.bob]) Sample.alice).
  - unfold ConfigStorage.single_master. vm_compute. lia.
  - reflexivity.
  - reflexivity.
Defined.

(** X15. After the account wizard has added a second account to a roster
    that held its master alone, both accounts carry the master flag, so the
    roster has no slave: the automatic copy of an opening does nothing, and
    the automatic copy of a close sends no request. *)
Theorem wizard_second_account_is_no_slave (nm token uuid : string)
    (proxy : option string) (maxPos levMin levMax : Q) (c : BotConfig)
    (a : AccountConfig) :
  accounts c = [a] ->
  isMaster a = true ->
  let c' := fst (ConfigStorage.addAccount uuid
                   (ConfigStorage.handler_new_account nm token proxy maxPos
                      levMin levMax c) c) in
  ConfigStorage.getSlaveAccounts c' = []
  /\ forall w pos, config w = c' ->
       events (CopyTradingEngine.copyOpenPosition pos w) = []
       /\ Forall no_request (events (CopyTradingEngine.copyClosePosition pos w)).
Proof.
  intros Hone Hmaster. cbv zeta.
  assert (Hslaves :
    ConfigStorage.getSlaveAccounts
      (fst (ConfigStorage.addAccount uuid
              (ConfigStorage.handler_new_account nm token proxy maxPos levMin levMax c)
              c)) = []).
  { unfold ConfigStorage.getSlaveAccounts, ConfigStorage.addAccount,
      ConfigStorage.handler_new_account, ConfigStorage.getAccounts.
    rewrite Hone. cbn. rewrite Hmaster. reflexivity. }
  split; [exact Hslaves |].
  intros w pos Hw. split.
  - unfold CopyTradingEngine.copyOpenPosition. rewrite run_get.
    destruct (negb _); [reflexivity |].
    rewrite run_get, Hw, Hslaves. reflexivity.
  - unfold CopyTradingEngine.copyClosePosition. rewrite run_get.
    destruct (negb _); [constructor |].
    rewrite run_get, Hw, Hslaves. cbn. repeat constructor.
Qed.

Lemma wizard_second_account_is_no_slave_witness :
  let c := Sample.roster [Sample.alice] in
  let c' := fst (ConfigStorage.addAccount "b2"
                   (ConfigStorage.handler_new_account "Bob" "WEB-token" None
                      100 10 20 c) c) in
  ConfigStorage.getSlaveAccounts c' = []
  /\ forall w pos, config w = c' ->
       events (CopyTradingEngine.copyOpenPosition pos w) = []
       /\ Forall no_request (events (CopyTradingEngine.copyClosePosition pos w)).
Proof.
  apply (wizard_second_account_is_no_slave "Bob" "WEB-token" "b2" None 100 10 20
           (Sample.roster [Sample.alice]) Sample.alice); reflexivity.
Defined.

(** X16. For a roster with distinct ids, [setMasterAccount] with the id of
    an account of the roster returns true and leaves exactly one account
    with the master flag, that one, however many carried it before; the
    active master is then that account if it is enabled, and there is none
    if it is disabled.  With an unknown id it returns false and changes
    nothing. *)
Theorem setMasterAccount_exactly_one (i : string) (c : BotConfig) :
  NoDup (List.map id (accounts c)) ->
  let out := ConfigStorage.setMasterAccount i c in
  match ConfigStorage.getAccountById i c with
  | Some a =>
      snd out = true
      /\ ConfigStorage.masters (accounts (fst out)) = 1%nat
      /\ List.map isMaster (accounts (fst out))
         = List.map (fun b => String.eqb (id b) i) (accounts c)
      /\ ConfigStorage.getMasterAccount (fst out)
         = if enabled a then Some (ConfigStorage.set_isMaster true a) else None
  | None => out = (c, false)
  end.
Proof.
  intros Hnodup. cbv zeta.
  destruct (ConfigStorage.getAccountById i c) as [a |] eqn:Hget.
  - unfold ConfigStorage.setMasterAccount. rewrite Hget.
    cbn [fst snd accounts ConfigStorage.set_accounts].
    destruct (getAccountById_index _ _ _ Hget) as (index & Hfind & Hlook).
    destruct (findIndex_split _ _ _ Hfind) as (pre & b & post & Hl & Hlen & Hid & Hpre).
    rewrite Hl in *.
    rewrite (list_lookup_middle pre post b index) in Hlook by (symmetry; exact Hlen).
    inversion Hlook; subst b. clear Hlook.
    pose proof (unique_after _ _ _ Hnodup) as Hpost. rewrite Hid in Hpost.
    split; [reflexivity |].
    rewrite List.map_app. cbn [List.map].
    rewrite Hid, String.eqb_refl.
    pose proof (masters_only i pre Hpre) as Mpre.
    pose proof (masters_only i post Hpost) as Mpost.
    split; [| split].
    + rewrite masters_app, masters_cons, Mpre, Mpost. reflexivity.
    + rewrite !List.map_app, !List.map_map. cbn [List.map].
      rewrite List.map_map, Hid, String.eqb_refl. reflexivity.
    + unfold ConfigStorage.getMasterAccount.
      cbn [accounts ConfigStorage.set_accounts].
      set (pre' := List.map _ pre) in *. set (post' := List.map _ post) in *.
      clearbody pre' post'. clear - Mpre Mpost.
      induction pre' as [| x pre' IH]; cbn [app List.find].
      * cbn [isMaster ConfigStorage.set_isMaster enabled andb].
        destruct (enabled a); [reflexivity |].
        apply no_master_found. exact Mpost.
      * rewrite masters_cons in Mpre. destruct (isMaster x); [lia |].
        cbn [andb]. apply IH. exact Mpre.
  - unfold ConfigStorage.setMasterAccount. rewrite Hget. reflexivity.
Qed.

Lemma setMasterAccount_exactly_one_witness :
  let c := fst (ConfigStorage.addAccount "b2"
                  (ConfigStorage.handler_new_account "Bob" "WEB-token" None
                     100 10 20 (Sample.roster [Sample.alice]))
                  (Sample.roster [Sample.alice])) in
  let out := ConfigStorage.setMasterAccount "b2" c in
  snd out = true
  /\ ConfigStorage.masters (accounts (fst out)) = 1%nat
  /\ List.map isMaster (accounts (fst out))
     = List.map (fun b => String.eqb (id b) "b2") (accounts c)
  /\ ConfigStorage.getMasterAccount (fst out)
     = Some (ConfigStorage.set_isMaster true
               (ConfigStorage.set_id "b2"
                  (ConfigStorage.handler_new_account "Bob" "WEB-token" None
                     100 10 20 (Sample.roster [Sample.alice])))).
Proof.
  apply (setMasterAccount_exactly_one "b2"
           (fst (ConfigStorage.addAccount "b2"
                   (ConfigStorage.handler_new_account "Bob" "WEB-token" None
                      100 10 20 (Sample.roster [Sample.alice]))
                   (Sample.roster [Sample.alice])))).
  apply (bool_decide_unpack _). vm_compute. reflexivity.
Defined.

(** ** copyTrader.ts and signals.ts: the orders that are sent *)

#[local] Hint Unfold
  CopyTradingEngine.cancelAll_account CopyTradingEngine.cancelAllOrdersOnAll
  : engine.

Ltac order_leaves :=
  cbn;
  repeat match goal with
         | |- _ /\ _ => split
         | |- context [match ?s with long => _ | short => _ end] => destruct s
         end;
  auto.

Section Orders.

Import CopyTradingEngine Signals.

Lemma limit_copyOpenPosition pos : emits limit_order (copyOpenPosition pos).
Proof. emits_tac; order_leaves. Qed.

Lemma limit_copyClosePosition pos : emits limit_order (copyClosePosition pos).
Proof. emits_tac; order_leaves. Qed.

Lemma limit_manualOpenPosition params : emits limit_order (manualOpenPosition params).
Proof. emits_tac; order_leaves. Qed.

Lemma limit_manualClosePosition sym price :
  emits limit_order (manualClosePosition sym price).
Proof. emits_tac; order_leaves. Qed.

Lemma limit_handleTradeSignal text : emits limit_order (handleTradeSignal text).
Proof. emits_tac; order_leaves. Qed.

Lemma limit_checkMasterChanges : emits limit_order checkMasterChanges.
Proof. emits_tac; order_leaves. Qed.

Lemma opening_copyOpenPosition pos : emits opening_order (copyOpenPosition pos).
Proof. emits_tac; order_leaves. Qed.

Lemma opening_manualOpenPosition params :
  emits opening_order (manualOpenPosition params).
Proof. emits_tac; order_leaves. Qed.

Lemma opening_handleTradeSignal text : emits opening_order (handleTradeSignal text).
Proof. emits_tac; order_leaves. Qed.

Lemma closing_copyClosePosition pos : emits closing_order (copyClosePosition pos).
Proof. emits_tac; order_leaves. Qed.

Lemma closing_manualClosePosition sym price :
  emits closing_order (manualClosePosition sym price).
Proof. emits_tac; order_leaves. Qed.

Lemma no_order_setTpSlOnAll sym sd tp sl : emits no_order (setTpSlOnAll sym sd tp sl).
Proof. emits_tac; order_leaves. Qed.

Lemma no_order_cancelAllOrdersOnAll sym : emits no_order (cancelAllOrdersOnAll sym).
Proof. emits_tac; order_leaves. Qed.

End Orders.

(** X17. Every order that the engine and the signal handler send is a limit
    order (type 1) in isolated margin (open type 1): no path sends a market
    order, the manual close without a price included. *)
Theorem orders_are_limit_orders :
  (forall pos w, Forall limit_order (events (CopyTradingEngine.copyOpenPosition pos w)))
  /\ (forall pos w,
        Forall limit_order (events (CopyTradingEngine.copyClosePosition pos w)))
  /\ (forall w, Forall limit_order (events (CopyTradingEngine.checkMasterChanges w)))
  /\ (forall params w,
        Forall limit_order (events (CopyTradingEngine.manualOpenPosition params w)))
  /\ (forall sym price w,
        Forall limit_order (events (CopyTradingEngine.manualClosePosition sym price w)))
  /\ (forall text w, Forall limit_order (events (Signals.handleTradeSignal text w))).
Proof.
  split; [intros; apply limit_copyOpenPosition |].
  split; [intros; apply limit_copyClosePosition |].
  split; [intros; apply limit_checkMasterChanges |].
  split; [intros; apply limit_manualOpenPosition |].
  split; [intros; apply limit_manualClosePosition | intros; apply limit_handleTradeSignal].
Qed.

(** X18. A batch sends only the orders of its kind.  The opening batches
    (automatic copy, manual open, signal) send only opening codes, 1 or 3;
    the closing batches (automatic copy, manual close) send only closing
    codes, 4 or 2, with a leverage of 1 and neither take-profit nor
    stop-loss; [setTpSlOnAll] and [cancelAllOrdersOnAll] send no order. *)
Theorem orders_follow_the_command :
  (forall pos w,
      Forall opening_order (events (CopyTradingEngine.copyOpenPosition pos w)))
  /\ (forall params w,
        Forall opening_order (events (CopyTradingEngine.manualOpenPosition params w)))
  /\ (forall text w, Forall opening_order (events (Signals.handleTradeSignal text w)))
  /\ (forall pos w,
        Forall closing_order (events (CopyTradingEngine.copyClosePosition pos w)))
  /\ (forall sym price w,
        Forall closing_order (events (CopyTradingEngine.manualClosePosition sym price w)))
  /\ (forall sym sd tp sl w,
        Forall no_order (events (CopyTradingEngine.setTpSlOnAll sym sd tp sl w)))
  /\ (forall sym w,
        Forall no_order (events (CopyTradingEngine.cancelAllOrdersOnAll sym w))).
Proof.
  split; [intros; apply opening_copyOpenPosition |].
  split; [intros; apply opening_manualOpenPosition |].
  split; [intros; apply opening_handleTradeSignal |].
  split; [intros; apply closing_copyClosePosition |].
  split; [intros; apply closing_manualClosePosition |].
  split; [intros; apply no_order_setTpSlOnAll | intros; apply no_order_cancelAllOrdersOnAll].
Qed.

(** ** copyTrader.ts: [cancelAllOrdersOnAll] *)

Section CancelAll.

Import MexcClientWrapper CopyTradingEngine.

Lemma cancelAll_account_run sym a w :
  cancelAll_account sym a w =
  match clients w !! id a with
  | None => (Ret [], w, [])
  | Some c =>
      let asked := Request (c_accountId c) (CancelAllOrders sym) in
      match sdk_cancelAllOrders (exchange w) (requests w) (c_accountId c) sym with
      | Answer _ =>
          (Ret [cancel_result a true], set_requests (S (requests w)) w,
           [asked; Log (bracket (c_accountName c)) (OrdersCancelled sym)])
      | Raise err =>
          (Ret [cancel_result a false], set_requests (S (requests w)) w,
           [asked; LogError (bracket (c_accountName c)) (OrdersCancelError sym err)])
      end
  end.
Proof.
  unfold cancelAll_account, getClient. rewrite run_get.
  destruct (clients w !! id a) as [c |]; [| reflexivity].
  rewrite run_bind, cancelAllOrders_run. cbv zeta.
  destruct (sdk_cancelAllOrders _ _ _ _); reflexivity.
Qed.

Lemma cancellations_app a b :
  cancellations (a ++ b) = cancellations a ++ cancellations b.
Proof.
  induction a as [| e a IH]; [reflexivity |].
  destruct e as [acc [] | | | | | | |]; simpl; rewrite ?IH; reflexivity.
Qed.

Lemma cancel_loop sym accounts : forall k w,
  let out := for_each_from k (fun _ => cancelAll_account sym) accounts w in
  exists rs,
    result out = Ret rs
    /\ List.map accountId rs = List.map id (List.filter (has_client w) accounts)
    /\ Forall (fun r => message r = if success r
                                    then "Ордера отменены" else "Ошибка отмены") rs
    /\ cancellations (events out)
       = omap (fun a => (fun c => (c_accountId c, sym)) <$> clients w !! id a) accounts
    /\ ((forall n acc, exists u, sdk_cancelAllOrders (exchange w) n acc sym = Answer u) ->
        Forall (fun r => success r = true) rs).
Proof.
  induction accounts as [| a accounts IH]; intros k w; cbv zeta; cbn [for_each_from].
  - exists []. repeat split; constructor.
  - set (served := fun a => (fun c => (c_accountId c, sym)) <$> clients w !! id a).
    assert (Homap : omap served (a :: accounts)
                    = match clients w !! id a with
                      | Some c => (c_accountId c, sym) :: omap served accounts
                      | None => omap served accounts
                      end).
    { subst served. cbn. destruct (clients w !! id a); reflexivity. }
    rewrite Homap. clear Homap.
    rewrite run_bind, cancelAll_account_run. cbn [List.filter].
    unfold has_client at 1.
    destruct (clients w !! id a) as [c |] eqn:Hc; cbv zeta.
    + assert (Hstep : exists cancelled t1,
                 match sdk_cancelAllOrders (exchange w) (requests w) (c_accountId c) sym with
                 | Answer _ =>
                     (Ret [cancel_result a true], set_requests (S (requests w)) w,
                      [Request (c_accountId c) (CancelAllOrders sym);
                       Log (bracket (c_accountName c)) (OrdersCancelled sym)])
                 | Raise err =>
                     (Ret [cancel_result a false], set_requests (S (requests w)) w,
                      [Request (c_accountId c) (CancelAllOrders sym);
                       LogError (bracket (c_accountName c)) (OrdersCancelError sym err)])
                 end = (Ret [cancel_result a cancelled],
                        set_requests (S (requests w)) w, t1)
                 /\ cancellations t1 = [(c_accountId c, sym)]
                 /\ ((forall n acc, exists u,
                         sdk_cancelAllOrders (exchange w) n acc sym = Answer u) ->
                     cancelled = true)).
      { destruct (sdk_cancelAllOrders _ _ _ _) as [u | err] eqn:Hreply.
        - exists true. eexists. repeat split.
        - exists false. eexists. split; [reflexivity |]. split; [reflexivity |].
          intros Hok. destruct (Hok (requests w) (c_accountId c)) as [u Hu]. congruence. }
      destruct Hstep as (cancelled & t1 & -> & Ht1 & Hone).
      destruct (IH (S k) (set_requests (S (requests w)) w))
        as (rs & Hres & Hids & Hmsg & Hcancel & Hall).
      cbv zeta in Hres, Hcancel. rewrite run_bind.
      unfold result, events in Hres, Hcancel.
      destruct (for_each_from (S k) _ accounts _) as [[r w2] t2].
      cbn [fst snd] in Hres, Hcancel. subst r.
      cbn [clients exchange set_requests] in Hids, Hcancel, Hall.
      cbn [result world events fst snd ret].
      rewrite app_nil_r, cancellations_app, Hcancel, Ht1.
      exists (cancel_result a cancelled :: rs).
      split; [reflexivity |].
      split; [cbn; f_equal; exact Hids |].
      split; [constructor; [reflexivity | exact Hmsg] |].
      split; [reflexivity |].
      intros Hok. constructor; [apply Hone; exact Hok | apply Hall; exact Hok].
    + destruct (IH (S k) w) as (rs & Hres & Hids & Hmsg & Hcancel & Hall).
      cbv zeta in Hres, Hcancel. rewrite run_bind.
      unfold result, events in Hres, Hcancel.
      destruct (for_each_from (S k) _ accounts w) as [[r w2] t2].
      cbn [fst snd] in Hres, Hcancel. subst r.
      cbn [result world events fst snd ret app].
      rewrite app_nil_r.
      exists rs. repeat split; assumption.
Qed.

End CancelAll.

(** X19. [cancelAllOrdersOnAll] never throws.  It returns one result for
    each enabled account that has a client, in the order of the roster, and
    none for an enabled account without client; it sends one cancellation
    for the symbol on behalf of each of those accounts, in that order, and
    nothing else: no other request, no wait between the accounts and no
    timer.  A result's message says whether it succeeded, and when the
    exchange accepts every cancellation all results are successes. *)
Theorem cancelAllOrdersOnAll_results (sym : string) (w : World) :
  let out := CopyTradingEngine.cancelAllOrdersOnAll sym w in
  let accounts := ConfigStorage.getEnabledAccounts (config w) in
  (exists rs,
      result out = Ret rs
      /\ List.map accountId rs = List.map id (List.filter (has_client w) accounts)
      /\ Forall (fun r => message r = if success r
                                      then "Ордера отменены" else "Ошибка отмены") rs
      /\ ((forall n acc, exists u,
              sdk_cancelAllOrders (exchange w) n acc sym = Answer u) ->
          Forall (fun r => success r = true) rs))
  /\ cancellations (events out)
     = omap (fun a => (fun c => (c_accountId c, sym)) <$> clients w !! id a) accounts
  /\ Forall (cancel_only sym) (events out).
Proof.
  cbv zeta. split; [| split].
  - unfold CopyTradingEngine.cancelAllOrdersOnAll. rewrite run_get.
    destruct (cancel_loop sym (ConfigStorage.getEnabledAccounts (config w)) 0 w)
      as (rs & Hres & Hids & Hmsg & _ & Hall).
    exists rs. repeat split; assumption.
  - unfold CopyTradingEngine.cancelAllOrdersOnAll. rewrite run_get.
    destruct (cancel_loop sym (ConfigStorage.getEnabledAccounts (config w)) 0 w)
      as (rs & _ & _ & _ & Hcancel & _).
    exact Hcancel.
  - assert (H : emits (cancel_only sym) (CopyTradingEngine.cancelAllOrdersOnAll sym));
      [| apply H].
    emits_tac; cbn; auto.
Qed.

(** Three enabled accounts, the second without client: two cancellations
    and two results. *)
Example cancelAllOrdersOnAll_sample :
  let w := Sample.world_of (Sample.roster [Sample.alice; Sample.bob; Sample.carol])
             [Sample.alice; Sample.carol] Sample.flat [] in
  let out := CopyTradingEngine.cancelAllOrdersOnAll "BTC_USDT" w in
  cancellations (events out) = [("a1", "BTC_USDT"); ("c3", "BTC_USDT")]
  /\ match result out with
     | Ret rs => List.map (fun r => (accountId r, success r)) rs
     | Throw _ => []
     end = [("a1", true); ("c3", true)].
Proof. vm_compute. split; reflexivity. Qed.

(** ** copyTrader.ts: the first tick of the watcher *)

(** X20. On a tick of the watcher for which no snapshot is stored for the
    master, as on the first tick after a start, every position that the
    master holds is announced as newly opened and replicated, none is
    announced as closed, and the positions become the snapshot. *)
Theorem checkMasterChanges_first_tick (w : World) (master : AccountConfig)
    (client : Client) :
  ConfigStorage.getMasterAccount (config w) = Some master ->
  clients w !! id master = Some client ->
  lastKnownPositions w !! id master = None ->
  let out := CopyTradingEngine.checkMasterChanges w in
  let current :=
    reported (sdk_getOpenPositions (exchange w) (requests w)
                (c_accountId client) None) in
  announced_open (events out) = List.map key current
  /\ announced_closed (events out) = []
  /\ lastKnownPositions (world out) !! id master = Some current.
Proof.
  intros Hmaster Hclient Hnone.
  destruct (checkMasterChanges_run w master client Hmaster Hclient)
    as (_ & Ho & Hc & Hsnap).
  rewrite Hnone in Ho, Hc. cbn [default List.filter List.map] in Ho, Hc.
  cbv zeta. split; [| split; assumption].
  rewrite Ho. f_equal. clear.
  induction (reported _) as [| p l IH]; [reflexivity |].
  cbn. f_equal. exact IH.
Qed.

Lemma checkMasterChanges_first_tick_witness :
  let w := Sample.world_of (Sample.roster [Sample.alice; Sample.bob])
             [Sample.alice; Sample.bob] Sample.holding [] in
  let out := CopyTradingEngine.checkMasterChanges w in
  let current :=
    reported (sdk_getOpenPositions (exchange w) (requests w) "a1" None) in
  announced_open (events out) = List.map key current
  /\ announced_closed (events out) = []
  /\ lastKnownPositions (world out) !! "a1" = Some current.
Proof.
  apply (checkMasterChanges_first_tick
           (Sample.world_of (Sample.roster [Sample.alice; Sample.bob])
              [Sample.alice; Sample.bob] Sample.holding [])
           Sample.alice (Sample.client_of Sample.alice)); reflexivity.
Defined.

(** ** signals.ts: accounts that hold a position, and the contract limit *)

(** X21. An account for which the exchange reports a position for the
    signal's symbol is passed over by [handleTradeSignal]: its result is the
    failure "already in position", and nothing is sent for it, neither an
    order nor a cancellation, and no timer is armed. *)
Theorem signal_skips_held_position (settings : CopyTradingSettings)
    (signal : ParsedSignal) (pStep cSize maxContracts : Q) (i : nat)
    (account : AccountConfig) (w : World) (c : Client) :
  clients w !! id account = Some c ->
  reported (sdk_getOpenPositions (exchange w) (requests w) (c_accountId c)
              (MexcClientWrapper.symbol_param (Some (sig_fullSymbol signal)))) <> [] ->
  let out := Signals.signal_account settings signal pStep cSize maxContracts
               i account w in
  result out = Ret [failed account "Уже в позиции"]
  /\ submits (events out) = []
  /\ cancellations (events out) = []
  /\ armed (events out) = [].
Proof.
  intros Hclient Hheld. cbv zeta.
  unfold Signals.signal_account, getClient. rewrite run_get, Hclient.
  match goal with
  | |- context [(?d ≫= ?k) w] =>
      assert (Hdelay : exists w1 t1,
                 (d ≫= k) w = (result (k tt w1), world (k tt w1),
                                t1 ++ events (k tt w1))
                 /\ submits t1 = [] /\ cancellations t1 = [] /\ armed t1 = []
                 /\ exchange w1 = exchange w /\ requests w1 = requests w)
  end.
  { destruct (Nat.ltb 0 i).
    - eexists _, _. rewrite run_bind, run_random. unfold sleep, emit.
      cbn [result world events fst snd]. split; [reflexivity |].
      repeat split.
    - exists w, []. rewrite run_ret_bind. split; [| repeat split].
      cbn [app]. match goal with |- ?x = _ => destruct x as [[? ?] ?] end.
      reflexivity. }
  destruct Hdelay as (w1 & t1 & -> & Hs1 & Hc1 & Ha1 & Hex & Hreq).
  cbn [result world events fst snd].
  rewrite submits_app, cancellations_app, armed_app, Hs1, Hc1, Ha1. cbn [app].
  rewrite run_try_catch. unfold MexcClientWrapper.hasOpenPosition.
  rewrite !run_bind, getOpenPositions_run. cbv zeta.
  rewrite Hex, Hreq. unfold reported in Hheld.
  destruct (sdk_getOpenPositions _ _ _ _) as [res | err]; [| congruence].
  destruct (List.map MexcClientWrapper.to_position
              (List.filter MexcClientWrapper.holds (default [] res))) as [| p ps];
    [congruence |].
  cbn. repeat split.
Qed.

Lemma signal_skips_held_position_witness :
  let w := Sample.world_of (Sample.roster [Sample.alice]) [Sample.alice]
             Sample.holding [] in
  let out := Signals.signal_account Sample.default_settings Sample.btc_signal
               (1 # 100) 1 0 0 Sample.alice w in
  result out = Ret [failed Sample.alice "Уже в позиции"]
  /\ submits (events out) = []
  /\ cancellations (events out) = []
  /\ armed (events out) = [].
Proof.
  apply (signal_skips_held_position Sample.default_settings Sample.btc_signal
           (1 # 100) 1 0 0%nat Sample.alice
           (Sample.world_of (Sample.roster [Sample.alice]) [Sample.alice]
              Sample.holding [])
           (Sample.client_of Sample.alice)).
  - reflexivity.
  - discriminate.
Defined.

(** X22. A limit of at least one contract that [setContractLimit] stored for
    the signal's symbol is what [handleTradeSignal] reads back, and, when
    the price of one contract is positive, the order of an account is for
    at least one contract and for no more than the limit. *)
Theorem signal_volume_within_limit (settings : CopyTradingSettings)
    (signal : ParsedSignal) (pStep cSize limit : Q) (i : nat)
    (account : AccountConfig) (w : World) (c : Client) (cfg : BotConfig) :
  clients w !! id account = Some c ->
  reported (sdk_getOpenPositions (exchange w) (requests w) (c_accountId c)
              (MexcClientWrapper.symbol_param (Some (sig_fullSymbol signal)))) = [] ->
  1 <= limit ->
  0 < signal_entry settings signal i account (draws w) * cSize ->
  let maxContracts :=
    Js.or_else (ConfigStorage.getContractLimit (sig_fullSymbol signal)
                  (ConfigStorage.setContractLimit (sig_fullSymbol signal) limit cfg))
               0 in
  maxContracts = limit
  /\ exists p v,
       hd_error (submits (events (Signals.signal_account settings signal pStep
                                    cSize maxContracts i account w)))
         = Some (c_accountId c, p)
       /\ o_vol p = Js.Finite v
       /\ 1 <= v <= limit.
Proof.
  intros Hclient Hflat Hlimit Hunit. cbv zeta.
  assert (Hmax : Js.or_else
                   (ConfigStorage.getContractLimit (sig_fullSymbol signal)
                      (ConfigStorage.setContractLimit (sig_fullSymbol signal) limit cfg))
                   0 = limit).
  { unfold ConfigStorage.getContractLimit, ConfigStorage.setContractLimit.
    cbn [contractLimits]. rewrite lookup_insert_eq. unfold Js.or_else.
    destruct (Qeq_bool limit 0) eqn:Hz; [| reflexivity].
    apply Qeq_bool_iff in Hz. lra. }
  rewrite Hmax. split; [reflexivity |].
  set (entry := signal_entry settings signal i account (draws w)) in *.
  assert (Hlt : Js.ltb 0 limit = true).
  { unfold Js.ltb. apply negb_true_iff.
    destruct (Qle_bool limit 0) eqn:H; [| reflexivity].
    apply Qle_bool_iff in H. lra. }
  assert (Hdiv : ~ entry * cSize == 0) by lra.
  exists (signal_order settings signal pStep cSize limit i account (draws w)),
         (Js.max 1 (Js.floor (Js.min (maxPositionUsd account)
                                (limit * cSize * entry) / (entry * cSize)))).
  split; [apply signal_account_order; assumption |].
  split.
  { cbn [o_vol signal_order]. fold entry. rewrite Hlt.
    rewrite (div_nonzero _ _ Hdiv). reflexivity. }
  unfold Js.max, Js.min.
  split; [apply Q.le_max_l |].
  apply Q.max_lub; [exact Hlimit |].
  set (capped := Qmin (maxPositionUsd account) (limit * cSize * entry)).
  assert (Hcap : capped / (entry * cSize) <= limit).
  { apply Qle_shift_div_r; [exact Hunit |].
    apply Qle_trans with (limit * cSize * entry); [apply Q.le_min_r |].
    apply Qle_lteq. right. ring. }
  apply Qle_trans with (capped / (entry * cSize)); [| exact Hcap].
  unfold Js.floor. apply Qfloor_le.
Qed.

Lemma signal_volume_within_limit_witness :
  let w := Sample.world_of (Sample.roster [Sample.alice]) [Sample.alice]
             Sample.flat [] in
  let maxContracts :=
    Js.or_else (ConfigStorage.getContractLimit "BTC_USDT"
                  (ConfigStorage.setContractLimit "BTC_USDT" 3
                     (Sample.roster [Sample.alice])))
               0 in
  maxContracts = 3
  /\ exists p v,
       hd_error (submits (events (Signals.signal_account Sample.default_settings
                                    Sample.btc_signal (1 # 100) (1 # 100)
                                    maxContracts 0 Sample.alice w)))
         = Some ("a1", p)
       /\ o_vol p = Js.Finite v
       /\ 1 <= v <= 3.
Proof.
  apply (signal_volume_within_limit Sample.default_settings Sample.btc_signal
           (1 # 100) (1 # 100) 3 0%nat Sample.alice
           (Sample.world_of (Sample.roster [Sample.alice]) [Sample.alice]
              Sample.flat [])
           (Sample.client_of Sample.alice) (Sample.roster [Sample.alice])).
  - reflexivity.
  - reflexivity.
  - discriminate.
  - reflexivity.
Defined.

(** ** copyTrader.ts: the leverage of a manual open *)

Lemma whole_minus a b : whole a -> whole b -> whole (a - b).
Proof.
  intros [x Hx] [y Hy]. exists (x - y)%Z. rewrite Hx, Hy.
  unfold Z.sub. rewrite inject_Z_plus, inject_Z_opp. reflexivity.
Qed.

(** X23. In a manual open, the leverage of a slave is drawn between
    max(1, leverage - leverageSpread) and min(leverage, leverageMax).  For
    a slave whose leverageMax lies below leverage - leverageSpread the
    bounds are the wrong way round, and the order carries a leverage above
    the account's leverageMax: from leverageMax + 1 to leverage -
    leverageSpread. *)
Theorem manualOpen_leverage_above_account_max (settings : CopyTradingSettings)
    (params : OpenRequest) (cSize pStep : Q) (i : nat) (account : AccountConfig)
    (w : World) (c : Client) :
  clients w !! id account = Some c ->
  isMaster account = false ->
  unit_draw (hd 0 (tl (if Nat.ltb 0 i then tl (draws w) else draws w))) ->
  whole (mo_leverage params) -> whole (leverageSpread settings) ->
  whole (leverageMax account) ->
  0 <= leverageSpread settings ->
  1 <= leverageMax account < mo_leverage params - leverageSpread settings ->
  exists p,
    hd_error (submits (events (CopyTradingEngine.manualOpen_account settings params
                                 cSize pStep i account w)))
      = Some (c_accountId c, p)
    /\ leverageMax account + 1 <= o_leverage p
       <= mo_leverage params - leverageSpread settings.
Proof.
  intros Hclient Hslave Hdraw Hlev Hspread Hmax Hs0 [H1 Hbelow].
  exists (manual_order settings params cSize pStep i account (draws w)).
  split; [apply manualOpen_account_order; exact Hclient |].
  unfold manual_order. cbn [o_leverage]. rewrite Hslave. cbn [negb andb].
  unfold Js.max, Js.min.
  pose proof (Q.max_r 1 (mo_leverage params - leverageSpread settings)) as Emax.
  pose proof (Q.min_r (mo_leverage params) (leverageMax account)) as Emin.
  set (lo := Qmax 1 (mo_leverage params - leverageSpread settings)) in *.
  set (hi := Qmin (mo_leverage params) (leverageMax account)) in *.
  assert (Elo : lo == mo_leverage params - leverageSpread settings) by (apply Emax; lra).
  assert (Ehi : hi == leverageMax account) by (apply Emin; lra).
  destruct (randomLeverage_inverted_range
              (hd 0 (tl (if Nat.ltb 0 i then tl (draws w) else draws w))) lo hi)
    as [A B].
  - exact Hdraw.
  - rewrite Elo, Ehi. exact Hbelow.
  - destruct (whole_minus _ _ (whole_minus _ _ Hlev Hspread) Hmax) as [z Hz].
    exists z. rewrite Elo, Ehi. exact Hz.
  - split.
    + apply Qle_trans with (hi + 1); [rewrite Ehi; apply Qle_refl | exact A].
    + apply Qle_trans with lo; [exact B | rewrite Elo; apply Qle_refl].
Qed.

Lemma manualOpen_leverage_above_account_max_witness :
  let params := {| mo_symbol := "BTC_USDT"; mo_side := long; mo_price := 100;
                   mo_positionSizeUsd := 1000; mo_leverage := 50;
                   mo_priceStep := None |} in
  exists p,
    hd_error (submits (events (CopyTradingEngine.manualOpen_account
                                 Sample.default_settings params 1 (1 # 100) 0
                                 Sample.bob
                                 (Sample.world_of (Sample.roster [Sample.bob])
                                    [Sample.bob] Sample.flat [1 # 2; 1 # 2]))))
      = Some ("b2", p)
    /\ leverageMax Sample.bob + 1 <= o_leverage p <= 50 - 10.
Proof.
  apply (manualOpen_leverage_above_account_max Sample.default_settings
           {| mo_symbol := "BTC_USDT"; mo_side := long; mo_price := 100;
              mo_positionSizeUsd := 1000; mo_leverage := 50;
              mo_priceStep := None |} 1 (1 # 100) 0%nat Sample.bob
           (Sample.world_of (Sample.roster [Sample.bob]) [Sample.bob]
              Sample.flat [1 # 2; 1 # 2])
           (Sample.client_of Sample.bob)).
  - reflexivity.
  - reflexivity.
  - split; [discriminate | reflexivity].
  - exists 50%Z. reflexivity.
  - exists 10%Z. reflexivity.
  - exists 20%Z. reflexivity.
  - discriminate.
  - split; [discriminate | reflexivity].
Defined.

(** ** copyTrader.ts: starting and stopping the watcher *)

Lemma monitor_ok_step m call : monitor_ok m -> monitor_ok (monitor_step m call).
Proof.
  unfold monitor_ok. destruct call as [ms |]; cbn [monitor_step].
  - unfold CopyTradingEngine.startMonitoring.
    destruct (CopyTradingEngine.pollInterval m) as [h |] eqn:Hp.
    + intros [Hrun Hint]. rewrite Hrun. cbn [fst]. rewrite Hp. split; assumption.
    + intros [Hrun Hint]. rewrite Hrun.
      cbn [fst CopyTradingEngine.pollInterval CopyTradingEngine.isRunning
           CopyTradingEngine.intervals].
      rewrite Hint. split; [reflexivity | eexists; reflexivity].
  - unfold CopyTradingEngine.stopMonitoring.
    cbn [fst CopyTradingEngine.pollInterval CopyTradingEngine.isRunning
         CopyTradingEngine.intervals].
    destruct (CopyTradingEngine.pollInterval m) as [h |].
    + intros [_ [ms ->]]. cbn. rewrite Nat.eqb_refl. split; reflexivity.
    + intros [_ ->]. split; reflexivity.
Qed.

Lemma monitor_ok_after calls : forall m,
  monitor_ok m -> monitor_ok (List.fold_left monitor_step calls m).
Proof.
  induction calls as [| call calls IH]; intros m Hm; [exact Hm |].
  cbn. apply IH. apply monitor_ok_step. exact Hm.
Qed.

(** X24. Whatever the sequence of [startMonitoring] and [stopMonitoring]
    calls on a new engine, at most one polling interval is set; one is set
    exactly when [isRunning] holds, and it is the one whose handle the
    engine keeps; a stop leaves none; and a start while the watcher runs
    changes nothing, its interval argument included. *)
Theorem monitoring_single_timer (calls : list MonitorCall) :
  let m := monitor_after calls in
  (List.length (CopyTradingEngine.intervals m) <= 1)%nat
  /\ (CopyTradingEngine.isRunning m = true <-> CopyTradingEngine.intervals m <> [])
  /\ (forall handle ms,
        In (handle, ms) (CopyTradingEngine.intervals m) ->
        CopyTradingEngine.pollInterval m = Some handle)
  /\ CopyTradingEngine.intervals (fst (CopyTradingEngine.stopMonitoring m)) = []
  /\ (forall ms, CopyTradingEngine.isRunning m = true ->
        CopyTradingEngine.startMonitoring ms m
        = (m, [CopyTradingEngine.AlreadyMonitoring])).
Proof.
  cbv zeta. unfold monitor_after.
  assert (Hok : monitor_ok (List.fold_left monitor_step calls
                              CopyTradingEngine.new_monitor)).
  { apply monitor_ok_after. split; reflexivity. }
  set (m := List.fold_left monitor_step calls CopyTradingEngine.new_monitor) in *.
  clearbody m.
  pose proof (monitor_ok_step m StopCall Hok) as Hstop.
  unfold monitor_ok in *. cbn [monitor_step] in Hstop.
  unfold CopyTradingEngine.stopMonitoring in *.
  cbn [fst CopyTradingEngine.pollInterval CopyTradingEngine.isRunning
       CopyTradingEngine.intervals] in *.
  destruct Hstop as [_ Hstop].
  destruct (CopyTradingEngine.pollInterval m) as [h |].
  - destruct Hok as [Hrun [ms Hint]]. rewrite Hint in *. rewrite Hrun.
    split; [cbn; lia |].
    split; [split; [discriminate | reflexivity] |].
    split; [intros handle ms' [Heq | []]; inversion Heq; reflexivity |].
    split; [exact Hstop |].
    intros ms' _. unfold CopyTradingEngine.startMonitoring. rewrite Hrun. reflexivity.
  - destruct Hok as [Hrun Hint]. rewrite Hint in *. rewrite Hrun.
    split; [cbn; lia |].
    split; [split; [discriminate | intros H; congruence] |].
    split; [intros handle ms' [] |].
    split; [reflexivity | discriminate].
Qed.

(** ** keyboards.ts and bot.ts: from a button to its action *)

Section Routing.

Import Bot.

Lemma strip_append prefix s : Text.strip false prefix (prefix +:+ s) = Some s.
Proof.
  induction prefix as [| c prefix IH]; [destruct s; reflexivity |].
  change (Text.strip false (String c prefix) (String c (prefix +:+ s)) = Some s).
  cbn [Text.strip]. rewrite Ascii.eqb_refl. exact IH.
Qed.

Lemma all_dots_append a b : all_dots (a +:+ b) = all_dots a && all_dots b.
Proof.
  induction a as [| c a IH]; [reflexivity |].
  change (all_dots (String c (a +:+ b)) = all_dots (String c a) && all_dots b).
  cbn [all_dots]. rewrite IH. apply andb_assoc.
Qed.

Lemma last_cut_none t : no_underscore t = true -> last_cut t = None.
Proof.
  induction t as [| c t IH]; [reflexivity |].
  cbn [no_underscore last_cut]. intros H. apply andb_true_iff in H.
  destruct H as [Hc Ht].
  rewrite (IH Ht). apply negb_true_iff in Hc. rewrite Hc. reflexivity.
Qed.

(** The greedy first group takes everything before the last underscore. *)
Lemma last_cut_append s t :
  no_underscore t = true -> t <> "" ->
  last_cut (s +:+ "_" +:+ t) = Some (s, t).
Proof.
  intros Ht Hne. induction s as [| c s IH].
  - change (last_cut (String "_" t) = Some ("", t)).
    cbn [last_cut]. rewrite (last_cut_none t Ht).
    destruct t; [congruence | reflexivity].
  - change (last_cut (String c (s +:+ "_" +:+ t)) = Some (String c s, t)).
    cbn [last_cut]. rewrite IH. reflexivity.
Qed.

Lemma matches_one prefix arg :
  arg <> "" -> all_dots arg = true ->
  matches (OneGroup prefix) (prefix +:+ arg) = Some [arg].
Proof.
  intros Hne Hdots. unfold matches. rewrite strip_append, Hdots.
  destruct arg; [congruence | reflexivity].
Qed.

Lemma matches_two prefix symbol sd :
  symbol <> "" -> all_dots symbol = true ->
  matches (TwoGroups prefix) (prefix +:+ symbol +:+ "_" +:+ side_text sd)
  = Some [symbol; side_text sd].
Proof.
  intros Hne Hdots. unfold matches. rewrite strip_append.
  rewrite all_dots_append, Hdots.
  rewrite last_cut_append by (destruct sd; (reflexivity || discriminate)).
  destruct sd; cbn; (destruct symbol; [congruence | reflexivity]).
Qed.

End Routing.

Ltac route_step :=
  cbn [Bot.first_match];
  first
    [ rewrite matches_two by assumption
    | rewrite matches_one by assumption
    | match goal with
      | |- context [Bot.matches ?t ?d] =>
          change (Bot.matches t d) with (@None (list string))
      | |- context [Bot.matches ?t ?d] =>
          change (Bot.matches t d) with (Some (@nil string))
      end ].

Ltac route_tac := unfold Bot.route, Bot.triggers; repeat route_step; reflexivity.

Ltac each_route :=
  repeat match goal with
         | |- _ :: _ = _ :: _ => f_equal
         end;
  first [reflexivity | route_tac].

(** X25. For a symbol that is not empty and holds no line break, underscores
    allowed, the buttons of the position keyboards run the actions they are
    meant for, with the symbol and the side read back from the callback
    data as they were put in: the greedy first group of the trigger stops
    at the last underscore.  Two buttons run no action at all: "details" of
    [positionOpenedKeyboard] and "add" of [positionManageKeyboard], whose
    callback data no trigger of bot.ts matches. *)
Theorem position_keyboards_route (symbol : string) (sd : Side) :
  symbol <> "" -> Bot.all_dots symbol = true ->
  let side := side_text sd in
  List.map Bot.route
    (Keyboards.callbacks (Keyboards.positionOpenedKeyboard symbol side))
  = [ Some (Bot.TwoGroups "set_tpsl_", [symbol; side]);
      Some (Bot.OneGroup "close_pos_", [symbol]);
      None ]
  /\ List.map Bot.route
       (Keyboards.callbacks (Keyboards.tpSlSelectionKeyboard symbol side))
     = [ Some (Bot.TwoGroups "input_tp_", [symbol; side]);
         Some (Bot.TwoGroups "input_sl_", [symbol; side]);
         Some (Bot.TwoGroups "input_both_", [symbol; side]);
         Some (Bot.Exactly "menu_main", []) ]
  /\ List.map Bot.route
       (Keyboards.callbacks (Keyboards.positionManageKeyboard symbol side))
     = [ Some (Bot.TwoGroups "set_tpsl_", [symbol; side]);
         Some (Bot.OneGroup "close_pos_", [symbol]);
         None;
         Some (Bot.Exactly "menu_positions", []) ]
  /\ List.map Bot.route
       (Keyboards.callbacks (Keyboards.positionsListKeyboard [(symbol, side)]))
     = [ Some (Bot.TwoGroups "pos_manage_", [symbol; side]);
         Some (Bot.Exactly "close_all_positions", []);
         Some (Bot.Exactly "menu_main", []) ].
Proof.
  intros Hne Hdots. cbv zeta.
  unfold Keyboards.callbacks, Keyboards.positionOpenedKeyboard,
    Keyboards.tpSlSelectionKeyboard, Keyboards.positionManageKeyboard,
    Keyboards.positionsListKeyboard.
  cbn [List.concat List.map app fst snd].
  repeat split; each_route.
Qed.

Lemma position_keyboards_route_witness :
  List.map Bot.route
    (Keyboards.callbacks (Keyboards.positionOpenedKeyboard "BTC_USDT" "long"))
  = [ Some (Bot.TwoGroups "set_tpsl_", ["BTC_USDT"; "long"]);
      Some (Bot.OneGroup "close_pos_", ["BTC_USDT"]);
      None ]
  /\ List.map Bot.route
       (Keyboards.callbacks (Keyboards.tpSlSelectionKeyboard "BTC_USDT" "long"))
     = [ Some (Bot.TwoGroups "input_tp_", ["BTC_USDT"; "long"]);
         Some (Bot.TwoGroups "input_sl_", ["BTC_USDT"; "long"]);
         Some (Bot.TwoGroups "input_both_", ["BTC_USDT"; "long"]);
         Some (Bot.Exactly "menu_main", []) ]
  /\ List.map Bot.route
       (Keyboards.callbacks (Keyboards.positionManageKeyboard "BTC_USDT" "long"))
     = [ Some (Bot.TwoGroups "set_tpsl_", ["BTC_USDT"; "long"]);
         Some (Bot.OneGroup "close_pos_", ["BTC_USDT"]);
         None;
         Some (Bot.Exactly "menu_positions", []) ]
  /\ List.map Bot.route
       (Keyboards.callbacks (Keyboards.positionsListKeyboard [("BTC_USDT", "long")]))
     = [ Some (Bot.TwoGroups "pos_manage_", ["BTC_USDT"; "long"]);
         Some (Bot.Exactly "close_all_positions", []);
         Some (Bot.Exactly "menu_main", []) ].
Proof.
  apply (position_keyboards_route "BTC_USDT" long); [discriminate | reflexivity].
Defined.

(** X26. For an account whose id is not empty and holds no line break,
    every button of [accountViewKeyboard] and of [confirmDeleteKeyboard]
    runs the action of its own trigger with the account's id: disabling or
    enabling by the account's state, the master button by its flag, and the
    confirmation of a deletion is not taken for the request of one. *)
Theorem account_keyboard_routes (account : AccountConfig) :
  id account <> "" -> Bot.all_dots (id account) = true ->
  List.map Bot.route
    (Keyboards.callbacks (Keyboards.accountViewKeyboard account))
  = [ Some (Bot.OneGroup (if enabled account then "acc_disable_" else "acc_enable_"),
            [id account]);
      Some (Bot.OneGroup (if isMaster account
                          then "acc_master_" else "acc_setmaster_"),
            [id account]);
      Some (Bot.OneGroup "acc_edit_", [id account]);
      Some (Bot.OneGroup "acc_proxy_", [id account]);
      Some (Bot.OneGroup "acc_balance_", [id account]);
      Some (Bot.OneGroup "acc_positions_", [id account]);
      Some (Bot.OneGroup "acc_delete_", [id account]);
      Some (Bot.Exactly "menu_accounts", []) ]
  /\ List.map Bot.route
       (Keyboards.callbacks (Keyboards.confirmDeleteKeyboard (id account)))
     = [ Some (Bot.OneGroup "acc_confirm_delete_", [id account]);
         Some (Bot.OneGroup "acc_view_", [id account]) ].
Proof.
  intros Hne Hdots.
  unfold Keyboards.callbacks, Keyboards.accountViewKeyboard,
    Keyboards.confirmDeleteKeyboard.
  destruct (enabled account), (isMaster account);
    cbn [List.concat List.map app fst snd];
    (split; each_route).
Qed.

Lemma account_keyboard_routes_witness :
  List.map Bot.route
    (Keyboards.callbacks (Keyboards.accountViewKeyboard Sample.bob))
  = [ Some (Bot.OneGroup "acc_disable_", ["b2"]);
      Some (Bot.OneGroup "acc_setmaster_", ["b2"]);
      Some (Bot.OneGroup "acc_edit_", ["b2"]);
      Some (Bot.OneGroup "acc_proxy_", ["b2"]);
      Some (Bot.OneGroup "acc_balance_", ["b2"]);
      Some (Bot.OneGroup "acc_positions_", ["b2"]);
      Some (Bot.OneGroup "acc_delete_", ["b2"]);
      Some (Bot.Exactly "menu_accounts", []) ]
  /\ List.map Bot.route
       (Keyboards.callbacks (Keyboards.confirmDeleteKeyboard "b2"))
     = [ Some (Bot.OneGroup "acc_confirm_delete_", ["b2"]);
         Some (Bot.OneGroup "acc_view_", ["b2"]) ].
Proof.
  apply (account_keyboard_routes Sample.bob); [discriminate | reflexivity].
Defined.
